(** * Expense tracker (src/Main.js): filter, totals and save logic

    A shallow embedding of the [Main] component of the expense tracker:
    the date filter [getFilteredExpenses], the aggregator
    [calculateTotals], the form handlers [saveExpense] and [handleEdit]
    and what the screen shows, together with the parts of the JavaScript
    run-time and of the store they rest on (Date arithmetic of ECMA-262,
    binary64 addition, ordinary objects used as maps, [parseFloat],
    the conversions of numbers to text, a REAL column of SQLite). *)

From Stdlib Require Import ZArith List String Ascii Bool Lia Permutation Sorted.
From Stdlib Require Import SpecFloat.
Import ListNotations.

Open Scope string_scope.
Open Scope Z_scope.

(** ** Rows of the [expenses] table

    [id INTEGER PRIMARY KEY AUTOINCREMENT, amount REAL, category TEXT,
    note TEXT, date TEXT NOT NULL].  A REAL is a JavaScript number, that
    is an IEEE-754 binary64 value, for which the Standard Library's
    [spec_float] at precision 53 and maximal exponent 1024 is used.
    Text is a [string] of bytes, the UTF-8 encoding of the text.  A row
    reads as an object whose [amount] is the number the column holds
    or, for a NULL of the column, [null]: [None] stands for [null]. *)

Definition number := spec_float.

Record Expense := mkRow {
  id : Z;
  item_amount : option number;
  category : string;
  note : string;
  date : string
}.

(** The row whose amount is the number [a]. *)
Abbreviation mkExpense i a c n d := (mkRow i (Some a) c n d).

(** The number that [+] adds for [item.amount]: the amount itself, and
    [+0] for [null] (ToNumber, ECMA-262, 7.1.4). *)
Definition amount (ex : Expense) : number :=
  match item_amount ex with
  | Some a => a
  | None => S754_zero false
  end.

(** ** Time values and the Date operations of ECMA-262 (section 21.4.1)

    A time value is a number of milliseconds since the epoch, or NaN;
    [None] stands for NaN (an invalid Date).  All finite time values are
    integers below 2^53 in magnitude, so that the engine's double
    arithmetic on them is the integer arithmetic written here. *)

Module DateOps.

Definition msPerDay : Z := 86400000.
Definition msPerHour : Z := 3600000.
Definition msPerMinute : Z := 60000.
Definition msPerSecond : Z := 1000.
Definition maxTime : Z := 8640000000000000.

Definition Day (t : Z) : Z := t / msPerDay.
Definition TimeWithinDay (t : Z) : Z := t mod msPerDay.

Definition DayFromYear (y : Z) : Z :=
  365 * (y - 1970) + (y - 1969) / 4 - (y - 1901) / 100 + (y - 1601) / 400.

Definition DaysInYear (y : Z) : Z :=
  if negb (y mod 4 =? 0) then 365
  else if negb (y mod 100 =? 0) then 366
  else if negb (y mod 400 =? 0) then 365
  else 366.

(** The largest [y] with [DayFromYear y <= Day t]: the estimate from the
    mean length of a Gregorian year is off by at most one. *)
Definition YearFromTime (t : Z) : Z :=
  let d := Day t in
  let y0 := 1970 + (400 * d) / 146097 in
  if DayFromYear (y0 + 1) <=? d then y0 + 1
  else if DayFromYear y0 <=? d then y0
  else y0 - 1.

Definition DayWithinYear (t : Z) : Z := Day t - DayFromYear (YearFromTime t).

Definition leapDays (y : Z) : Z := DaysInYear y - 365.
Definition InLeapYear (t : Z) : Z := leapDays (YearFromTime t).

(** Number of days of the year before month [m] (0 = January). *)
Definition monthStart (m leap : Z) : Z :=
  match m with
  | 0 => 0
  | 1 => 31
  | 2 => 59 + leap
  | 3 => 90 + leap
  | 4 => 120 + leap
  | 5 => 151 + leap
  | 6 => 181 + leap
  | 7 => 212 + leap
  | 8 => 243 + leap
  | 9 => 273 + leap
  | 10 => 304 + leap
  | _ => 334 + leap
  end.

Definition monthOfDay (d leap : Z) : Z :=
  if d <? 31 then 0
  else if d <? 59 + leap then 1
  else if d <? 90 + leap then 2
  else if d <? 120 + leap then 3
  else if d <? 151 + leap then 4
  else if d <? 181 + leap then 5
  else if d <? 212 + leap then 6
  else if d <? 243 + leap then 7
  else if d <? 273 + leap then 8
  else if d <? 304 + leap then 9
  else if d <? 334 + leap then 10
  else 11.

Definition MonthFromTime (t : Z) : Z := monthOfDay (DayWithinYear t) (InLeapYear t).

Definition DateFromTime (t : Z) : Z :=
  DayWithinYear t - monthStart (MonthFromTime t) (InLeapYear t) + 1.

Definition WeekDay (t : Z) : Z := (Day t + 4) mod 7.

Definition MakeTime (hour min sec ms : Z) : Z :=
  hour * msPerHour + min * msPerMinute + sec * msPerSecond + ms.

Definition MakeDay (year month dt : Z) : Z :=
  let ym := year + month / 12 in
  let mn := month mod 12 in
  DayFromYear ym + monthStart mn (leapDays ym) + dt - 1.

Definition MakeDate (day time : Z) : Z := day * msPerDay + time.

Definition TimeClip (t : Z) : option Z :=
  if Z.abs t <=? maxTime then Some t else None.

Definition HourFromTime (t : Z) : Z := (t / msPerHour) mod 24.
Definition MinFromTime (t : Z) : Z := (t / msPerMinute) mod 60.
Definition SecFromTime (t : Z) : Z := (t / msPerSecond) mod 60.
Definition msFromTime (t : Z) : Z := t mod msPerSecond.

(** The last [width] decimal digits of [n]. *)
Fixpoint padded (width : nat) (n : Z) : string :=
  match width with
  | O => ""
  | S w => padded w (n / 10) ++ String (ascii_of_N (Z.to_N (48 + n mod 10))) ""
  end.

(** [d.toISOString()] of a valid Date: [YYYY-MM-DDTHH:mm:ss.sssZ], with
    a signed year of six digits outside 0 to 9999. *)
Definition toISOString (t : Z) : string :=
  let y := YearFromTime t in
  let year :=
    if (0 <=? y) && (y <=? 9999) then padded 4 y
    else (if y <? 0 then "-" else "+") ++ padded 6 (Z.abs y) in
  year ++ "-" ++ padded 2 (MonthFromTime t + 1) ++ "-" ++ padded 2 (DateFromTime t)
    ++ "T" ++ padded 2 (HourFromTime t) ++ ":" ++ padded 2 (MinFromTime t)
    ++ ":" ++ padded 2 (SecFromTime t) ++ "." ++ padded 3 (msFromTime t) ++ "Z".

(** A reading of the format that [toISOString] writes, for years of
    four digits: what [Date.parse] of any engine gives on such strings.
    The examples use it as the parser of the host. *)
Fixpoint fixedDigits (n : nat) (s : string) (acc : Z) : option (Z * string) :=
  match n, s with
  | O, _ => Some (acc, s)
  | S n', String c s' =>
      let d := Z.of_N (N_of_ascii c) - 48 in
      if (0 <=? d) && (d <=? 9) then fixedDigits n' s' (10 * acc + d) else None
  | S _, EmptyString => None
  end.

Definition field (n : nat) (stop : string) (s : string) : option (Z * string) :=
  match fixedDigits n s 0 with
  | Some (v, rest) =>
      if String.prefix stop rest
      then Some (v, String.substring (String.length stop)
                      (String.length rest - String.length stop) rest)
      else None
  | None => None
  end.

Definition daysInMonth (y m : Z) : Z :=
  if m =? 11 then 31 else monthStart (m + 1) (leapDays y) - monthStart m (leapDays y).

Definition parseISO (s : string) : option Z :=
  match field 4 "-" s with
  | Some (y, s1) =>
  match field 2 "-" s1 with
  | Some (mo, s2) =>
  match field 2 "T" s2 with
  | Some (d, s3) =>
  match field 2 ":" s3 with
  | Some (h, s4) =>
  match field 2 ":" s4 with
  | Some (mi, s5) =>
  match field 2 "." s5 with
  | Some (sec, s6) =>
  match field 3 "Z" s6 with
  | Some (ms, EmptyString) =>
      if (1 <=? mo) && (mo <=? 12) && (1 <=? d) && (d <=? daysInMonth y (mo - 1))
         && (h <=? 23) && (mi <=? 59) && (sec <=? 59)
      then TimeClip (MakeDate (MakeDay y (mo - 1) d) (MakeTime h mi sec ms))
      else None
  | _ => None
  end
  | None => None
  end
  | None => None
  end
  | None => None
  end
  | None => None
  end
  | None => None
  end
  | None => None
  end.

End DateOps.
Import DateOps.

(** ** JavaScript numbers, values and ordinary objects

    What [calculateTotals] uses of the language: [+] and [||] on values,
    and an object literal [{}] used as a map from category to amount. *)

Module JS.

Definition prec : Z := 53.
Definition emax : Z := 1024.

(** [x + y] on two numbers: binary64 addition, rounding to nearest, ties
    to even. *)
Definition add (x y : number) : number := SFadd prec emax x y.

Definition posZero : number := S754_zero false.
Definition NaN : number := S754_nan.

(** The number nearest to the integer [z], and to [n * 10 ^ e10]. *)
Definition ofZ (z : Z) : number := binary_normalize prec emax z 0 false.

Definition ofDecimal (neg : bool) (n : N) (e10 : Z) : number :=
  match n with
  | N0 => S754_zero neg
  | Npos p =>
      if 0 <=? e10 then binary_round prec emax neg (p * Z.to_pos (10 ^ e10)) 0
      else
        let '(q, e, l) := SFdiv_core_binary prec emax (Zpos p) 0 (10 ^ (- e10)) 0 in
        binary_round_aux prec emax neg q e l
  end.

(** [parseFloat(s)]: the value of the longest prefix of [s], white space
    skipped, that is a decimal literal; NaN when there is none.  White
    space (StrWhiteSpaceChar) is tab, line feed, vertical tab, form
    feed, carriage return and space, of one byte each; the no-break
    space U+00A0, of the two bytes C2 A0; and, of three bytes each, the
    space separators U+1680, U+2000 to U+200A, U+202F, U+205F and
    U+3000, the line and paragraph separators U+2028 and U+2029 and the
    byte order mark U+FEFF. *)
Definition isWhiteSpace (c : ascii) : bool :=
  let n := N_of_ascii c in
  ((9 <=? n) && (n <=? 13) || (n =? 32))%N.

Definition whiteSpace2 (a b : ascii) : bool :=
  ((N_of_ascii a =? 194) && (N_of_ascii b =? 160))%N.

Definition whiteSpace3 (a b c : ascii) : bool :=
  let '(x, y, z) := (N_of_ascii a, N_of_ascii b, N_of_ascii c) in
  ((x =? 225) && (y =? 154) && (z =? 128)
   || (x =? 226) && (y =? 128)
      && ((128 <=? z) && (z <=? 138) || (z =? 168) || (z =? 169) || (z =? 175))
   || (x =? 226) && (y =? 129) && (z =? 159)
   || (x =? 227) && (y =? 128) && (z =? 128)
   || (x =? 239) && (y =? 187) && (z =? 191))%N.

Fixpoint trimStart (s : string) : string :=
  match s with
  | String a s1 =>
      if isWhiteSpace a then trimStart s1
      else if (N_of_ascii a <? 128)%N then s
      else
        match s1 with
        | String b s2 =>
            if whiteSpace2 a b then trimStart s2
            else
              match s2 with
              | String c s3 => if whiteSpace3 a b c then trimStart s3 else s
              | EmptyString => s
              end
        | EmptyString => s
        end
  | EmptyString => s
  end.

Definition digit (c : ascii) : option N :=
  let n := N_of_ascii c in
  if ((48 <=? n) && (n <=? 57))%N then Some (n - 48)%N else None.

(** A maximal run of digits at the head of [s], continuing the value
    [acc]: the value, the number of digits read, and the rest. *)
Fixpoint readDigits (s : string) (acc len : N) : N * N * string :=
  match s with
  | String c s' =>
      match digit c with
      | Some d => readDigits s' (10 * acc + d)%N (len + 1)%N
      | None => (acc, len, s)
      end
  | EmptyString => (acc, len, s)
  end.

Definition readExponent (s : string) : Z :=
  match s with
  | String c s' =>
      if (Ascii.eqb c "e" || Ascii.eqb c "E")%bool then
        let '(neg, s'') :=
          match s' with
          | String "+" t => (false, t)
          | String "-" t => (true, t)
          | _ => (false, s')
          end in
        let '(v, len, _) := readDigits s'' 0 0 in
        if (len =? 0)%N then 0 else if neg then - Z.of_N v else Z.of_N v
      else 0
  | EmptyString => 0
  end.

Definition parseUnsigned (neg : bool) (s : string) : number :=
  if String.prefix "Infinity" s then S754_infinity neg
  else
    let '(i, ilen, r1) := readDigits s 0 0 in
    let '(m, flen, r2) :=
      match r1 with
      | String "." t => readDigits t i 0
      | _ => (i, 0%N, r1)
      end in
    if (ilen + flen =? 0)%N then NaN
    else ofDecimal neg m (readExponent r2 - Z.of_N flen).

Definition parseFloat (s : string) : number :=
  match trimStart s with
  | String "+" r => parseUnsigned false r
  | String "-" r => parseUnsigned true r
  | t => parseUnsigned false t
  end.

(** A string that [+] builds is kept as the sequence of its parts: the
    text of a literal, the decimal text of a number, or the text a
    built-in of [Object.prototype] converts to.  The last two are never
    empty. *)
Inductive piece :=
| Lit (s : string)
| OfNumber (x : number)
| OfBuiltin (name : string).

Inductive value :=
| Undefined
| Null
| Num (x : number)
| Str (text : list piece)
| Builtin (name : string).

(** [item.amount] as a value. *)
Definition ofColumn (a : option number) : value :=
  match a with
  | Some x => Num x
  | None => Null
  end.

Definition emptyPiece (p : piece) : bool :=
  match p with
  | Lit "" => true
  | _ => false
  end.

Definition ToBoolean (v : value) : bool :=
  match v with
  | Undefined => false
  | Null => false
  | Num (S754_zero _) => false
  | Num S754_nan => false
  | Num _ => true
  | Str text => negb (forallb emptyPiece text)
  | Builtin _ => true
  end.

(** [v || w] *)
Definition or (v w : value) : value := if ToBoolean v then v else w.

(** ToPrimitive and ToString on these values, and ToNumber on the
    primitives that are no strings, the only ones [+] converts. *)
Definition ToPrimitive (v : value) : value :=
  match v with
  | Builtin name => Str [OfBuiltin name]
  | _ => v
  end.

Definition ToString (v : value) : list piece :=
  match v with
  | Undefined => [Lit "undefined"]
  | Null => [Lit "null"]
  | Num x => [OfNumber x]
  | Str text => text
  | Builtin name => [OfBuiltin name]
  end.

Definition ToNumber (v : value) : number :=
  match v with
  | Num x => x
  | Null => posZero
  | _ => NaN
  end.

(** [v + w]: concatenation as soon as one operand is a string once
    converted to a primitive, addition of numbers otherwise. *)
Definition plus (v w : value) : value :=
  match ToPrimitive v, ToPrimitive w with
  | Str a, w' => Str (a ++ ToString w')
  | v', Str b => Str (ToString v' ++ b)
  | v', w' => Num (add (ToNumber v') (ToNumber w'))
  end.

(** An object created by [{}]: its own properties in the order of
    their creation; its prototype is [Object.prototype]. *)
Definition object := list (string * value).

Definition protoNames : list string :=
  [ "constructor"; "hasOwnProperty"; "isPrototypeOf"; "propertyIsEnumerable";
    "toLocaleString"; "toString"; "valueOf"; "__proto__";
    "__defineGetter__"; "__defineSetter__"; "__lookupGetter__"; "__lookupSetter__" ].

Fixpoint getOwn (o : object) (k : string) : option value :=
  match o with
  | [] => None
  | (k', v) :: o' => if (k' =? k)%string then Some v else getOwn o' k
  end.

(** [o[k]]: the own property, or else the one inherited from
    [Object.prototype], or else [undefined]. *)
Definition Get (o : object) (k : string) : value :=
  match getOwn o k with
  | Some v => v
  | None => if existsb (String.eqb k) protoNames then Builtin k else Undefined
  end.

Fixpoint setOwn (o : object) (k : string) (v : value) : object :=
  match o with
  | [] => []
  | (k', v') :: o' =>
      if (k' =? k)%string then (k', v) :: o' else (k', v') :: setOwn o' k v
  end.

(** [o[k] = v] for a primitive [v]: an own property is overwritten where
    it stands, a new one is created last; the setter that
    [Object.prototype] has for [__proto__] ignores primitives. *)
Definition Set_ (o : object) (k : string) (v : value) : object :=
  match getOwn o k with
  | Some _ => setOwn o k v
  | None => if (k =? "__proto__")%string then o else (o ++ [(k, v)])%list
  end.

(** Array indices: the canonical decimal strings of the integers from
    0 to 2^32 - 2. *)
Fixpoint digits (s : string) (acc : N) : option N :=
  match s with
  | EmptyString => Some acc
  | String c s' =>
      match digit c with
      | Some d => digits s' (10 * acc + d)%N
      | None => None
      end
  end.

Definition arrayIndex (k : string) : option N :=
  match k with
  | EmptyString => None
  | String "0" EmptyString => Some 0%N
  | String "0" _ => None
  | _ =>
      match digits k 0 with
      | Some n => if (n <=? 4294967294)%N then Some n else None
      | None => None
      end
  end.

Fixpoint insertIndex (n : N) (k : string) (l : list (N * string)) : list (N * string) :=
  match l with
  | [] => [(n, k)]
  | (m, k') :: l' =>
      if (n <=? m)%N then (n, k) :: l else (m, k') :: insertIndex n k l'
  end.

Fixpoint indexKeys (ks : list string) : list (N * string) :=
  match ks with
  | [] => []
  | k :: ks' =>
      match arrayIndex k with
      | Some n => insertIndex n k (indexKeys ks')
      | None => indexKeys ks'
      end
  end.

Definition isIndex (k : string) : bool :=
  match arrayIndex k with Some _ => true | None => false end.

(** [Object.keys(o)]: the array indices in ascending order, then the
    other keys in the order of their creation. *)
Definition keys (o : object) : list string :=
  let ks := map fst o in
  (map snd (indexKeys ks) ++ List.filter (fun k => negb (isIndex k)) ks)%list.

End JS.

(** ** The component, over the built-ins of the host engine *)

Module Main.

Section Engine.

(** The offset of the local time zone: [LocalTZA t true] for a UTC time
    value [t], [LocalTZA t false] for a local time value. *)
Variable LocalTZA : Z -> bool -> Z.

(** [new Date(string)]: the time value the engine reads from a string,
    NaN when it cannot.  Only the ISO format is fixed by the language;
    what else parses is up to the engine. *)
Variable Date_parse : string -> option Z.

Definition LocalTime (t : Z) : Z := t + LocalTZA t true.
Definition UTC (t : Z) : Z := t - LocalTZA t false.

(** [now.getDate()], [now.getDay()], [now.getFullYear()],
    [now.getMonth()] of a valid Date. *)
Definition getDate (t : Z) : Z := DateFromTime (LocalTime t).
Definition getDay (t : Z) : Z := WeekDay (LocalTime t).
Definition getFullYear (t : Z) : Z := YearFromTime (LocalTime t).
Definition getMonth (t : Z) : Z := MonthFromTime (LocalTime t).

(** [d.setDate(dt)] and [d.setHours(h, m, s, ms)]: the new time value
    of [d]. *)
Definition setDate (d : option Z) (dt : Z) : option Z :=
  match d with
  | None => None
  | Some tv =>
      let t := LocalTime tv in
      let newDate :=
        MakeDate (MakeDay (YearFromTime t) (MonthFromTime t) dt) (TimeWithinDay t) in
      TimeClip (UTC newDate)
  end.

Definition setHours (d : option Z) (hour min sec ms : Z) : option Z :=
  match d with
  | None => None
  | Some tv =>
      let t := LocalTime tv in
      let dt := MakeDate (Day t) (MakeTime hour min sec ms) in
      TimeClip (UTC dt)
  end.

(** [new Date(year, month, date)]: years 0 to 99 stand for 1900 to 1999. *)
Definition Date_ymd (year month dt : Z) : option Z :=
  let yr := if (0 <=? year) && (year <=? 99) then 1900 + year else year in
  let finalDate := MakeDate (MakeDay yr month dt) (MakeTime 0 0 0 0) in
  TimeClip (UTC finalDate).

(** [a >= b] on two Dates: both are converted to their time values, and
    a comparison with NaN is false. *)
Definition Date_ge (a b : option Z) : bool :=
  match a, b with
  | Some x, Some y => negb (x <? y)
  | _, _ => false
  end.

(** *** getFilteredExpenses

    [filter] and [expenses] are the component's state, [now] is the time
    value of [new Date()]. *)
Definition startOfWeek (now : Z) : option Z :=
  setHours (setDate (Some now) (getDate now - getDay now)) 0 0 0 0.

Definition startOfMonth (now : Z) : option Z :=
  Date_ymd (getFullYear now) (getMonth now) 1.

Definition getFilteredExpenses
    (filter : string) (expenses : list Expense) (now : Z) : list Expense :=
  if (filter =? "All")%string then expenses
  else
    List.filter
      (fun ex =>
         let exDate := Date_parse (date ex) in
         if (filter =? "Week")%string then Date_ge exDate (startOfWeek now)
         else if (filter =? "Month")%string then Date_ge exDate (startOfMonth now)
         else true)
      expenses.

End Engine.

(** *** calculateTotals

    [visibleExpenses] is the list that [getFilteredExpenses] returned.
    The running [sum] is a number from the start, so that
    [sum + item.amount] adds to it the number [amount item]; what
    [acc[item.category]] holds may be a text, to which [+] appends the
    text of [item.amount]. *)
Record Totals := mkTotals {
  total : number;
  byCategory : JS.object
}.

Definition calculateTotals (visibleExpenses : list Expense) : Totals :=
  let total :=
    fold_left (fun sum item => JS.add sum (amount item)) visibleExpenses JS.posZero in
  let byCategory :=
    fold_left
      (fun acc item =>
         JS.Set_ acc (category item)
           (JS.plus (JS.or (JS.Get acc (category item)) (JS.Num JS.posZero))
                    (JS.ofColumn (item_amount item))))
      visibleExpenses [] in
  mkTotals total byCategory.

(** *** The state of the component and the [expenses] table

    The state variables of [Main] ([expenses], [amount], [category],
    [note], [filter], [editingId]) carry the prefix [st_] here, since
    [amount], [category] and [note] also name columns of a row.  The
    table is the persistence layer seen through the three statements
    the component issues. *)
Record State := mkState {
  st_expenses : list Expense;
  st_amount : string;
  st_category : string;
  st_note : string;
  st_filter : string;
  st_editingId : option Z
}.

Record Table := mkTable {
  rows : list Expense;
  lastId : Z
}.

(** What the column [amount REAL] holds for a number bound to it, and
    gives back when the row is read: NULL for NaN, which SQLite does not
    store; a zero comes back as [+0], since a REAL column keeps a number
    that is an integer as that integer; any other number comes back as
    it is. *)
Definition realColumn (a : number) : option number :=
  match a with
  | S754_nan => None
  | S754_zero _ => Some (S754_zero false)
  | _ => Some a
  end.

(** [UPDATE expenses SET amount = ?, category = ?, note = ? WHERE id = ?] *)
Definition sqlUpdate (a : number) (c n : string) (i : Z) (t : Table) : Table :=
  mkTable
    (map (fun r => if id r =? i then mkRow (id r) (realColumn a) c n (date r) else r)
         (rows t))
    (lastId t).

(** [INSERT INTO expenses (amount, category, note, date) VALUES (?, ?, ?, ?)]:
    AUTOINCREMENT gives the row an id above every id used so far. *)
Definition sqlInsert (a : number) (c n d : string) (t : Table) : Table :=
  let i := fold_left (fun m r => Z.max m (id r)) (rows t) (lastId t) + 1 in
  mkTable (rows t ++ [mkRow i (realColumn a) c n d]) i.

(** [SELECT * FROM expenses ORDER BY id DESC] *)
Fixpoint insertById (r : Expense) (l : list Expense) : list Expense :=
  match l with
  | [] => [r]
  | r' :: l' => if id r' <=? id r then r :: l else r' :: insertById r l'
  end.

Definition sqlSelectAll (t : Table) : list Expense :=
  fold_right insertById [] (rows t).

Definition loadExpenses (s : State) (t : Table) : State :=
  mkState (sqlSelectAll t) (st_amount s) (st_category s) (st_note s)
          (st_filter s) (st_editingId s).

(** What awaiting an [async] function gives its caller. *)
Inductive Promise (A : Type) : Type :=
| Fulfilled (a : A)
| Rejected (reason : string).
Arguments Fulfilled {A} a.
Arguments Rejected {A} reason.

(** The truth value of a string, and of [editingId] ([null] or an id). *)
Definition nonEmpty (s : string) : bool :=
  match s with EmptyString => false | _ => true end.

Definition editing (e : option Z) : option Z :=
  match e with
  | Some 0 => None
  | _ => e
  end.

(** *** saveExpense

    [now] is the time value of [new Date()] on the insert path. *)
Definition saveExpense (s : State) (t : Table) (now : Z) : Promise (State * Table) :=
  if negb (nonEmpty (st_amount s)) || negb (nonEmpty (st_category s))
  then Fulfilled (s, t)
  else
    let '(t', e') :=
      match editing (st_editingId s) with
      | Some i =>
          (sqlUpdate (JS.parseFloat (st_amount s)) (st_category s) (st_note s) i t,
           None)
      | None =>
          let newDate := toISOString now in
          (sqlInsert (JS.parseFloat (st_amount s)) (st_category s) (st_note s)
                     newDate t,
           st_editingId s)
      end in
    Fulfilled
      (loadExpenses (mkState (st_expenses s) "" "" "" (st_filter s) e') t', t').

(** *** setup

    The effect that runs when the component is mounted:
    [CREATE TABLE IF NOT EXISTS expenses (...)], then [loadExpenses()].
    [stored] is the table the database file holds, if it holds one. *)
Definition initialState : State := mkState [] "" "" "" "All" None.

Definition setup (s : State) (stored : option Table) : State * Table :=
  let t := match stored with Some t => t | None => mkTable [] 0 end in
  (loadExpenses s t, t).

(** *** addExpense

    The form handler of the component before it had an edit mode.  The
    state of that version has no [editingId]; the field is carried
    along. *)
Definition addExpense (s : State) (t : Table) (now : Z) : Promise (State * Table) :=
  if negb (nonEmpty (st_amount s)) || negb (nonEmpty (st_category s))
  then Fulfilled (s, t)
  else
    let newDate := toISOString now in
    let t' :=
      sqlInsert (JS.parseFloat (st_amount s)) (st_category s) (st_note s) newDate t in
    Fulfilled
      (loadExpenses (mkState (st_expenses s) "" "" "" (st_filter s) (st_editingId s)) t',
       t').

(** *** deleteTask

    The handler the same version still has from the task list it grew
    out of.  Its statement names a table [tasks], which this component
    never creates, and it ends with a call of [loadTasks], which nothing
    declares.  A task has the columns [renderItem] reads. *)
Record Task := mkTask {
  task_id : Z;
  title : string;
  done : Z
}.

Record Database := mkDatabase {
  expensesTable : Table;
  tasksTable : option (list Task)
}.

(** [DELETE FROM tasks WHERE id = ?;] fails when there is no such table;
    a reference to an undeclared name throws.  The pair is what awaiting
    the handler gives, and the database it leaves. *)
Definition deleteTask (db : Database) (i : Z) : Promise unit * Database :=
  match tasksTable db with
  | None => (Rejected "no such table: tasks", db)
  | Some tasks =>
      (Rejected "ReferenceError: loadTasks is not defined",
       mkDatabase (expensesTable db)
                  (Some (List.filter (fun r => negb (task_id r =? i)) tasks)))
  end.

(** *** handleEdit

    [item.amount.toString()] is the engine's conversion of a number to
    its decimal text; [null] has no properties, and reading one of it
    throws, after [setEditingId(item.id)] has run.  The result is the
    state the setters leave, and the error thrown, if any. *)
Section Editing.

Variable Number_toString : number -> string.

Definition handleEdit (s : State) (item : Expense) : State * option string :=
  match item_amount item with
  | Some a =>
      (mkState (st_expenses s) (Number_toString a) (category item)
               (note item) (st_filter s) (Some (id item)),
       None)
  | None =>
      (mkState (st_expenses s) (st_amount s) (st_category s) (st_note s)
               (st_filter s) (Some (id item)),
       Some "TypeError")
  end.

End Editing.

End Main.

(** * The vocabulary of the properties *)

Open Scope list_scope.
Open Scope Z_scope.

(** ** Order-preserving sublists *)

Inductive Subseq {A : Type} : list A -> list A -> Prop :=
| Subseq_nil : Subseq [] []
| Subseq_keep x l1 l2 : Subseq l1 l2 -> Subseq (x :: l1) (x :: l2)
| Subseq_drop x l1 l2 : Subseq l1 l2 -> Subseq l1 (x :: l2).

(** ** Boundaries in time *)

Section Boundaries.

Variable LocalTZA : Z -> bool -> Z.
Variable Date_parse : string -> option Z.

(** A record's timestamp is on or after the instant [b]: it has a
    timestamp, and that is not before [b]. *)
Definition on_or_after (b : Z) (ex : Expense) : bool :=
  match Date_parse (date ex) with
  | Some t => b <=? t
  | None => false
  end.

(** Local midnight at the start of the most recent Sunday, and of the
    first day of the current month, as local time values. *)
Definition weekStartLocal (now : Z) : Z :=
  let t := Main.LocalTime LocalTZA now in
  MakeDate (Day t - WeekDay t) 0.

Definition monthStartLocal (now : Z) : Z :=
  let t := Main.LocalTime LocalTZA now in
  MakeDate (Day t - (DateFromTime t - 1)) 0.

(** Assumptions on the host: the clock reads an instant well inside the
    range of Date, and zone offsets are below a day. *)
Definition clock_in_range (now : Z) : Prop :=
  Z.abs now <= maxTime - 40 * msPerDay.

Definition zone_bounded : Prop :=
  forall t isUTC, Z.abs (LocalTZA t isUTC) <= msPerDay.

(** The local time [l] is read back on the same calendar day (it is not
    in an interval that a clock change skips over midnight). *)
Definition same_local_day (l : Z) : Prop :=
  Day (Main.LocalTime LocalTZA (Main.UTC LocalTZA l)) = Day l.

End Boundaries.

(** ** Exact sums *)

(** The integer part of a number, and the amounts that are integers. *)
Definition trunc (x : number) : Z :=
  match x with
  | S754_finite s m e => cond_Zopp s (Z.shiftl (Zpos m) e)
  | _ => 0
  end.

Definition integerAmount (ex : Expense) : Prop :=
  amount ex = JS.ofZ (trunc (amount ex)).

Definition exactSum (l : list Expense) : Z :=
  fold_right (fun ex s => trunc (amount ex) + s) 0 l.

Definition absSum (l : list Expense) : Z :=
  fold_right (fun ex s => Z.abs (trunc (amount ex)) + s) 0 l.

(** The finite numbers, in canonical form, and their values in units of
    2^-1074, of which every finite number is a whole multiple. *)
Definition finiteNumber (x : number) : bool :=
  match x with
  | S754_zero _ => true
  | S754_finite _ m e => bounded JS.prec JS.emax m e
  | _ => false
  end.

Definition units (x : number) : Z :=
  match x with
  | S754_finite s m e => cond_Zopp s (Zpos m * 2 ^ (e + 1074))
  | _ => 0
  end.

(** The arithmetic sum of the amounts of a list, without any rounding,
    and the sum of their magnitudes, in the same units. *)
Definition exactUnits (l : list Expense) : Z :=
  fold_right (fun ex s => units (amount ex) + s) 0 l.

Definition magnitude (l : list Expense) : Z :=
  fold_right (fun ex s => Z.abs (units (amount ex)) + s) 0 l.

(** One currency unit, and the bound 2^1022 on the magnitudes that
    keeps a running sum away from overflow, in these units. *)
Definition currencyUnit : Z := 2 ^ 1074.
Definition maxUnits : Z := 2 ^ 2096.

(** [x] is finite and less than half a minor unit (a hundredth) away
    from the exact value [q]. *)
Definition minorUnitAccurate (x : number) (q : Z) : Prop :=
  finiteNumber x = true /\ 200 * Z.abs (units x - q) < currencyUnit.

(** ** Labels and their sums *)

(** The distinct labels of a list, each at its first appearance. *)
Fixpoint firstOccurrences (ks : list string) : list string :=
  match ks with
  | [] => []
  | k :: ks' => k :: List.filter (fun k' => negb (k' =? k)%string) (firstOccurrences ks')
  end.

(** A label that names a property of [Object.prototype]. *)
Definition inheritedName (k : string) : bool := existsb (String.eqb k) JS.protoNames.

(** A label that is neither an array index nor the name of a property
    of [Object.prototype]. *)
Definition plainLabel (k : string) : bool :=
  negb (JS.isIndex k) && negb (inheritedName k).

(** The records of one category, in the order of the list. *)
Definition withCategory (k : string) (l : list Expense) : list Expense :=
  List.filter (fun ex => (category ex =? k)%string) l.

(** One round of [(acc[c] || 0) + amount] on a number [s] held for [c],
    and the rounds over all the records of one category. *)
Definition accumulate (s a : number) : number :=
  JS.add (if JS.ToBoolean (JS.Num s) then s else JS.posZero) a.

Definition categoryTotal (k : string) (l : list Expense) : number :=
  fold_left accumulate (map amount (withCategory k l)) JS.posZero.

(** Some record of the list carries the label [k]. *)
Definition mentions (k : string) (l : list Expense) : bool :=
  existsb (String.eqb k) (map category l).

(** The sum of the values of a breakdown, as
    [Object.keys(o).reduce((s, c) => s + o[c], 0)] computes it. *)
Definition sumValues (o : JS.object) : JS.value :=
  fold_left (fun s k => JS.plus s (JS.Get o k)) (JS.keys o) (JS.Num JS.posZero).

(** Sums of integers over records and over labels. *)
Definition sumOf (f : Expense -> Z) (l : list Expense) : Z :=
  fold_right (fun ex s => f ex + s) 0 l.

Definition keySum (g : string -> Z) (ks : list string) : Z :=
  fold_right (fun k s => g k + s) 0 ks.

(** ** Forms *)

(** Input that the save cannot take as a number with a category: the
    amount has no numeric value, or the category is empty. *)
Definition malformed (s : Main.State) : Prop :=
  JS.parseFloat (Main.st_amount s) = JS.NaN \/ Main.st_category s = "".

(** The form lacks an amount or a category. *)
Definition blank (s : Main.State) : Prop :=
  Main.st_amount s = "" \/ Main.st_category s = "".

(** ** Sample data *)

(** A record of amount [a] and category [c], and a form as typed. *)
Definition expense (a : number) (c : string) : Expense := mkExpense 1 a c "" "".

(** A breakdown read as a list of records, one for each key. *)
Definition summary (o : JS.object) (ks : list string) : list Expense :=
  map (fun k => expense (JS.ToNumber (JS.Get o k)) k) ks.

Definition form (a c n : string) (e : option Z) : Main.State :=
  Main.mkState [] a c n "All" e.

(** A zone five hours ahead of UTC all year, and a Wednesday noon. *)
Definition zonePlus5 : Z -> bool -> Z := fun _ _ => 5 * msPerHour.
Definition wednesdayNoon : Z := 1764158400000.

Definition sampleExpenses : list Expense :=
  [ mkExpense 3 (JS.ofZ 10) "Food" "" "2025-11-26T09:00:00.000Z";
    mkExpense 2 (JS.parseFloat "5.50") "Food" "" "2025-11-18T09:00:00.000Z";
    mkExpense 1 (JS.ofZ 20) "Rent" "" "2025-11-01T00:00:00.000Z" ].

(** * The screen

    What the component shows of its state, and the events it takes. *)

(** ** Numbers as text *)

Module NumberText.

Local Open Scope string_scope.
Local Open Scope Z_scope.

Definition digitChar (d : N) : string := String (ascii_of_N (48 + d)) "".

(** The decimal digits of [n], the most significant first, without
    leading zeros; [fuel] bounds their number. *)
Fixpoint digitsOf (fuel : nat) (n : N) : string :=
  match fuel with
  | O => ""
  | S f =>
      if (n <? 10)%N then digitChar n
      else digitsOf f (n / 10) ++ digitChar (n mod 10)
  end.

Definition decimal (n : N) : string := digitsOf (S (N.to_nat (N.log2 n))) n.

Fixpoint zeros (n : nat) : string :=
  match n with
  | O => ""
  | S n' => String "0" (zeros n')
  end.

Definition exponentText (e : Z) : string :=
  (if e <? 0 then "-" else "+") ++ decimal (Z.abs_N e).

(** The text of the positive number [s * 10 ^ (n - k)], where [s] has
    the [k] digits [10 ^ (k - 1) <= s < 10 ^ k], in the four layouts of
    Number::toString (ECMA-262, 6.1.6.1.20): digits and zeros, digits
    around a point, zeros after the point, and exponent notation. *)
Definition layout (s : N) (k n : Z) : string :=
  let ds := decimal s in
  if (k <=? n) && (n <=? 21) then ds ++ zeros (Z.to_nat (n - k))
  else if (0 <? n) && (n <=? 21) then
     substring 0 (Z.to_nat n) ds ++ "." ++ substring (Z.to_nat n) (Z.to_nat (k - n)) ds
  else if (-6 <? n) && (n <=? 0) then "0." ++ zeros (Z.to_nat (- n)) ++ ds
  else if k =? 1 then ds ++ "e" ++ exponentText (n - 1)
  else substring 0 1 ds ++ "." ++ substring 1 (Z.to_nat (k - 1)) ds
       ++ "e" ++ exponentText (n - 1).

(** A text that Number::toString may give for [x]: for a finite number
    other than zero, a layout of digits [s] whose value
    [s * 10 ^ (n - k)] is a decimal that rounds to the magnitude of [x].
    (The conversion takes the least [k] for which there are such
    digits.) *)
Definition textOf (x : number) (text : string) : Prop :=
  match x with
  | S754_nan => text = "NaN"
  | S754_zero _ => text = "0"
  | S754_infinity neg => text = (if neg then "-" else "") ++ "Infinity"
  | S754_finite neg m e =>
      exists (s : N) (k n : Z),
        (10 ^ (k - 1) <= Z.of_N s < 10 ^ k) /\ 1 <= k /\
        JS.ofDecimal false s (n - k) = S754_finite false m e /\
        text = (if neg then "-" else "") ++ layout s k n
  end.

Section ToFixed.

(** [x.toString()], the conversion of the engine. *)
Variable Number_toString : number -> string.

(** [x.toFixed(2)] (ECMA-262, 21.1.3.3): the conversion of the engine
    for a number that is not finite or is 10^21 or more in magnitude;
    otherwise the integer [n] nearest to [100 * x], the larger one of
    two, written with a point before its last two digits. *)
Definition toFixed (x : number) : string :=
  match x with
  | S754_nan | S754_infinity _ => Number_toString x
  | _ =>
      let s := if units x <? 0 then "-" else "" in
      let v := Z.abs (units x) in
      if 10 ^ 21 * currencyUnit <=? v then s ++ Number_toString (SFabs x)
      else
        let n := (200 * v + currencyUnit) / (2 * currencyUnit) in
        let m := decimal (Z.to_N n) in
        let k := String.length m in
        let m := if (k <=? 2)%nat then zeros (3 - k)%nat ++ m else m in
        let k := String.length m in
        s ++ substring 0 (k - 2)%nat m ++ "." ++ substring (k - 2)%nat 2 m
  end.

End ToFixed.

End NumberText.

(** ** The summary and the events *)

Module Screen.

Local Open Scope string_scope.
Local Open Scope Z_scope.

(** How the evaluation of an expression ends. *)
Inductive Completion (A : Type) : Type :=
| Normal (a : A)
| Throw (error : string).
Arguments Normal {A} a.
Arguments Throw {A} error.

Section Component.

Variable LocalTZA : Z -> bool -> Z.
Variable Date_parse : string -> option Z.
Variable Number_toString : number -> string.

(** [v.toFixed(2)]: numbers have the method; a string and a function
    have no property of that name, and calling [undefined] throws, as
    does reading a property of [null]. *)
Definition callToFixed (v : JS.value) : Completion string :=
  match v with
  | JS.Num x => Normal (NumberText.toFixed Number_toString x)
  | _ => Throw "TypeError"
  end.

(** The card of a record, [renderItem] of the list: its category, the
    text [${item.amount.toFixed(2)}] and its note.  (The text of the
    date is that of the host's locale.) *)
Definition renderItem (item : Expense) : Completion (string * string * string) :=
  match callToFixed (JS.ofColumn (item_amount item)) with
  | Throw e => Throw e
  | Normal text => Normal (category item, "$" ++ text, note item)
  end.

(** [Object.keys(byCategory).map((cat) => ...)]: the text
    [{cat}: ${byCategory[cat].toFixed(2)}] of each key. *)
Fixpoint categoryStats (byCategory : JS.object) (cats : list string)
    : Completion (list string) :=
  match cats with
  | [] => Normal []
  | cat :: rest =>
      match callToFixed (JS.Get byCategory cat) with
      | Throw e => Throw e
      | Normal text =>
          match categoryStats byCategory rest with
          | Throw e => Throw e
          | Normal stats => Normal ((cat ++ ": $" ++ text) :: stats)
          end
      end
  end.

(** The summary section: the text of the total, then those of the
    categories. *)
Definition summarySection (t : Main.Totals) : Completion (list string) :=
  let totalText :=
    "Total Spending: $" ++ NumberText.toFixed Number_toString (Main.total t) in
  match categoryStats (Main.byCategory t) (JS.keys (Main.byCategory t)) with
  | Throw e => Throw e
  | Normal stats => Normal (totalText :: stats)
  end.

(** The text of the category [k] of a list whose amounts under [k] add
    up to a number. *)
Definition statText (l : list Expense) (k : string) : string :=
  k ++ ": $" ++ NumberText.toFixed Number_toString (categoryTotal k l).

(** The label of the button of the form. *)
Definition saveLabel (s : Main.State) : string :=
  match Main.editing (Main.st_editingId s) with
  | Some _ => "Update Expense"
  | None => "Add Expense"
  end.

(** [visibleExpenses] of a rendering at the instant [now]. *)
Definition visibleExpenses (s : Main.State) (now : Z) : list Expense :=
  Main.getFilteredExpenses LocalTZA Date_parse (Main.st_filter s) (Main.st_expenses s) now.

(** The events of the screen: text typed into the three inputs, the
    button of the form, the three filter buttons, the Edit link of a
    card, and the component being mounted anew. *)
Inductive Event :=
| ChangeAmount (text : string)
| ChangeCategory (text : string)
| ChangeNote (text : string)
| PressSave (now : Z)
| PressFilter (f : string)
| PressEdit (item : Expense)
| Mount.

Definition World : Type := Main.State * Main.Table.

(** The state and the table after an event, each handler running to
    its end, or to the error it throws, before the next event. *)
Definition handle (w : World) (e : Event) : World :=
  let '(s, t) := w in
  match e with
  | ChangeAmount text =>
      (Main.mkState (Main.st_expenses s) text (Main.st_category s) (Main.st_note s)
                    (Main.st_filter s) (Main.st_editingId s), t)
  | ChangeCategory text =>
      (Main.mkState (Main.st_expenses s) (Main.st_amount s) text (Main.st_note s)
                    (Main.st_filter s) (Main.st_editingId s), t)
  | ChangeNote text =>
      (Main.mkState (Main.st_expenses s) (Main.st_amount s) (Main.st_category s) text
                    (Main.st_filter s) (Main.st_editingId s), t)
  | PressSave now =>
      match Main.saveExpense s t now with
      | Main.Fulfilled w' => w'
      | Main.Rejected _ => w
      end
  | PressFilter f =>
      (Main.mkState (Main.st_expenses s) (Main.st_amount s) (Main.st_category s)
                    (Main.st_note s) f (Main.st_editingId s), t)
  | PressEdit item => (fst (Main.handleEdit Number_toString s item), t)
  | Mount => Main.setup Main.initialState (Some t)
  end.

(** The events a rendering offers: the clock reads a time value of the
    range of Date, the filter buttons are those of
    [['All', 'Week', 'Month']], and the cards are those of
    [visibleExpenses] that [renderItem] has made. *)
Definition offered (w : World) (e : Event) : Prop :=
  match e with
  | PressSave now => Z.abs now <= maxTime
  | PressFilter f => In f ["All"; "Week"; "Month"]
  | PressEdit item =>
      (exists now, In item (visibleExpenses (fst w) now)) /\
      (exists card, renderItem item = Normal card)
  | _ => True
  end.

(** The worlds the screen gets to, from a database without the table.
    A rendering that throws offers no event but the next mount: the
    worlds below include those the screen gets to, and what holds of all
    of them holds of these. *)
Inductive reachable : World -> Prop :=
| reachable_start : reachable (Main.setup Main.initialState None)
| reachable_step w e : reachable w -> offered w e -> reachable (handle w e).

End Component.

(** What holds of the state and the table together. *)
Record consistent (w : World) : Prop := mkConsistent {
  filter_known : In (Main.st_filter (fst w)) ["All"; "Week"; "Month"];
  list_loaded : Main.st_expenses (fst w) = Main.sqlSelectAll (snd w);
  ids_distinct : NoDup (map id (Main.rows (snd w)));
  lastId_counts : 0 <= Main.lastId (snd w);
  ids_positive : Forall (fun r => 1 <= id r <= Main.lastId (snd w)) (Main.rows (snd w));
  categories_filled : Forall (fun r => category r <> "") (Main.rows (snd w));
  dates_stamped :
    Forall (fun r => exists now, Z.abs now <= maxTime /\ date r = toISOString now)
           (Main.rows (snd w));
  editing_stored :
    match Main.st_editingId (fst w) with
    | None => True
    | Some i => In i (map id (Main.rows (snd w)))
    end
}.

End Screen.

(** ** Words for the properties of the screen *)

(** Rows in the order of [ORDER BY id DESC]. *)
Definition descending (a b : Expense) : Prop := id b <= id a.

(** An amount as the REAL column gives it back: [null], or a number
    that the column holds as it is (any but NaN and the negative
    zero). *)
Definition held (a : option number) : Prop :=
  match a with
  | None => True
  | Some x => Main.realColumn x = Some x
  end.

(** A label that [byCategory] keeps: any but [__proto__], whose setter
    drops the value.  A label under which it keeps a text and not a
    number: the name of another property of [Object.prototype]. *)
Definition stored (k : string) : bool := negb (k =? "__proto__")%string.

Definition textLabel (k : string) : bool := inheritedName k && stored k.

(** What [byCategory] holds under a label of the list. *)
Definition categoryValue (k : string) (l : list Expense) : JS.value :=
  if inheritedName k
  then JS.Str (JS.OfBuiltin k
               :: flat_map (fun ex => JS.ToString (JS.ofColumn (item_amount ex)))
                           (withCategory k l))
  else JS.Num (categoryTotal k l).

(** The order of two array indices. *)
Definition indexOrder (a b : string) : Prop :=
  exists i j, JS.arrayIndex a = Some i /\ JS.arrayIndex b = Some j /\ (i <= j)%N.

(** The text of an amount of [c] hundredths, [c] not negative. *)
Definition centsText (c : Z) : string :=
  (NumberText.decimal (Z.to_N (c / 100)) ++ "." ++ padded 2 (c mod 100))%string.

(** The number [a] stands for the price of [c] hundredths: it is finite
    and within a relative 2^-52 of [c / 100], as the number nearest to
    [c / 100] is. *)
Definition nearCents (a : number) (c : Z) : Prop :=
  finiteNumber a = true /\
  2 ^ 52 * Z.abs (100 * units a - c * currencyUnit) <= Z.abs c * currencyUnit.

(** Amounts that stand for hundredths, none negative. *)
Definition prices (c : Expense -> Z) (l : list Expense) : Prop :=
  Forall (fun ex => nearCents (amount ex) (c ex) /\ 0 <= c ex) l.

(** An amount as it may be typed: the digits of [m], the last [k] of
    them after a point. *)
Definition amountText (m : N) (k : nat) : string :=
  match k with
  | O => NumberText.decimal m
  | _ => (NumberText.decimal (m / 10 ^ N.of_nat k) ++ "." ++ padded k (Z.of_N m))%string
  end.

(** A character that can continue a decimal literal after its digits. *)
Definition continues (c : ascii) : bool :=
  match JS.digit c with
  | Some _ => true
  | None => (Ascii.eqb c "." || Ascii.eqb c "e" || Ascii.eqb c "E")%bool
  end.

(** The character of a decimal digit. *)
Definition digitOf (d : Z) : ascii := ascii_of_N (Z.to_N (48 + d)).

(** Where a run of digits stops. *)
Definition stops (rest : string) : Prop :=
  match rest with
  | EmptyString => True
  | String c _ => JS.digit c = None
  end.

(** A number of [k] digits. *)
Definition hasDigits (s : N) (k : Z) : Prop :=
  1 <= k /\ Z.of_N s < 10 ^ k /\ (k = 1 \/ 10 ^ (k - 1) <= Z.of_N s).

(** A number with its sign set. *)
Definition withSign (neg : bool) (x : number) : number :=
  match x with
  | S754_zero _ => S754_zero neg
  | S754_infinity _ => S754_infinity neg
  | S754_finite _ m e => S754_finite neg m e
  | S754_nan => S754_nan
  end.

(** What may follow the digits of a literal: nothing, or an exponent. *)
Definition exponentPart (tail : string) (ex : Z) : Prop :=
  (tail = ""%string /\ ex = 0) \/ tail = ("e" ++ NumberText.exponentText ex)%string.

(** ** Sample worlds *)

(** A world the screen gets to: an expense of 5 saved on a Wednesday
    noon, and the world after Edit on its card.  The engine's text of a
    number is needed for the amount 5 only. *)
Definition sampleText : number -> string := fun _ => "5"%string.

Definition savedWorld : Screen.World :=
  Screen.handle sampleText
    (Screen.handle sampleText
       (Screen.handle sampleText (Main.setup Main.initialState None)
          (Screen.ChangeAmount "5"))
       (Screen.ChangeCategory "Food"))
    (Screen.PressSave wednesdayNoon).

Definition savedItem : Expense :=
  mkExpense 1 (JS.ofZ 5) "Food" "" "2025-11-26T12:00:00.000Z".

Definition editingWorld : Screen.World :=
  Screen.handle sampleText savedWorld (Screen.PressEdit savedItem).

(** A world with three records, saved at noon on that Wednesday and on
    the two days after it; the same under the filter Week; and the world
    after Edit on the card of the second record and a new amount
    typed. *)
Definition threeWorld : Screen.World :=
  fold_left (Screen.handle sampleText)
    [ Screen.ChangeAmount "7.25"; Screen.ChangeCategory "Rent";
      Screen.PressSave (wednesdayNoon + msPerDay);
      Screen.ChangeAmount "12"; Screen.ChangeCategory "Food"; Screen.ChangeNote "dinner";
      Screen.PressSave (wednesdayNoon + 2 * msPerDay) ]
    savedWorld.

Definition weekWorld : Screen.World :=
  Screen.handle sampleText threeWorld (Screen.PressFilter "Week").

Definition secondItem : Expense :=
  mkExpense 2 (JS.parseFloat "7.25") "Rent" "" "2025-11-27T12:00:00.000Z".

Definition threeEditing : Screen.World :=
  fold_left (Screen.handle sampleText)
    [ Screen.PressEdit secondItem; Screen.ChangeAmount "8" ]
    threeWorld.

(** The world after a fourth save, of an amount that is no number. *)
Definition unreadableWorld : Screen.World :=
  fold_left (Screen.handle sampleText)
    [ Screen.ChangeAmount "abc"; Screen.ChangeCategory "Misc";
      Screen.PressSave (wednesdayNoon + 3 * msPerDay) ]
    threeWorld.

(** * Properties *)

(** ** The calendar *)

Module DateFacts.

Ltac zdiv := unfold DayFromYear, DaysInYear, Day, TimeWithinDay, msPerDay in *;
  Z.div_mod_to_equations; lia.

Lemma DayFromYear_succ (y : Z) : DayFromYear (y + 1) = DayFromYear y + DaysInYear y.
Proof.
  unfold DaysInYear.
  destruct (Z.eqb_spec (y mod 4) 0), (Z.eqb_spec (y mod 100) 0),
    (Z.eqb_spec (y mod 400) 0); cbn [negb]; zdiv.
Qed.

Lemma DaysInYear_cases (y : Z) : DaysInYear y = 365 \/ DaysInYear y = 366.
Proof.
  unfold DaysInYear.
  destruct (y mod 4 =? 0), (y mod 100 =? 0), (y mod 400 =? 0); cbn; auto.
Qed.

Lemma YearFromTime_spec (t : Z) :
  DayFromYear (YearFromTime t) <= Day t < DayFromYear (YearFromTime t + 1).
Proof.
  unfold YearFromTime.
  set (d := Day t). set (y0 := 1970 + 400 * d / 146097).
  assert (Hy0 : 146097 * (y0 - 1970) <= 400 * d < 146097 * (y0 - 1969))
    by (subst y0; Z.div_mod_to_equations; lia).
  assert (Hlo : DayFromYear (y0 - 1) <= d) by (clearbody d y0; zdiv).
  assert (Hhi : d < DayFromYear (y0 + 2)) by (clearbody d y0; zdiv).
  destruct (Z.leb_spec (DayFromYear (y0 + 1)) d).
  - replace (y0 + 1 + 1) with (y0 + 2) by lia. lia.
  - destruct (Z.leb_spec (DayFromYear y0) d).
    + lia.
    + replace (y0 - 1 + 1) with y0 by lia. lia.
Qed.

Lemma DayFromYear_lt (y1 y2 : Z) : y1 < y2 -> DayFromYear y1 < DayFromYear y2.
Proof. intros H. zdiv. Qed.

Lemma YearFromTime_unique (t y : Z) :
  DayFromYear y <= Day t < DayFromYear (y + 1) -> YearFromTime t = y.
Proof.
  intros H. pose proof (YearFromTime_spec t) as S.
  destruct (Z.lt_trichotomy (YearFromTime t) y) as [L | [E | G]]; [ | exact E | ].
  - assert (YearFromTime t + 1 = y \/ YearFromTime t + 1 < y) as [E | L'] by lia.
    + rewrite E in S. lia.
    + pose proof (DayFromYear_lt _ _ L'). lia.
  - assert (y + 1 = YearFromTime t \/ y + 1 < YearFromTime t) as [E | G'] by lia.
    + rewrite E in H. lia.
    + pose proof (DayFromYear_lt _ _ G'). lia.
Qed.

Lemma leapDays_cases (y : Z) : leapDays y = 0 \/ leapDays y = 1.
Proof. unfold leapDays. destruct (DaysInYear_cases y); lia. Qed.

Lemma monthOfDay_range (d leap : Z) : 0 <= monthOfDay d leap <= 11.
Proof.
  unfold monthOfDay.
  repeat match goal with |- context [if ?c then _ else _] => destruct c end; lia.
Qed.

Lemma monthStart_le (d leap : Z) :
  0 <= d -> monthStart (monthOfDay d leap) leap <= d.
Proof.
  intros H. unfold monthOfDay.
  repeat match goal with
         | |- context [if ?a <? ?b then _ else _] => destruct (Z.ltb_spec a b)
         end; cbn [monthStart]; lia.
Qed.

Lemma monthOfDay_start (m leap : Z) :
  0 <= m <= 11 -> leap = 0 \/ leap = 1 -> monthOfDay (monthStart m leap) leap = m.
Proof.
  intros Hm Hl.
  assert (m = 0 \/ m = 1 \/ m = 2 \/ m = 3 \/ m = 4 \/ m = 5 \/ m = 6 \/ m = 7
          \/ m = 8 \/ m = 9 \/ m = 10 \/ m = 11) as Hc by lia.
  destruct Hl; subst leap;
    repeat (destruct Hc as [Hc | Hc]; [subst m; reflexivity | ]); subst m; reflexivity.
Qed.

Lemma MonthFromTime_range (t : Z) : 0 <= MonthFromTime t <= 11.
Proof. apply monthOfDay_range. Qed.

Lemma DateFromTime_pos (t : Z) : 1 <= DateFromTime t.
Proof.
  unfold DateFromTime, MonthFromTime.
  assert (0 <= DayWithinYear t)
    by (unfold DayWithinYear; pose proof (YearFromTime_spec t); lia).
  pose proof (monthStart_le (DayWithinYear t) (InLeapYear t)). lia.
Qed.

Lemma DateFromTime_le (t : Z) : DateFromTime t <= 31.
Proof.
  unfold DateFromTime, MonthFromTime.
  assert (H : 0 <= DayWithinYear t < 365 + InLeapYear t).
  { unfold DayWithinYear, InLeapYear, leapDays.
    pose proof (YearFromTime_spec t) as S. rewrite DayFromYear_succ in S. lia. }
  pose proof (leapDays_cases (YearFromTime t)) as L. fold (InLeapYear t) in L.
  revert H. generalize (DayWithinYear t) (InLeapYear t) L. clear. intros d leap L H.
  unfold monthOfDay.
  repeat match goal with
         | |- context [if ?a <? ?b then _ else _] => destruct (Z.ltb_spec a b)
         end; cbn [monthStart]; lia.
Qed.

(** [setDate] and the three-argument constructor rebuild the day number
    from the year and the month of a time value. *)
Lemma MakeDay_YearMonth (t dt : Z) :
  MakeDay (YearFromTime t) (MonthFromTime t) dt = Day t - DateFromTime t + dt.
Proof.
  pose proof (MonthFromTime_range t) as R.
  unfold MakeDay.
  rewrite (Z.div_small (MonthFromTime t) 12), (Z.mod_small (MonthFromTime t) 12) by lia.
  rewrite Z.add_0_r.
  unfold DateFromTime, DayWithinYear, InLeapYear. lia.
Qed.

Lemma Day_MakeDate (d r : Z) : 0 <= r < msPerDay -> Day (MakeDate d r) = d.
Proof. unfold MakeDate. intros H. zdiv. Qed.

Lemma TimeWithinDay_range (t : Z) : 0 <= TimeWithinDay t < msPerDay.
Proof. zdiv. Qed.

Lemma Day_TimeWithinDay (t : Z) : t = MakeDate (Day t) (TimeWithinDay t).
Proof. unfold MakeDate. zdiv. Qed.

(** The first day of the month of [t], as a day number. *)
Lemma first_of_month (t : Z) :
  let b := MakeDate (Day t - (DateFromTime t - 1)) 0 in
  YearFromTime b = YearFromTime t /\ MonthFromTime b = MonthFromTime t /\
  DateFromTime b = 1 /\ TimeWithinDay b = 0 /\ b <= t.
Proof.
  intros b.
  assert (Hd : Day b = DayFromYear (YearFromTime t)
                       + monthStart (MonthFromTime t) (InLeapYear t)).
  { unfold b. rewrite Day_MakeDate by (unfold msPerDay; lia).
    unfold DateFromTime, DayWithinYear. lia. }
  pose proof (MonthFromTime_range t) as Rm.
  pose proof (leapDays_cases (YearFromTime t)) as Rl. fold (InLeapYear t) in Rl.
  assert (Hs : 0 <= monthStart (MonthFromTime t) (InLeapYear t) <= 335).
  { assert (MonthFromTime t = 0 \/ MonthFromTime t = 1 \/ MonthFromTime t = 2
            \/ MonthFromTime t = 3 \/ MonthFromTime t = 4 \/ MonthFromTime t = 5
            \/ MonthFromTime t = 6 \/ MonthFromTime t = 7 \/ MonthFromTime t = 8
            \/ MonthFromTime t = 9 \/ MonthFromTime t = 10 \/ MonthFromTime t = 11)
      as Hc by lia.
    repeat (destruct Hc as [Hc | Hc]; [rewrite Hc; cbn [monthStart]; lia | ]).
    rewrite Hc; cbn [monthStart]; lia. }
  assert (Hy : YearFromTime b = YearFromTime t).
  { apply YearFromTime_unique. rewrite Hd, DayFromYear_succ.
    pose proof (DaysInYear_cases (YearFromTime t)). lia. }
  assert (Hw : DayWithinYear b = monthStart (MonthFromTime t) (InLeapYear t))
    by (unfold DayWithinYear; rewrite Hy, Hd; lia).
  assert (Hl : InLeapYear b = InLeapYear t) by (unfold InLeapYear; now rewrite Hy).
  assert (Hm : MonthFromTime b = MonthFromTime t).
  { unfold MonthFromTime at 1. rewrite Hw, Hl. now apply monthOfDay_start. }
  repeat split; trivial.
  - unfold DateFromTime. rewrite Hw, Hm, Hl. lia.
  - unfold b, MakeDate. zdiv.
  - pose proof (DateFromTime_pos t). unfold b, MakeDate.
    pose proof (Day_TimeWithinDay t) as E. unfold MakeDate in E.
    pose proof (TimeWithinDay_range t). unfold msPerDay in *. lia.
Qed.

(** The Sunday that begins the week of [t]. *)
Lemma first_of_week (t : Z) :
  let b := MakeDate (Day t - WeekDay t) 0 in
  WeekDay b = 0 /\ TimeWithinDay b = 0 /\ b <= t < b + 7 * msPerDay.
Proof.
  intros b. unfold b, WeekDay, MakeDate. zdiv.
Qed.

End DateFacts.

Example calendar_2025_11_23 :
  let t := 1763856000000 in
  (YearFromTime t, MonthFromTime t, DateFromTime t, WeekDay t, TimeWithinDay t)
  = (2025, 10, 23, 0, 0).
Proof. reflexivity. Qed.

Example calendar_leap_day :
  let t := 951782400000 + 1 in
  (YearFromTime t, MonthFromTime t, DateFromTime t, WeekDay t) = (2000, 1, 29, 2).
Proof. reflexivity. Qed.

Example calendar_before_epoch :
  let t := -1 in
  (YearFromTime t, MonthFromTime t, DateFromTime t, WeekDay t) = (1969, 11, 31, 3).
Proof. reflexivity. Qed.


(** ** Numbers: additions that do not round *)

Module NumberFacts.

Lemma fexp_eq (e : Z) : fexp JS.prec JS.emax e = Z.max (e - 53) (-1074).
Proof. reflexivity. Qed.

Lemma iter_pos_iter {A : Type} (f : A -> A) (p : positive) (x : A) :
  iter_pos f p x = Pos.iter f x p.
Proof.
  revert x. induction p as [p IH | p IH |]; intros x; cbn.
  - rewrite !IH. now rewrite <- !Pos.iter_swap.
  - now rewrite !IH.
  - reflexivity.
Qed.

Lemma iter_xO (m d : positive) : Zpos (Pos.iter xO m d) = Zpos m * 2 ^ Zpos d.
Proof.
  induction d as [| d IH] using Pos.peano_ind.
  - cbn. lia.
  - rewrite Pos.iter_succ, Pos2Z.inj_xO, IH, Pos2Z.inj_succ, Z.pow_succ_r by lia. lia.
Qed.

Lemma digits_xO (m d : positive) :
  Zpos (digits2_pos (Pos.iter xO m d)) = Zpos (digits2_pos m) + Zpos d.
Proof.
  induction d as [| d IH] using Pos.peano_ind.
  - cbn. lia.
  - rewrite Pos.iter_succ. cbn [digits2_pos]. rewrite Pos2Z.inj_succ, IH. lia.
Qed.

Lemma digits_bounds (p : positive) :
  2 ^ (Zpos (digits2_pos p) - 1) <= Zpos p < 2 ^ Zpos (digits2_pos p).
Proof.
  induction p as [p IH | p IH |]; cbn [digits2_pos].
  - rewrite Pos2Z.inj_succ, Z.pow_succ_r by lia.
    replace (Z.succ (Zpos (digits2_pos p)) - 1) with (Z.succ (Zpos (digits2_pos p) - 1)) by lia.
    rewrite Z.pow_succ_r by lia. lia.
  - rewrite Pos2Z.inj_succ, Z.pow_succ_r by lia.
    replace (Z.succ (Zpos (digits2_pos p)) - 1) with (Z.succ (Zpos (digits2_pos p) - 1)) by lia.
    rewrite Z.pow_succ_r by lia. lia.
  - cbn. lia.
Qed.

(** Shifting out [d] zero bits loses nothing. *)
Lemma shr_exact (m d : positive) :
  iter_pos shr_1 d {| shr_m := Zpos (Pos.iter xO m d); shr_r := false; shr_s := false |}
  = {| shr_m := Zpos m; shr_r := false; shr_s := false |}.
Proof.
  rewrite iter_pos_iter.
  induction d as [| d IH] using Pos.peano_ind.
  - reflexivity.
  - rewrite Pos.iter_succ_r. rewrite Pos.iter_succ. cbn [shr_1 orb]. exact IH.
Qed.

(** A mantissa and exponent in canonical form are left as they are. *)
Lemma binary_round_aux_canonical (s : bool) (m : positive) (e : Z) :
  bounded JS.prec JS.emax m e = true ->
  binary_round_aux JS.prec JS.emax s (Zpos m) e loc_Exact = S754_finite s m e.
Proof.
  unfold bounded, canonical_mantissa. intros H.
  apply andb_prop in H as [Hc Hb]. apply Z.eqb_eq in Hc.
  unfold binary_round_aux, shr_fexp. cbn [Zdigits2 shr_record_of_loc].
  rewrite Hc, Z.sub_diag. cbn [shr shr_m loc_of_shr_record round_nearest_even Zdigits2].
  rewrite Hc, Z.sub_diag. cbn [shr shr_m]. now rewrite Hb.
Qed.

(** Rounding [M * 2^e] gives back the canonical form of its value, when
    the value has one. *)
Lemma binary_round_exact (s : bool) (M mz : positive) (e ez b : Z) :
  b <= e -> b <= ez ->
  Zpos M * 2 ^ (e - b) = Zpos mz * 2 ^ (ez - b) ->
  bounded JS.prec JS.emax mz ez = true ->
  binary_round JS.prec JS.emax s M e = S754_finite s mz ez.
Proof.
  intros Hbe Hbz Hv Hbd.
  assert (Hc : fexp JS.prec JS.emax (Zpos (digits2_pos mz) + ez) = ez).
  { unfold bounded, canonical_mantissa in Hbd. apply andb_prop in Hbd as [Hc _].
    now apply Z.eqb_eq in Hc. }
  destruct (Z.lt_trichotomy e ez) as [L | [E | G]].
  - (* the canonical exponent is larger: zero bits are shifted out *)
    assert (HM : M = Pos.iter xO mz (Z.to_pos (ez - e))).
    { apply Pos2Z.inj. rewrite iter_xO, Z2Pos.id by lia.
      replace (ez - b) with ((ez - e) + (e - b)) in Hv by lia.
      rewrite Z.pow_add_r in Hv by lia.
      apply Z.mul_cancel_r with (p := 2 ^ (e - b)); [ | lia].
      apply Z.pow_nonzero; lia. }
    assert (Hd : Zpos (digits2_pos M) + e = Zpos (digits2_pos mz) + ez).
    { rewrite HM, digits_xO, Z2Pos.id by lia. lia. }
    unfold binary_round. rewrite Hd, Hc. unfold shl_align.
    destruct (ez - e) as [| d | d] eqn:Ed; try lia.
    unfold binary_round_aux, shr_fexp. cbn [Zdigits2 shr_record_of_loc].
    rewrite Hd, Hc, Ed. cbn [shr]. cbn [Z.to_pos] in HM. rewrite HM, shr_exact.
    cbn [shr_m loc_of_shr_record round_nearest_even Zdigits2].
    replace (e + Zpos d) with ez by lia.
    rewrite Hc, Z.sub_diag. cbn [shr shr_m].
    unfold bounded in Hbd. apply andb_prop in Hbd as [_ Hb]. now rewrite Hb.
  - subst ez. assert (M = mz).
    { apply Pos2Z.inj. apply Z.mul_cancel_r with (p := 2 ^ (e - b)); [ | lia].
      apply Z.pow_nonzero; lia. }
    subst mz. unfold binary_round. rewrite Hc. unfold shl_align. rewrite Z.sub_diag.
    now apply binary_round_aux_canonical.
  - assert (HM : mz = Pos.iter xO M (Z.to_pos (e - ez))).
    { apply Pos2Z.inj. rewrite iter_xO, Z2Pos.id by lia.
      replace (e - b) with ((e - ez) + (ez - b)) in Hv by lia.
      rewrite Z.pow_add_r in Hv by lia.
      apply Z.mul_cancel_r with (p := 2 ^ (ez - b)); [ | lia].
      apply Z.pow_nonzero; lia. }
    assert (Hd : Zpos (digits2_pos M) + e = Zpos (digits2_pos mz) + ez).
    { rewrite HM, digits_xO, Z2Pos.id by lia. lia. }
    unfold binary_round. rewrite Hd, Hc. unfold shl_align.
    destruct (ez - e) as [| d | d] eqn:Ed; try lia.
    replace (Z.to_pos (e - ez)) with d in HM by lia.
    rewrite <- HM. now apply binary_round_aux_canonical.
Qed.

Lemma shl_align_value (m : positive) (e ez : Z) :
  ez <= e -> Zpos (fst (shl_align m e ez)) = Zpos m * 2 ^ (e - ez).
Proof.
  intros H. unfold shl_align.
  destruct (ez - e) as [| d | d] eqn:E; try lia; cbn [fst].
  - replace (e - ez) with 0 by lia. cbn. lia.
  - rewrite iter_xO. f_equal. f_equal. lia.
Qed.

(** The canonical form of a positive integer below 2^53. *)
Lemma binary_round_integer (s : bool) (p : positive) :
  Zpos p < 2 ^ 53 ->
  exists m e,
    binary_round JS.prec JS.emax s p 0 = S754_finite s m e /\
    bounded JS.prec JS.emax m e = true /\ -52 <= e /\
    Zpos m * 2 ^ (e + 52) = Zpos p * 2 ^ 52.
Proof.
  intros Hp. pose proof (digits_bounds p) as Hd.
  set (d := Zpos (digits2_pos p)) in *.
  assert (Hd53 : 1 <= d <= 53).
  { split; [unfold d; lia | ].
    destruct (Z_le_gt_dec d 53) as [L | G]; [exact L | exfalso].
    assert (2 ^ 53 <= 2 ^ (d - 1)) by (apply Z.pow_le_mono_r; lia). lia. }
  assert (Hm : exists m, Zpos m = Zpos p * 2 ^ (53 - d) /\ Zpos (digits2_pos m) = 53).
  { destruct (Z.eq_dec d 53) as [E | N].
    - exists p. rewrite E. cbn. split; [lia | exact E].
    - exists (Pos.iter xO p (Z.to_pos (53 - d))).
      rewrite iter_xO, digits_xO, Z2Pos.id by lia. fold d. split; [reflexivity | lia]. }
  destruct Hm as (m & Hmv & Hmd).
  assert (Hb : bounded JS.prec JS.emax m (d - 53) = true).
  { unfold bounded, canonical_mantissa. rewrite Hmd, fexp_eq.
    apply andb_true_intro. split; [apply Z.eqb_eq; lia | apply Z.leb_le; unfold JS.emax, JS.prec; lia]. }
  exists m, (d - 53). repeat split; try lia; trivial.
  - apply binary_round_exact with (b := -52); trivial; try lia.
    rewrite Hmv, <- Z.mul_assoc, <- Z.pow_add_r by lia. f_equal. f_equal. lia.
  - rewrite Hmv, <- Z.mul_assoc, <- Z.pow_add_r by lia. f_equal. f_equal. lia.
Qed.

Lemma ofZ_repr (z : Z) :
  z <> 0 -> Z.abs z < 2 ^ 53 ->
  exists m e,
    JS.ofZ z = S754_finite (z <? 0) m e /\
    bounded JS.prec JS.emax m e = true /\ -52 <= e /\
    cond_Zopp (z <? 0) (Zpos m) * 2 ^ (e + 52) = z * 2 ^ 52.
Proof.
  intros Hz Hb. destruct z as [| p | p]; [congruence | | ].
  - destruct (binary_round_integer false p) as (m & e & H1 & H2 & H3 & H4); [lia | ].
    exists m, e. repeat split; trivial.
  - destruct (binary_round_integer true p) as (m & e & H1 & H2 & H3 & H4); [lia | ].
    exists m, e. repeat split; trivial. cbn [Z.ltb Z.compare cond_Zopp]. lia.
Qed.

(** Integers below 2^53 in magnitude add without rounding. *)
Lemma add_ofZ (a b : Z) :
  Z.abs a < 2 ^ 53 -> Z.abs b < 2 ^ 53 -> Z.abs (a + b) < 2 ^ 53 ->
  JS.add (JS.ofZ a) (JS.ofZ b) = JS.ofZ (a + b).
Proof.
  intros Ha Hb Hab.
  destruct (Z.eq_dec a 0) as [-> | Na].
  { destruct (Z.eq_dec b 0) as [-> | Nb]; [reflexivity | ].
    destruct (ofZ_repr b Nb Hb) as (m & e & E & _). cbn [Z.add]. rewrite E. reflexivity. }
  destruct (Z.eq_dec b 0) as [-> | Nb].
  { destruct (ofZ_repr a Na Ha) as (m & e & E & _). rewrite Z.add_0_r, E. reflexivity. }
  destruct (ofZ_repr a Na Ha) as (ma & ea & Ea & _ & Hea & Va).
  destruct (ofZ_repr b Nb Hb) as (mb & eb & Eb & _ & Heb & Vb).
  rewrite Ea, Eb. unfold JS.add. cbn [SFadd].
  set (ez := Z.min ea eb).
  assert (Hez : ez <= ea /\ ez <= eb /\ -52 <= ez) by (unfold ez; clear - Hea Heb; lia).
  clearbody ez.
  rewrite (shl_align_value ma ea ez), (shl_align_value mb eb ez) by lia.
  set (M := cond_Zopp (a <? 0) (Zpos ma * 2 ^ (ea - ez))
            + cond_Zopp (b <? 0) (Zpos mb * 2 ^ (eb - ez))).
  assert (HM : M * 2 ^ (ez + 52) = (a + b) * 2 ^ 52).
  { unfold M. rewrite Z.mul_add_distr_r, Z.mul_add_distr_r, <- Va, <- Vb.
    replace (ea + 52) with ((ea - ez) + (ez + 52)) by lia.
    replace (eb + 52) with ((eb - ez) + (ez + 52)) by lia.
    rewrite (Z.pow_add_r 2 (ea - ez) (ez + 52)), (Z.pow_add_r 2 (eb - ez) (ez + 52)) by lia.
    destruct (a <? 0), (b <? 0); cbn [cond_Zopp]; ring. }
  clearbody M.
  assert (Hpow : 0 < 2 ^ (ez + 52)) by (apply Z.pow_pos_nonneg; lia).
  destruct (Z.eq_dec (a + b) 0) as [Z0 | NZ].
  { rewrite Z0 in *. assert (M = 0) by nia. subst M. reflexivity. }
  destruct (ofZ_repr (a + b) NZ Hab) as (mz & ezz & Ez & Bz & Hezz & Vz).
  rewrite Ez.
  destruct M as [| pM | pM].
  - exfalso. nia.
  - assert (0 < a + b) by nia.
    replace (a + b <? 0) with false in * by (symmetry; apply Z.ltb_ge; lia).
    cbn [binary_normalize cond_Zopp] in *.
    apply binary_round_exact with (b := -52); trivial; try lia.
    replace (ez - -52) with (ez + 52) by lia.
    replace (ezz - -52) with (ezz + 52) by lia. lia.
  - assert (a + b < 0) by nia.
    replace (a + b <? 0) with true in * by (symmetry; apply Z.ltb_lt; lia).
    cbn [binary_normalize cond_Zopp] in *.
    apply binary_round_exact with (b := -52); trivial; try lia.
    replace (ez - -52) with (ez + 52) by lia.
    replace (ezz - -52) with (ezz + 52) by lia. lia.
Qed.
End NumberFacts.

(** ** Numbers: the error of an addition and of a running sum *)

Module RoundingFacts.
Import NumberFacts.

Lemma digits_unique (p : positive) (d : Z) :
  2 ^ (d - 1) <= Zpos p < 2 ^ d -> Zpos (digits2_pos p) = d.
Proof.
  intros H. pose proof (digits_bounds p) as B.
  set (d' := Zpos (digits2_pos p)) in *.
  assert (0 < d') by (unfold d'; lia).
  assert (0 < d).
  { destruct (Z_lt_le_dec 0 d); trivial.
    rewrite (Z.pow_neg_r 2 (d - 1)) in H by lia.
    assert (2 ^ d <= 1); [ | lia].
    destruct (Z.eq_dec d 0) as [-> | N]; [cbn; lia | ].
    rewrite Z.pow_neg_r by lia. lia. }
  destruct (Z.lt_trichotomy d d') as [L | [E | G]]; [ exfalso | exact (eq_sym E) | exfalso ].
  - assert (2 ^ d <= 2 ^ (d' - 1)) by (apply Z.pow_le_mono_r; lia). lia.
  - assert (2 ^ d' <= 2 ^ (d - 1)) by (apply Z.pow_le_mono_r; lia). lia.
Qed.

(** One step to the right: the mantissa is halved, its last bit is kept
    as the round bit, and the former round bit is kept in the sticky bit. *)
Lemma shr_1_spec (m : Z) (r s : bool) :
  0 <= m ->
  shr_1 {| shr_m := m; shr_r := r; shr_s := s |}
  = {| shr_m := m / 2; shr_r := Z.odd m; shr_s := r || s |}.
Proof.
  intros H. destruct m as [| p | p]; [reflexivity | | lia].
  destruct p as [p | p |]; cbn [shr_1 Z.odd].
  - f_equal. rewrite Pos2Z.inj_xI. apply Z.div_unique with (r := 1); lia.
  - f_equal. rewrite Pos2Z.inj_xO. apply Z.div_unique with (r := 0); lia.
  - reflexivity.
Qed.

(** The state after [n >= 1] steps to the right on [P]: the quotient by
    [2^n], and the place of the remainder with respect to the half. *)
Definition shifted (P n : Z) (mrs : shr_record) : Prop :=
  shr_m mrs = P / 2 ^ n /\
  exists t, 0 <= t < 2 ^ (n - 1) /\
    P mod 2 ^ n = (if shr_r mrs then 2 ^ (n - 1) else 0) + t /\
    (shr_s mrs = false <-> t = 0).

Lemma shifted_first (P : positive) :
  shifted (Zpos P) 1 (shr_1 {| shr_m := Zpos P; shr_r := false; shr_s := false |}).
Proof.
  rewrite shr_1_spec by lia. unfold shifted. cbn [shr_m shr_r shr_s orb].
  change (2 ^ 1) with 2. change (2 ^ (1 - 1)) with 1.
  split; [reflexivity | ]. exists 0. split; [lia | ]. split; [ | tauto].
  rewrite Z.add_0_r. rewrite Zmod_odd. destruct (Z.odd (Zpos P)); reflexivity.
Qed.

Lemma shifted_next (P n : Z) (mrs : shr_record) :
  0 <= P -> 1 <= n -> shifted P n mrs -> shifted P (n + 1) (shr_1 mrs).
Proof.
  intros HP Hn (Hm & t & Ht & HR & Hs). destruct mrs as [m r s].
  cbn [shr_m shr_r shr_s] in *.
  assert (Hp : 0 < 2 ^ n) by (apply Z.pow_pos_nonneg; lia).
  assert (Hh : 0 < 2 ^ (n - 1)) by (apply Z.pow_pos_nonneg; lia).
  assert (H2 : 2 ^ n = 2 * 2 ^ (n - 1)).
  { rewrite <- Z.pow_succ_r by lia. f_equal. lia. }
  assert (H3 : 2 ^ (n + 1) = 2 * 2 ^ n)
    by (replace (n + 1) with (Z.succ n) by lia; now rewrite Z.pow_succ_r by lia).
  assert (0 <= m) by (subst m; apply Z.div_pos; lia).
  rewrite shr_1_spec by trivial. unfold shifted. cbn [shr_m shr_r shr_s].
  replace (n + 1 - 1) with n by lia.
  pose proof (Z.div_mod P (2 ^ n) ltac:(lia)) as DP.
  pose proof (Z.mod_pos_bound P (2 ^ n) Hp) as BP.
  pose proof (Z.div_mod m 2 ltac:(lia)) as Dm.
  pose proof (Z.mod_pos_bound m 2 ltac:(lia)) as Bm.
  rewrite <- Hm in DP.
  assert (E : P = 2 ^ (n + 1) * (m / 2) + (m mod 2 * 2 ^ n + P mod 2 ^ n)) by nia.
  split.
  - apply Z.div_unique with (r := m mod 2 * 2 ^ n + P mod 2 ^ n); [nia | exact E].
  - exists (P mod 2 ^ n). split; [lia | ]. split.
    + rewrite <- (Z.mod_unique P (2 ^ (n + 1)) (m / 2) (m mod 2 * 2 ^ n + P mod 2 ^ n));
        [ | left; nia | exact E].
      rewrite Zmod_odd. destruct (Z.odd m); lia.
    + rewrite HR. destruct r, s; cbn [orb]; split; intros Q; try discriminate Q;
        try reflexivity; try lia.
Qed.

Lemma shifted_iter (P p : positive) :
  shifted (Zpos P) (Zpos p)
    (iter_pos shr_1 p {| shr_m := Zpos P; shr_r := false; shr_s := false |}).
Proof.
  rewrite iter_pos_iter.
  induction p as [| p IH] using Pos.peano_ind.
  - apply shifted_first.
  - rewrite Pos.iter_succ, Pos2Z.inj_succ. apply shifted_next; trivial; lia.
Qed.

(** Where the remainder of the shift stands. *)
Lemma shifted_loc (P n : Z) (mrs : shr_record) :
  1 <= n -> shifted P n mrs ->
  loc_of_shr_record mrs
  = if P mod 2 ^ n =? 0 then loc_Exact
    else loc_Inexact (P mod 2 ^ n ?= 2 ^ (n - 1)).
Proof.
  intros Hn (_ & t & Ht & HR & Hs). destruct mrs as [m r s].
  cbn [shr_r shr_s loc_of_shr_record] in *.
  assert (Hh : 0 < 2 ^ (n - 1)) by (apply Z.pow_pos_nonneg; lia).
  rewrite HR. destruct r, s.
  - assert (t <> 0) by (intros E; apply Hs in E; discriminate E).
    destruct (Z.eqb_spec (2 ^ (n - 1) + t) 0); [lia | ].
    now rewrite (proj2 (Z.compare_gt_iff _ _)) by lia.
  - assert (t = 0) by (now apply Hs). subst t. rewrite Z.add_0_r.
    destruct (Z.eqb_spec (2 ^ (n - 1)) 0); [lia | ]. now rewrite Z.compare_refl.
  - assert (t <> 0) by (intros E; apply Hs in E; discriminate E).
    destruct (Z.eqb_spec (0 + t) 0); [lia | ].
    now rewrite (proj2 (Z.compare_lt_iff _ _)) by lia.
  - assert (t = 0) by (now apply Hs). subst t. reflexivity.
Qed.

(** Rounding the shifted mantissa to nearest is off by half a unit at
    most. *)
Lemma round_nearest_even_error (P n : Z) :
  0 <= P -> 1 <= n ->
  let q := P / 2 ^ n in
  let R := P mod 2 ^ n in
  let l := if R =? 0 then loc_Exact else loc_Inexact (R ?= 2 ^ (n - 1)) in
  let m1 := round_nearest_even q l in
  q <= m1 <= q + 1 /\ 2 * Z.abs (m1 * 2 ^ n - P) <= 2 ^ n.
Proof.
  intros HP Hn q R l m1.
  assert (Hp : 0 < 2 ^ n) by (apply Z.pow_pos_nonneg; lia).
  assert (H2 : 2 ^ n = 2 * 2 ^ (n - 1)).
  { rewrite <- Z.pow_succ_r by lia. f_equal. lia. }
  pose proof (Z.div_mod P (2 ^ n) ltac:(lia)) as DP. fold q R in DP.
  pose proof (Z.mod_pos_bound P (2 ^ n) Hp) as BP. fold R in BP.
  unfold m1, l. destruct (Z.eqb_spec R 0) as [E | N]; cbn [round_nearest_even].
  - split; nia.
  - destruct (Z.compare_spec R (2 ^ (n - 1))) as [E | L | G].
    + destruct (Z.even q); split; nia.
    + split; nia.
    + split; nia.
Qed.

Lemma pow2_split (a b : Z) : 0 <= a -> 0 <= b -> 2 ^ (a + b) = 2 ^ a * 2 ^ b.
Proof. intros. now apply Z.pow_add_r. Qed.

(** The second stage of [binary_round_aux]: a rounded mantissa of 53
    bits is kept, and 2^53 is renormalised to 2^52. *)
Lemma round_renormalise (s : bool) (m1 f : Z) :
  2 ^ 52 <= m1 <= 2 ^ 53 -> -1074 <= f <= 970 ->
  exists m' e',
    (let '(mrs, e) := shr_fexp JS.prec JS.emax m1 f loc_Exact in
     match shr_m mrs with
     | Z0 => S754_zero s
     | Zpos m => if e <=? JS.emax - JS.prec then S754_finite s m e else S754_infinity s
     | Zneg _ => S754_nan
     end) = S754_finite s m' e' /\
    bounded JS.prec JS.emax m' e' = true /\
    Zpos m' * 2 ^ (e' + 1074) = m1 * 2 ^ (f + 1074).
Proof.
  intros Hm Hf. destruct m1 as [| p1 | p1]; try (cbn in Hm; lia).
  destruct (Z.eq_dec (Zpos p1) (2 ^ 53)) as [E | N].
  - injection E as ->. exists 4503599627370496%positive, (f + 1).
    unfold shr_fexp. cbn [Zdigits2 digits2_pos Pos.succ]. rewrite fexp_eq.
    replace (Z.max (54 + f - 53) (-1074) - f) with 1 by lia.
    cbn [shr shr_record_of_loc iter_pos shr_1 shr_m].
    replace (f + 1 <=? JS.emax - JS.prec) with true
      by (symmetry; apply Z.leb_le; unfold JS.emax, JS.prec; lia).
    split; [reflexivity | ]. split.
    + unfold bounded, canonical_mantissa. cbn [digits2_pos Pos.succ]. rewrite fexp_eq.
      apply andb_true_intro. split; [apply Z.eqb_eq; lia | ].
      apply Z.leb_le. unfold JS.emax, JS.prec. lia.
    + replace (f + 1 + 1074) with (Z.succ (f + 1074)) by lia.
      rewrite Z.pow_succ_r by lia. lia.
  - assert (Hd : Zpos (digits2_pos p1) = 53) by (apply digits_unique; cbn in *; lia).
    exists p1, f. unfold shr_fexp. cbn [Zdigits2]. rewrite Hd, fexp_eq.
    replace (Z.max (53 + f - 53) (-1074) - f) with 0 by lia.
    cbn [shr shr_record_of_loc shr_m].
    replace (f <=? JS.emax - JS.prec) with true
      by (symmetry; apply Z.leb_le; unfold JS.emax, JS.prec; lia).
    split; [reflexivity | ]. split; [ | reflexivity].
    unfold bounded, canonical_mantissa. rewrite Hd, fexp_eq.
    apply andb_true_intro. split; [apply Z.eqb_eq; lia | ].
    apply Z.leb_le. unfold JS.emax, JS.prec. lia.
Qed.

(** Rounding [P * 2^e], short of overflow: a finite number in canonical
    form, within a relative error of 2^-53.  Values are in units of
    2^-1074. *)
Lemma binary_round_error (s : bool) (P : positive) (e : Z) :
  -1074 <= e -> Zpos P * 2 ^ (e + 1074) < 2 * maxUnits ->
  exists m' e',
    binary_round JS.prec JS.emax s P e = S754_finite s m' e' /\
    bounded JS.prec JS.emax m' e' = true /\
    2 ^ 53 * Z.abs (Zpos m' * 2 ^ (e' + 1074) - Zpos P * 2 ^ (e + 1074))
    <= Zpos P * 2 ^ (e + 1074).
Proof.
  intros He HV. pose proof (digits_bounds P) as HD.
  set (d := Zpos (digits2_pos P)) in *.
  assert (Hd1 : 1 <= d) by (unfold d; lia).
  assert (Hpe : 0 < 2 ^ (e + 1074)) by (apply Z.pow_pos_nonneg; lia).
  (* the value is below 2^1023: d + e <= 1023 *)
  assert (Hde : d + e <= 1023).
  { destruct (Z_le_gt_dec (d + e) 1023) as [L | G]; [exact L | exfalso].
    assert (2 * maxUnits <= 2 ^ (d - 1) * 2 ^ (e + 1074)).
    { change (2 * maxUnits) with (2 ^ 2097).
      rewrite <- pow2_split by lia. apply Z.pow_le_mono_r; lia. }
    nia. }
  clear HV.
  destruct (Z_le_gt_dec d 53) as [Hle | Hgt].
  - (* at most 53 bits: nothing is lost *)
    set (f := Z.max (d + e - 53) (-1074)).
    assert (Hf : -1074 <= f <= e /\ f <= 970) by (unfold f; lia).
    assert (Hm : exists mz, Zpos mz = Zpos P * 2 ^ (e - f)
                            /\ Zpos (digits2_pos mz) = d + (e - f)).
    { destruct (Z.eq_dec e f) as [E | N].
      - exists P. rewrite E, Z.sub_diag. cbn [Z.pow]. fold d. split; lia.
      - exists (Pos.iter xO P (Z.to_pos (e - f))).
        rewrite iter_xO, digits_xO, Z2Pos.id by lia. fold d. split; reflexivity. }
    destruct Hm as (mz & Hmv & Hmd).
    assert (Hb : bounded JS.prec JS.emax mz f = true).
    { unfold bounded, canonical_mantissa. rewrite Hmd, fexp_eq.
      apply andb_true_intro. split; [apply Z.eqb_eq; unfold f; lia | ].
      apply Z.leb_le. unfold JS.emax, JS.prec. lia. }
    exists mz, f. split; [ | split; [exact Hb | ]].
    + apply binary_round_exact with (b := -1074); trivial; try lia.
      rewrite Hmv, <- Z.mul_assoc, <- pow2_split by lia. f_equal. f_equal. lia.
    + rewrite Hmv, <- Z.mul_assoc, <- pow2_split by lia.
      replace (e - f + (f + 1074)) with (e + 1074) by lia.
      rewrite Z.sub_diag. cbn [Z.abs]. lia.
  - (* more than 53 bits: n bits are shifted out and rounded *)
    set (n := d - 53). assert (Hn : 1 <= n) by (unfold n; lia).
    set (f := e + n).
    assert (Hfe : fexp JS.prec JS.emax (d + e) = f) by (rewrite fexp_eq; unfold f, n; lia).
    assert (Hpn : 0 < 2 ^ n) by (apply Z.pow_pos_nonneg; lia).
    set (q := Zpos P / 2 ^ n). set (R := Zpos P mod 2 ^ n).
    set (l := if R =? 0 then loc_Exact else loc_Inexact (R ?= 2 ^ (n - 1))).
    set (m1 := round_nearest_even q l).
    destruct (round_nearest_even_error (Zpos P) n ltac:(lia) Hn) as [Hq Herr].
    fold q R l m1 in Hq, Herr.
    assert (HP : 2 ^ 52 * 2 ^ n <= Zpos P < 2 ^ 53 * 2 ^ n).
    { rewrite <- !pow2_split by lia. replace (52 + n) with (d - 1) by (unfold n; lia).
      replace (53 + n) with d by (unfold n; lia). exact HD. }
    assert (Hq52 : 2 ^ 52 <= q < 2 ^ 53).
    { unfold q. split; [apply Z.div_le_lower_bound; lia | ].
      apply Z.div_lt_upper_bound; lia. }
    assert (Hf : -1074 <= f <= 970).
    { split; [unfold f; lia | ]. unfold f, n. lia. }
    destruct (round_renormalise s m1 f ltac:(lia) Hf) as (m' & e' & Hr & Hb & Hv).
    exists m', e'. split; [ | split; [exact Hb | ]].
    + unfold binary_round. fold d. rewrite Hfe. unfold shl_align.
      replace (f - e) with n by (unfold f; lia).
      destruct n as [| np | np] eqn:En; try lia.
      unfold binary_round_aux. unfold shr_fexp at 1. cbn [Zdigits2]. fold d.
      rewrite Hfe. replace (f - e) with (Zpos np) by (unfold f; lia).
      cbn [shr shr_record_of_loc].
      pose proof (shifted_iter P np) as Hs.
      pose proof (shifted_loc (Zpos P) (Zpos np) _ ltac:(lia) Hs) as Hl.
      destruct Hs as [Hsm _]. rewrite Hl, Hsm. fold q R l. fold m1.
      replace (e + Zpos np) with f by (unfold f; lia). exact Hr.
    + rewrite Hv.
      replace (f + 1074) with (n + (e + 1074)) by (unfold f; lia).
      rewrite pow2_split, Z.mul_assoc, <- Z.mul_sub_distr_r by lia.
      rewrite Z.abs_mul, (Z.abs_eq (2 ^ (e + 1074))) by lia.
      assert (2 ^ 53 * Z.abs (m1 * 2 ^ n - Zpos P) <= Zpos P); [ | nia].
      assert (2 ^ 53 = 2 * 2 ^ 52) by reflexivity. nia.
Qed.

Lemma bounded_exponent (m : positive) (e : Z) :
  bounded JS.prec JS.emax m e = true -> -1074 <= e.
Proof.
  unfold bounded, canonical_mantissa. intros H. apply andb_prop in H as [H _].
  apply Z.eqb_eq in H. rewrite fexp_eq in H. lia.
Qed.

(** Addition of two finite numbers, short of overflow: a finite number
    within a relative error of 2^-53 of the exact sum. *)
Lemma add_error (x y : number) :
  finiteNumber x = true -> finiteNumber y = true ->
  Z.abs (units x + units y) < 2 * maxUnits ->
  finiteNumber (JS.add x y) = true /\
  2 ^ 53 * Z.abs (units (JS.add x y) - (units x + units y))
  <= Z.abs (units x + units y).
Proof.
  intros Hx Hy Hb.
  destruct x as [sx | sx | | sx mx ex]; try discriminate Hx;
    destruct y as [sy | sy | | sy my ey]; try discriminate Hy.
  - destruct sx, sy; cbn; lia.
  - cbn [JS.add SFadd units finiteNumber] in *. unfold JS.add. cbn [SFadd].
    split; [exact Hy | ]. cbn [units]. rewrite Z.add_0_l, Z.sub_diag. cbn. lia.
  - unfold JS.add. cbn [SFadd]. split; [exact Hx | ]. cbn [units].
    rewrite Z.add_0_r, Z.sub_diag. cbn. lia.
  - cbn [finiteNumber] in Hx, Hy.
    pose proof (bounded_exponent _ _ Hx) as Hex.
    pose proof (bounded_exponent _ _ Hy) as Hey.
    unfold JS.add. cbn [SFadd]. cbn [units] in *.
    set (ez := Z.min ex ey).
    assert (Hez : ez <= ex /\ ez <= ey /\ -1074 <= ez) by (unfold ez; lia).
    clearbody ez.
    rewrite (shl_align_value mx ex ez), (shl_align_value my ey ez) by lia.
    set (M := cond_Zopp sx (Zpos mx * 2 ^ (ex - ez))
              + cond_Zopp sy (Zpos my * 2 ^ (ey - ez))).
    set (V := cond_Zopp sx (Zpos mx * 2 ^ (ex + 1074))
              + cond_Zopp sy (Zpos my * 2 ^ (ey + 1074))) in *.
    assert (HM : M * 2 ^ (ez + 1074) = V).
    { unfold M, V.
      replace (ex + 1074) with ((ex - ez) + (ez + 1074)) by lia.
      replace (ey + 1074) with ((ey - ez) + (ez + 1074)) by lia.
      rewrite (pow2_split (ex - ez)), (pow2_split (ey - ez)) by lia.
      destruct sx, sy; cbn [cond_Zopp]; ring. }
    clearbody M V.
    assert (Hp : 0 < 2 ^ (ez + 1074)) by (apply Z.pow_pos_nonneg; lia).
    destruct M as [| P | P]; cbn [binary_normalize].
    + cbn [finiteNumber units]. split; [reflexivity | ].
      replace V with 0 by lia. cbn. lia.
    + destruct (binary_round_error false P ez) as (m' & e' & Hr & Hbd & He); [lia | lia | ].
      rewrite Hr. cbn [finiteNumber units cond_Zopp]. split; [exact Hbd | ].
      rewrite <- HM. rewrite (Z.abs_eq (Zpos P * _)) by lia. exact He.
    + destruct (binary_round_error true P ez) as (m' & e' & Hr & Hbd & He); [lia | lia | ].
      rewrite Hr. cbn [finiteNumber units cond_Zopp]. split; [exact Hbd | ].
      rewrite <- HM.
      replace (- (Zpos m' * 2 ^ (e' + 1074)) - Zneg P * 2 ^ (ez + 1074))
        with (- (Zpos m' * 2 ^ (e' + 1074) - Zpos P * 2 ^ (ez + 1074))) by lia.
      rewrite Z.abs_opp.
      replace (Z.abs (Zneg P * 2 ^ (ez + 1074))) with (Zpos P * 2 ^ (ez + 1074)) by lia.
      exact He.
Qed.

Lemma magnitude_nonneg (l : list Expense) : 0 <= magnitude l.
Proof.
  induction l as [| x l IH]; [reflexivity | ].
  change (0 <= Z.abs (units (amount x)) + magnitude l). lia.
Qed.

(** One more addition on a running sum [acc] that is within
    [k * B / 2^52] of the exact sum [S] of [k] amounts of total
    magnitude [B]. *)
Lemma add_step (acc y : number) (S B k : Z) :
  finiteNumber acc = true -> finiteNumber y = true ->
  2 ^ 52 * Z.abs (units acc - S) <= k * B -> Z.abs S <= B -> 0 <= k ->
  k + 1 <= 2 ^ 52 -> B + Z.abs (units y) < maxUnits ->
  Z.abs (units acc + units y) < 2 * maxUnits /\
  finiteNumber (JS.add acc y) = true /\
  2 ^ 52 * Z.abs (units (JS.add acc y) - (S + units y))
  <= (k + 1) * (B + Z.abs (units y)).
Proof.
  intros Hacc Hy He HS Hk Hn HB.
  set (a := units y) in *.
  assert (P52 : 2 ^ 52 = 4503599627370496) by reflexivity.
  assert (P53 : 2 ^ 53 = 2 * 2 ^ 52) by reflexivity.
  set (E := Z.abs (units acc - S)) in *.
  assert (HE : E <= B) by nia.
  assert (Hsum : Z.abs (units acc + a) <= B + Z.abs a + E) by (unfold E; lia).
  assert (Hov : Z.abs (units acc + a) < 2 * maxUnits) by lia.
  destruct (add_error acc y Hacc Hy) as [Hfin Herr]; [exact Hov | ].
  fold a in Herr. split; [exact Hov | split; [exact Hfin | ]].
  set (D := Z.abs (units (JS.add acc y) - (units acc + a))) in *.
  assert (Z.abs (units (JS.add acc y) - (S + a)) <= D + E) by (unfold D, E; lia).
  assert (2 ^ 53 * D <= B + Z.abs a + E) by lia.
  assert (2 ^ 53 * E <= 2 * (k * (B + Z.abs a))) by nia.
  assert (2 ^ 53 * (D + E) <= 2 * ((k + 1) * (B + Z.abs a))) by nia.
  nia.
Qed.

(** The running sum of [l] from [acc], against the exact sum [S]: after
    [k] additions on amounts of total magnitude [B] the error is at most
    [k * B / 2^52]. *)
Lemma fold_add_error (l : list Expense) (acc : number) (S B k : Z) :
  Forall (fun ex => finiteNumber (amount ex) = true) l ->
  finiteNumber acc = true ->
  2 ^ 52 * Z.abs (units acc - S) <= k * B -> Z.abs S <= B -> 0 <= k ->
  k + Z.of_nat (List.length l) <= 2 ^ 52 ->
  B + magnitude l < maxUnits ->
  let T := fold_left (fun sum item => JS.add sum (amount item)) l acc in
  finiteNumber T = true /\
  2 ^ 52 * Z.abs (units T - (S + exactUnits l))
  <= (k + Z.of_nat (List.length l)) * (B + magnitude l).
Proof.
  revert acc S B k. induction l as [| x l IH]; intros acc S B k Hl Hacc He HS Hk Hn HB T.
  - subst T. cbn [fold_left List.length exactUnits magnitude fold_right Z.of_nat] in *.
    rewrite !Z.add_0_r. auto.
  - inversion Hl as [| ? ? Hx Hl']; subst.
    change (magnitude (x :: l)) with (Z.abs (units (amount x)) + magnitude l) in *.
    change (exactUnits (x :: l)) with (units (amount x) + exactUnits l).
    rewrite length_cons, Nat2Z.inj_succ in *.
    pose proof (magnitude_nonneg l) as Hm.
    destruct (add_step acc (amount x) S B k) as (_ & Hfin & Herr); trivial; try lia.
    subst T. cbn [fold_left].
    specialize (IH (JS.add acc (amount x)) (S + units (amount x))
                   (B + Z.abs (units (amount x))) (k + 1) Hl' Hfin).
    replace (S + (units (amount x) + exactUnits l))
      with (S + units (amount x) + exactUnits l) by lia.
    replace (k + Z.succ (Z.of_nat (List.length l)))
      with (k + 1 + Z.of_nat (List.length l)) by lia.
    replace (B + (Z.abs (units (amount x)) + magnitude l))
      with (B + Z.abs (units (amount x)) + magnitude l) by lia.
    apply IH; lia.
Qed.

(** A sum is the zero with the minus sign only when both terms are. *)
Lemma add_not_negative_zero (x y : number) :
  finiteNumber x = true -> finiteNumber y = true ->
  Z.abs (units x + units y) < 2 * maxUnits ->
  x <> S754_zero true -> JS.add x y <> S754_zero true.
Proof.
  intros Hx Hy Hb Hnz.
  destruct x as [sx | sx | | sx mx ex]; try discriminate Hx;
    destruct y as [sy | sy | | sy my ey]; try discriminate Hy.
  - destruct sx; [congruence | ]. destruct sy; discriminate.
  - discriminate.
  - discriminate.
  - cbn [finiteNumber] in Hx, Hy.
    pose proof (bounded_exponent _ _ Hx) as Hex.
    pose proof (bounded_exponent _ _ Hy) as Hey.
    unfold JS.add. cbn [SFadd]. cbn [units] in Hb.
    set (ez := Z.min ex ey).
    assert (Hez : ez <= ex /\ ez <= ey /\ -1074 <= ez) by (unfold ez; lia).
    clearbody ez.
    rewrite (shl_align_value mx ex ez), (shl_align_value my ey ez) by lia.
    set (M := cond_Zopp sx (Zpos mx * 2 ^ (ex - ez))
              + cond_Zopp sy (Zpos my * 2 ^ (ey - ez))).
    set (V := cond_Zopp sx (Zpos mx * 2 ^ (ex + 1074))
              + cond_Zopp sy (Zpos my * 2 ^ (ey + 1074))) in *.
    assert (HM : M * 2 ^ (ez + 1074) = V).
    { unfold M, V.
      replace (ex + 1074) with ((ex - ez) + (ez + 1074)) by lia.
      replace (ey + 1074) with ((ey - ez) + (ez + 1074)) by lia.
      rewrite (pow2_split (ex - ez)), (pow2_split (ey - ez)) by lia.
      destruct sx, sy; cbn [cond_Zopp]; ring. }
    clearbody M V.
    assert (Hp : 0 < 2 ^ (ez + 1074)) by (apply Z.pow_pos_nonneg; lia).
    destruct M as [| P | P]; cbn [binary_normalize].
    + discriminate.
    + destruct (binary_round_error false P ez) as (m' & e' & Hr & _); [lia | lia | ].
      rewrite Hr. discriminate.
    + destruct (binary_round_error true P ez) as (m' & e' & Hr & _); [lia | lia | ].
      rewrite Hr. discriminate.
Qed.

Lemma accumulate_add (s a : number) :
  finiteNumber s = true -> s <> S754_zero true -> accumulate s a = JS.add s a.
Proof.
  intros Hs Hnz. unfold accumulate.
  destruct s as [[] | | | ]; try discriminate Hs; try reflexivity. congruence.
Qed.

(** On finite amounts, short of overflow, the rounds of
    [(acc || 0) + amount] are the running sum. *)
Lemma fold_accumulate (l : list Expense) (acc : number) (S B k : Z) :
  Forall (fun ex => finiteNumber (amount ex) = true) l ->
  finiteNumber acc = true -> acc <> S754_zero true ->
  2 ^ 52 * Z.abs (units acc - S) <= k * B -> Z.abs S <= B -> 0 <= k ->
  k + Z.of_nat (List.length l) <= 2 ^ 52 ->
  B + magnitude l < maxUnits ->
  fold_left accumulate (map amount l) acc
  = fold_left (fun sum item => JS.add sum (amount item)) l acc.
Proof.
  revert acc S B k. induction l as [| x l IH]; intros acc S B k Hl Hacc Hnz He HS Hk Hn HB.
  - reflexivity.
  - inversion Hl as [| ? ? Hx Hl']; subst.
    change (magnitude (x :: l)) with (Z.abs (units (amount x)) + magnitude l) in *.
    rewrite length_cons, Nat2Z.inj_succ in *.
    pose proof (magnitude_nonneg l) as Hm.
    destruct (add_step acc (amount x) S B k) as (Hov & Hfin & Herr); trivial; try lia.
    cbn [map fold_left]. rewrite accumulate_add by assumption.
    apply (IH _ (S + units (amount x)) (B + Z.abs (units (amount x))) (k + 1));
      trivial; try lia.
    now apply add_not_negative_zero.
Qed.

End RoundingFacts.

(** ** Order-preserving sublists *)

Lemma Subseq_refl {A : Type} (l : list A) : Subseq l l.
Proof. induction l; constructor; assumption. Qed.

Lemma Subseq_filter {A : Type} (p : A -> bool) (l : list A) :
  Subseq (List.filter p l) l.
Proof.
  induction l as [| x l IH]; cbn.
  - constructor.
  - destruct (p x); constructor; assumption.
Qed.

Lemma Subseq_In {A : Type} (l1 l2 : list A) (x : A) :
  Subseq l1 l2 -> In x l1 -> In x l2.
Proof.
  induction 1 as [| y l1 l2 _ IH | y l1 l2 _ IH]; cbn; intuition.
Qed.

(** ** The filter *)

Section FilterProperties.

Variable LocalTZA : Z -> bool -> Z.
Variable Date_parse : string -> option Z.

Local Abbreviation LocalTime := (Main.LocalTime LocalTZA).
Local Abbreviation UTC := (Main.UTC LocalTZA).
Local Abbreviation startOfWeek := (Main.startOfWeek LocalTZA).
Local Abbreviation startOfMonth := (Main.startOfMonth LocalTZA).
Local Abbreviation getFilteredExpenses := (Main.getFilteredExpenses LocalTZA Date_parse).

Lemma Date_ge_on_or_after (b : Z) (ex : Expense) :
  Main.Date_ge (Date_parse (date ex)) (Some b) = on_or_after Date_parse b ex.
Proof.
  unfold Main.Date_ge, on_or_after. destruct (Date_parse (date ex)) as [t |]; trivial.
  destruct (Z.ltb_spec t b), (Z.leb_spec b t); trivial; lia.
Qed.

Lemma TimeClip_in_range (t : Z) : Z.abs t <= maxTime -> TimeClip t = Some t.
Proof.
  intros H. unfold TimeClip. destruct (Z.leb_spec (Z.abs t) maxTime); trivial; lia.
Qed.

Lemma startOfWeek_eq (now : Z) :
  clock_in_range now -> zone_bounded LocalTZA ->
  same_local_day LocalTZA
    (MakeDate (Day (LocalTime now) - WeekDay (LocalTime now))
              (TimeWithinDay (LocalTime now))) ->
  startOfWeek now = Some (UTC (weekStartLocal LocalTZA now)).
Proof.
  unfold clock_in_range, zone_bounded, same_local_day. intros Hn Hz Hd.
  unfold Main.startOfWeek, Main.setDate, Main.getDate, Main.getDay.
  set (t1 := LocalTime now) in *.
  rewrite DateFacts.MakeDay_YearMonth.
  replace (Day t1 - DateFromTime t1 + (DateFromTime t1 - WeekDay t1))
    with (Day t1 - WeekDay t1) by lia.
  set (l1 := MakeDate (Day t1 - WeekDay t1) (TimeWithinDay t1)) in *.
  pose proof (DateFacts.TimeWithinDay_range t1) as Hr.
  pose proof (DateFacts.Day_TimeWithinDay t1) as Ht1.
  assert (Hw : 0 <= WeekDay t1 < 7) by (unfold WeekDay; apply Z.mod_pos_bound; lia).
  assert (Hl1 : t1 - 7 * msPerDay <= l1 <= t1)
    by (unfold l1, MakeDate in *; unfold msPerDay in *; lia).
  assert (Ht : Z.abs (now - t1) <= msPerDay).
  { unfold t1, Main.LocalTime. pose proof (Hz now true). lia. }
  rewrite TimeClip_in_range.
  2:{ unfold Main.UTC. pose proof (Hz l1 false). unfold maxTime, msPerDay in *. lia. }
  unfold Main.setHours. rewrite Hd.
  unfold l1 at 1. rewrite DateFacts.Day_MakeDate by exact Hr.
  change (MakeTime 0 0 0 0) with 0. fold (weekStartLocal LocalTZA now).
  apply TimeClip_in_range.
  unfold Main.UTC. pose proof (Hz (weekStartLocal LocalTZA now) false) as Hb.
  unfold weekStartLocal in *. fold t1 in Hb |- *.
  set (o := LocalTZA _ false) in *. clearbody o.
  unfold l1, MakeDate in *. unfold maxTime, msPerDay in *. lia.
Qed.

Lemma startOfMonth_eq (now : Z) :
  clock_in_range now -> zone_bounded LocalTZA ->
  ~ (0 <= YearFromTime (LocalTime now) <= 99) ->
  startOfMonth now = Some (UTC (monthStartLocal LocalTZA now)).
Proof.
  unfold clock_in_range, zone_bounded. intros Hn Hz Hy.
  unfold Main.startOfMonth, Main.Date_ymd, Main.getFullYear, Main.getMonth.
  set (t1 := LocalTime now) in *.
  replace ((0 <=? YearFromTime t1) && (YearFromTime t1 <=? 99)) with false.
  2:{ symmetry. apply andb_false_iff.
      destruct (Z.leb_spec 0 (YearFromTime t1)), (Z.leb_spec (YearFromTime t1) 99);
        auto; lia. }
  rewrite DateFacts.MakeDay_YearMonth. change (MakeTime 0 0 0 0) with 0.
  replace (Day t1 - DateFromTime t1 + 1) with (Day t1 - (DateFromTime t1 - 1)) by lia.
  fold (monthStartLocal LocalTZA now).
  apply TimeClip_in_range.
  unfold Main.UTC. pose proof (Hz (monthStartLocal LocalTZA now) false) as Hb.
  unfold monthStartLocal in *. fold t1 in Hb |- *.
  set (o := LocalTZA _ false) in *. clearbody o.
  pose proof (DateFacts.DateFromTime_pos t1). pose proof (DateFacts.DateFromTime_le t1).
  pose proof (DateFacts.TimeWithinDay_range t1) as Hr.
  pose proof (DateFacts.Day_TimeWithinDay t1) as Ht1.
  assert (Ht : Z.abs (now - t1) <= msPerDay).
  { unfold t1, Main.LocalTime. pose proof (Hz now true). lia. }
  unfold MakeDate in *. unfold maxTime, msPerDay in *. lia.
Qed.

(** C6. Filtering with mode All returns exactly the list of records it
    was given: every record, unchanged, in the original order. *)
Theorem C6_filter_all_identity (expenses : list Expense) (now : Z) :
  getFilteredExpenses "All" expenses now = expenses.
Proof. reflexivity. Qed.

(** C7. For every filter mode (All, Week, Month, and any other value of
    the [filter] state), the output is a subsequence of the input: the
    relative order is kept, and every record of the output is a record of
    the input. *)
Theorem C7_filter_subsequence (filter : string) (expenses : list Expense) (now : Z) :
  Subseq (getFilteredExpenses filter expenses now) expenses /\
  (forall ex, In ex (getFilteredExpenses filter expenses now) -> In ex expenses).
Proof.
  assert (S : Subseq (getFilteredExpenses filter expenses now) expenses).
  { unfold Main.getFilteredExpenses. destruct (filter =? "All")%string.
    - apply Subseq_refl.
    - apply Subseq_filter. }
  split; [exact S | intros ex; now apply Subseq_In].
Qed.

(** C8. The filter returns a result for every list of records and every
    mode, whatever the [date] strings are: a date that does not parse is
    an invalid Date, every comparison with it is false, and so the
    record is left out under Week and Month and kept otherwise. *)
Theorem C8_filter_total_on_malformed_dates
    (filter : string) (expenses : list Expense) (now : Z) :
  exists out,
    getFilteredExpenses filter expenses now = out /\
    Subseq out expenses /\
    (forall ex, In ex expenses -> Date_parse (date ex) = None ->
       (In ex out <-> filter <> "Week" /\ filter <> "Month")).
Proof.
  eexists. split; [reflexivity | ]. split.
  { unfold Main.getFilteredExpenses. destruct (filter =? "All")%string.
    - apply Subseq_refl.
    - apply Subseq_filter. }
  intros ex Hin Hnone. unfold Main.getFilteredExpenses.
  destruct (String.eqb_spec filter "All") as [-> | HA].
  { split; [intros _; split; discriminate | intros _; exact Hin]. }
  rewrite filter_In, Hnone.
  destruct (String.eqb_spec filter "Week") as [-> | HW].
  { cbn. split; [intros [_ F]; discriminate | intros [F _]; now elim F]. }
  destruct (String.eqb_spec filter "Month") as [-> | HM].
  { cbn. split; [intros [_ F]; discriminate | intros [_ F]; now elim F]. }
  split; [intros _; split; assumption | intros _; split; trivial].
Qed.

(** C4. With mode Week the filter returns exactly the records whose
    timestamp is on or after local midnight at the start of the most
    recent Sunday: the boundary [b] is a local midnight, falls on week
    day 0, and is at most now and less than seven days before it. *)
Theorem C4_filter_week (expenses : list Expense) (now : Z) :
  clock_in_range now -> zone_bounded LocalTZA ->
  same_local_day LocalTZA
    (MakeDate (Day (LocalTime now) - WeekDay (LocalTime now))
              (TimeWithinDay (LocalTime now))) ->
  let b := weekStartLocal LocalTZA now in
  (WeekDay b = 0 /\ TimeWithinDay b = 0 /\
   b <= LocalTime now < b + 7 * msPerDay) /\
  getFilteredExpenses "Week" expenses now
  = List.filter (on_or_after Date_parse (UTC b)) expenses.
Proof.
  intros Hn Hz Hd b. split.
  - apply DateFacts.first_of_week.
  - unfold Main.getFilteredExpenses. cbn [String.eqb Ascii.eqb Bool.eqb].
    fold (startOfWeek now). rewrite (startOfWeek_eq now Hn Hz Hd).
    apply filter_ext. intros ex. apply Date_ge_on_or_after.
Qed.

(** C5. With mode Month the filter returns exactly the records whose
    timestamp is on or after local midnight of the first day of the
    current month: the boundary [b] is a local midnight on day 1 of the
    month and year of now.  The bound is inclusive and there is no upper
    bound: a record at the boundary or at any later instant is kept. *)
Theorem C5_filter_month (expenses : list Expense) (now : Z) :
  clock_in_range now -> zone_bounded LocalTZA ->
  ~ (0 <= YearFromTime (LocalTime now) <= 99) ->
  let b := monthStartLocal LocalTZA now in
  (YearFromTime b = YearFromTime (LocalTime now) /\
   MonthFromTime b = MonthFromTime (LocalTime now) /\
   DateFromTime b = 1 /\ TimeWithinDay b = 0 /\ b <= LocalTime now) /\
  getFilteredExpenses "Month" expenses now
  = List.filter (on_or_after Date_parse (UTC b)) expenses /\
  (forall ex t, In ex expenses -> Date_parse (date ex) = Some t -> UTC b <= t ->
     In ex (getFilteredExpenses "Month" expenses now)).
Proof.
  intros Hn Hz Hy b.
  assert (E : getFilteredExpenses "Month" expenses now
              = List.filter (on_or_after Date_parse (UTC b)) expenses).
  { unfold Main.getFilteredExpenses. cbn [String.eqb Ascii.eqb Bool.eqb].
    fold (startOfMonth now). rewrite (startOfMonth_eq now Hn Hz Hy).
    apply filter_ext. intros ex. apply Date_ge_on_or_after. }
  split; [apply DateFacts.first_of_month | split; [exact E | ]].
  intros ex t Hin Hp Hle. rewrite E. apply filter_In. split; [exact Hin | ].
  unfold on_or_after. rewrite Hp. now apply Z.leb_le.
Qed.

End FilterProperties.

(** ** The totals *)

Lemma trunc_ofZ (z : Z) : Z.abs z < 2 ^ 53 -> trunc (JS.ofZ z) = z.
Proof.
  intros Hz. destruct (Z.eq_dec z 0) as [-> | N]; [reflexivity | ].
  destruct (NumberFacts.ofZ_repr z N Hz) as (m & e & E & _ & He & V).
  rewrite E. cbn [trunc].
  assert (P : 0 < 2 ^ 52) by reflexivity.
  assert (Zpos m * 2 ^ (e + 52) = Z.abs z * 2 ^ 52 /\ cond_Zopp (z <? 0) (Z.abs z) = z)
    as [V' S].
  { destruct (Z.ltb_spec z 0); cbn [cond_Zopp] in *; split; lia. }
  rewrite <- S at 2. f_equal.
  destruct (Z_le_gt_dec 0 e) as [L | G].
  - rewrite Z.shiftl_mul_pow2 by lia.
    rewrite Z.pow_add_r, Z.mul_assoc in V' by lia.
    now apply Z.mul_cancel_r in V'; [ | lia].
  - rewrite Z.shiftl_div_pow2 by lia.
    assert (Zpos m = Z.abs z * 2 ^ (- e)).
    { assert (P2 : 2 ^ 52 = 2 ^ (- e) * 2 ^ (e + 52))
        by (rewrite <- Z.pow_add_r by lia; f_equal; lia).
      rewrite P2, Z.mul_assoc in V'.
      apply Z.mul_cancel_r in V'; [exact V' | ].
      apply Z.pow_nonzero; lia. }
    rewrite H. apply Z.div_mul. apply Z.pow_nonzero; lia.
Qed.

Lemma absSum_nonneg (l : list Expense) : 0 <= absSum l.
Proof.
  induction l as [| x l IH]; [reflexivity | ].
  change (0 <= Z.abs (trunc (amount x)) + absSum l). lia.
Qed.

Lemma exactSum_le_absSum (l : list Expense) : Z.abs (exactSum l) <= absSum l.
Proof.
  induction l as [| x l IH]; [reflexivity | ].
  change (Z.abs (trunc (amount x) + exactSum l)
          <= Z.abs (trunc (amount x)) + absSum l). lia.
Qed.

Lemma total_integers (l : list Expense) (acc : Z) :
  Forall integerAmount l -> Z.abs acc + absSum l < 2 ^ 53 ->
  fold_left (fun sum item => JS.add sum (amount item)) l (JS.ofZ acc)
  = JS.ofZ (acc + exactSum l).
Proof.
  revert acc. induction l as [| x l IH]; intros acc Hi Hb.
  - cbn. now rewrite Z.add_0_r.
  - inversion Hi as [| ? ? Hx Hl]; subst.
    change (Z.abs acc + (Z.abs (trunc (amount x)) + absSum l) < 2 ^ 53) in Hb.
    change (exactSum (x :: l)) with (trunc (amount x) + exactSum l).
    pose proof (absSum_nonneg l). cbn [fold_left]. unfold integerAmount in Hx.
    set (a := trunc (amount x)) in *. rewrite Hx.
    rewrite NumberFacts.add_ofZ by lia.
    rewrite IH by (trivial; lia). f_equal. lia.
Qed.

Lemma magnitude_repeat (x : Expense) (n : nat) :
  magnitude (repeat x n) = Z.of_nat n * Z.abs (units (amount x)).
Proof.
  induction n as [| n IH]; [reflexivity | ].
  change (magnitude (repeat x (S n)))
    with (Z.abs (units (amount x)) + magnitude (repeat x n)).
  rewrite IH. lia.
Qed.

Lemma total_error (l : list Expense) :
  Forall (fun ex => finiteNumber (amount ex) = true) l ->
  Z.of_nat (List.length l) <= 2 ^ 52 -> magnitude l < maxUnits ->
  let T := Main.total (Main.calculateTotals l) in
  finiteNumber T = true /\
  2 ^ 52 * Z.abs (units T - exactUnits l) <= Z.of_nat (List.length l) * magnitude l.
Proof.
  intros Hf Hn HB T.
  pose proof (RoundingFacts.fold_add_error l JS.posZero 0 0 0 Hf eq_refl) as H.
  cbv zeta in H. cbn [Z.add] in H.
  apply H; [cbn; lia | cbn; lia | lia | exact Hn | exact HB].
Qed.

Lemma total_minor_unit (l : list Expense) :
  Forall (fun ex => finiteNumber (amount ex) = true) l ->
  Z.of_nat (List.length l) <= 2 ^ 52 -> magnitude l < maxUnits ->
  200 * Z.of_nat (List.length l) * magnitude l < 2 ^ 52 * currencyUnit ->
  minorUnitAccurate (Main.total (Main.calculateTotals l)) (exactUnits l).
Proof.
  intros Hf Hn HB Hs. destruct (total_error l Hf Hn HB) as [E1 E2].
  split; [exact E1 | ].
  assert (0 < 2 ^ 52) by reflexivity. nia.
Qed.

(** C1 (amended). The total is the running binary64 sum of the amounts:
    each addition rounds to nearest, and nothing is accumulated in
    decimal or in minor units.  For [n] finite amounts of total
    magnitude [B] it is within [n * B / 2^52] of the exact sum; hence
    it is accurate to the minor unit when [200 * n * B] is below 2^52
    currency units, and it is the exact sum when the amounts are
    integers whose absolute values add up to less than 2^53. *)
Theorem C1_total_error_bound (l : list Expense) :
  Forall (fun ex => finiteNumber (amount ex) = true) l ->
  Z.of_nat (List.length l) <= 2 ^ 52 -> magnitude l < maxUnits ->
  let T := Main.total (Main.calculateTotals l) in
  let n := Z.of_nat (List.length l) in
  (finiteNumber T = true /\
   2 ^ 52 * Z.abs (units T - exactUnits l) <= n * magnitude l) /\
  (200 * n * magnitude l < 2 ^ 52 * currencyUnit ->
   minorUnitAccurate T (exactUnits l)) /\
  (Forall integerAmount l -> absSum l < 2 ^ 53 -> T = JS.ofZ (exactSum l)).
Proof.
  intros Hf Hn HB T n.
  split; [exact (total_error l Hf Hn HB) | split].
  - now apply total_minor_unit.
  - intros Hi Hb. subst T. cbn [Main.calculateTotals Main.total].
    change JS.posZero with (JS.ofZ 0).
    rewrite total_integers by (trivial; cbn; lia). reflexivity.
Qed.

(** C1, as stated, fails: 2^53 and 1 add up to 2^53, a whole unit (a
    hundred minor units) below the exact sum. *)
Lemma C1_counterexample :
  let l := [expense (JS.ofZ 9007199254740992) "Rent"; expense (JS.ofZ 1) "Food"] in
  Main.total (Main.calculateTotals l) = JS.ofZ 9007199254740992 /\
  exactUnits l - units (Main.total (Main.calculateTotals l)) = currencyUnit /\
  ~ minorUnitAccurate (Main.total (Main.calculateTotals l)) (exactUnits l).
Proof.
  split; [reflexivity | ]. split; [vm_compute; reflexivity | ].
  intros [_ H]. vm_compute in H. discriminate H.
Qed.

Lemma C1_witness :
  let l := [expense (JS.ofZ 10) "Food"; expense (JS.parseFloat "5.50") "Food";
            expense (JS.ofZ 20) "Rent"] in
  let T := Main.total (Main.calculateTotals l) in
  let n := Z.of_nat (List.length l) in
  (Forall (fun ex => finiteNumber (amount ex) = true) l /\
   Z.of_nat (List.length l) <= 2 ^ 52 /\ magnitude l < maxUnits) /\
  ((finiteNumber T = true /\
    2 ^ 52 * Z.abs (units T - exactUnits l) <= n * magnitude l) /\
   (200 * n * magnitude l < 2 ^ 52 * currencyUnit ->
   minorUnitAccurate T (exactUnits l)) /\
   (Forall integerAmount l -> absSum l < 2 ^ 53 -> T = JS.ofZ (exactSum l))).
Proof.
  intros l T n.
  assert (Hf : Forall (fun ex => finiteNumber (amount ex) = true) l)
    by (repeat constructor).
  assert (Hn : Z.of_nat (List.length l) <= 2 ^ 52) by (vm_compute; discriminate).
  assert (HB : magnitude l < maxUnits) by (vm_compute; reflexivity).
  split; [repeat split; assumption | ].
  exact (C1_total_error_bound l Hf Hn HB).
Defined.

(** Ten thousand records of 0.01 are well within the bound: their total
    is accurate to the minor unit. *)
Example total_of_10000_cents :
  let l := repeat (expense (JS.parseFloat "0.01") "Food") (Z.to_nat 10000) in
  minorUnitAccurate (Main.total (Main.calculateTotals l)) (exactUnits l).
Proof.
  intros l.
  assert (Hlen : Z.of_nat (List.length l) = 10000)
    by (unfold l; rewrite repeat_length, Z2Nat.id; lia).
  assert (Hmag : magnitude l = 10000 * (5764607523034235 * 2 ^ 1015)).
  { unfold l. rewrite magnitude_repeat, Z2Nat.id by lia. reflexivity. }
  assert (Hf : Forall (fun ex => finiteNumber (amount ex) = true) l).
  { apply Forall_forall. intros ex Hin. apply repeat_spec in Hin. now subst ex. }
  assert (Hn : Z.of_nat (List.length l) <= 2 ^ 52) by (rewrite Hlen; vm_compute; discriminate).
  assert (HB : magnitude l < maxUnits) by (rewrite Hmag; vm_compute; reflexivity).
  apply (total_minor_unit l Hf Hn HB).
  rewrite Hlen, Hmag. vm_compute. reflexivity.
Qed.

(** A hundred records of 0.01: the total is 1.0000000000000007, not the
    number 1. *)
Example total_of_100_cents :
  let l := repeat (expense (JS.parseFloat "0.01") "Food") 100 in
  Main.total (Main.calculateTotals l) = S754_finite false 4503599627370499 (-52) /\
  JS.ofZ 1 = S754_finite false 4503599627370496 (-52).
Proof. split; [vm_compute; reflexivity | reflexivity]. Qed.

Example total_of_dimes :
  let l := [expense (JS.parseFloat "0.1") "Food"; expense (JS.parseFloat "0.2") "Food"] in
  Main.total (Main.calculateTotals l) = S754_finite false 5404319552844596 (-54) /\
  JS.parseFloat "0.3" = S754_finite false 5404319552844595 (-54).
Proof. split; reflexivity. Qed.

(** ** The breakdown by category *)

Module ObjectFacts.

Lemma getOwn_setOwn (o : JS.object) (k k' : string) (v : JS.value) :
  JS.getOwn (JS.setOwn o k v) k'
  = if (k =? k')%string
    then match JS.getOwn o k with Some _ => Some v | None => None end
    else JS.getOwn o k'.
Proof.
  induction o as [| [k1 v1] o IH]; cbn [JS.setOwn JS.getOwn].
  - now destruct (k =? k')%string.
  - destruct (String.eqb_spec k1 k) as [-> | N1]; cbn [JS.getOwn].
    + destruct (String.eqb_spec k k') as [-> | N2]; trivial.
    + rewrite IH. destruct (String.eqb_spec k k') as [<- | N2].
      * destruct (String.eqb_spec k1 k); [congruence | trivial].
      * reflexivity.
Qed.

Lemma getOwn_app (o : JS.object) (k k' : string) (v : JS.value) :
  JS.getOwn (o ++ [(k, v)]) k'
  = match JS.getOwn o k' with
    | Some w => Some w
    | None => if (k =? k')%string then Some v else None
    end.
Proof.
  induction o as [| [k1 v1] o IH]; cbn [JS.getOwn app]; trivial.
  destruct (k1 =? k')%string; trivial.
Qed.

Lemma keys_setOwn (o : JS.object) (k : string) (v : JS.value) :
  map fst (JS.setOwn o k v) = map fst o.
Proof.
  induction o as [| [k1 v1] o IH]; cbn [JS.setOwn map fst]; trivial.
  destruct (k1 =? k)%string; cbn [map fst]; congruence.
Qed.

Lemma firstOccurrences_snoc (ks : list string) (k : string) :
  firstOccurrences (ks ++ [k])
  = if existsb (String.eqb k) ks then firstOccurrences ks
    else firstOccurrences ks ++ [k].
Proof.
  induction ks as [| k1 ks IH]; cbn [app firstOccurrences existsb]; trivial.
  rewrite IH. destruct (String.eqb_spec k k1) as [-> | N]; cbn [orb].
  - destruct (existsb (String.eqb k1) ks); trivial.
    rewrite filter_app. cbn [List.filter]. rewrite String.eqb_refl. cbn [negb].
    now rewrite app_nil_r.
  - destruct (existsb (String.eqb k) ks); trivial.
    rewrite filter_app. cbn [List.filter].
    destruct (String.eqb_spec k k1); [congruence | reflexivity].
Qed.

Lemma withCategory_snoc (k : string) (l : list Expense) (x : Expense) :
  withCategory k (l ++ [x])
  = if (category x =? k)%string then withCategory k l ++ [x] else withCategory k l.
Proof.
  unfold withCategory. rewrite filter_app. cbn [List.filter].
  destruct (category x =? k)%string; trivial. apply app_nil_r.
Qed.

Lemma categoryTotal_snoc (k : string) (l : list Expense) (x : Expense) :
  categoryTotal k (l ++ [x])
  = if (category x =? k)%string then accumulate (categoryTotal k l) (amount x)
    else categoryTotal k l.
Proof.
  unfold categoryTotal. rewrite withCategory_snoc.
  destruct (category x =? k)%string; trivial.
  now rewrite map_app, fold_left_app.
Qed.

Lemma mentions_snoc (k : string) (l : list Expense) (x : Expense) :
  mentions k (l ++ [x]) = mentions k l || (k =? category x)%string.
Proof.
  unfold mentions. rewrite map_app, existsb_app. cbn [map existsb].
  now rewrite orb_false_r.
Qed.

Lemma categoryTotal_unmentioned (k : string) (l : list Expense) :
  mentions k l = false -> categoryTotal k l = JS.posZero.
Proof.
  unfold mentions, categoryTotal, withCategory. intros H.
  replace (List.filter (fun ex => (category ex =? k)%string) l) with (@nil Expense);
    [reflexivity | ].
  induction l as [| x l IH]; cbn [List.filter map existsb] in *; trivial.
  apply orb_false_iff in H as [H1 H2]. rewrite String.eqb_sym, H1. auto.
Qed.

Lemma byCategory_snoc (l : list Expense) (x : Expense) :
  Main.byCategory (Main.calculateTotals (l ++ [x]))
  = let acc := Main.byCategory (Main.calculateTotals l) in
    JS.Set_ acc (category x)
      (JS.plus (JS.or (JS.Get acc (category x)) (JS.Num JS.posZero))
               (JS.ofColumn (item_amount x))).
Proof. cbn [Main.calculateTotals Main.byCategory]. now rewrite fold_left_app. Qed.

(** [s + item.amount] for a number [s]. *)
Lemma plus_amount (s : number) (x : Expense) :
  JS.plus (JS.Num s) (JS.ofColumn (item_amount x)) = JS.Num (JS.add s (amount x)).
Proof. unfold amount. now destruct (item_amount x). Qed.

(** The own properties of [byCategory]: one for each label of the list,
    created at its first appearance and holding the rounds of
    [accumulate] over its records. *)
Lemma byCategory_own (l : list Expense) :
  Forall (fun ex => inheritedName (category ex) = false) l ->
  let o := Main.byCategory (Main.calculateTotals l) in
  map fst o = firstOccurrences (map category l) /\
  forall k, JS.getOwn o k
            = if mentions k l then Some (JS.Num (categoryTotal k l)) else None.
Proof.
  induction l as [| x l IH] using rev_ind; intros Hp o.
  - split; reflexivity.
  - apply Forall_app in Hp as [Hl Hx]. inversion Hx as [| ? ? Hk _]; subst.
    destruct (IH Hl) as [IHk IHv]. clear IH.
    subst o. rewrite byCategory_snoc.
    set (acc := Main.byCategory (Main.calculateTotals l)) in *. cbv zeta.
    set (k0 := category x) in *.
    assert (Hv : JS.plus (JS.or (JS.Get acc k0) (JS.Num JS.posZero))
                         (JS.ofColumn (item_amount x))
                 = JS.Num (accumulate (categoryTotal k0 l) (amount x))).
    { unfold JS.Get. rewrite IHv. destruct (mentions k0 l) eqn:M.
      - unfold JS.or, accumulate.
        destruct (JS.ToBoolean (JS.Num (categoryTotal k0 l))); apply plus_amount.
      - fold (inheritedName k0). rewrite Hk.
        rewrite (categoryTotal_unmentioned k0 l M). apply plus_amount. }
    rewrite Hv. set (v := JS.Num (accumulate (categoryTotal k0 l) (amount x))).
    assert (Hne : (k0 =? "__proto__")%string = false).
    { destruct (String.eqb_spec k0 "__proto__") as [E | N]; trivial.
      rewrite E in Hk. discriminate Hk. }
    unfold JS.Set_. rewrite IHv, map_app. cbn [map]. fold k0.
    rewrite firstOccurrences_snoc. fold (mentions k0 l).
    destruct (mentions k0 l) eqn:M.
    + split; [rewrite keys_setOwn; exact IHk | ].
      intros k. rewrite getOwn_setOwn, IHv, M, mentions_snoc, categoryTotal_snoc.
      fold k0. destruct (String.eqb_spec k0 k) as [<- | N].
      * rewrite M, String.eqb_refl. reflexivity.
      * destruct (String.eqb_spec k k0); [congruence | ]. now rewrite orb_false_r.
    + rewrite Hne. split; [rewrite map_app, IHk; reflexivity | ].
      intros k. rewrite getOwn_app, IHv, mentions_snoc, categoryTotal_snoc.
      fold k0. destruct (String.eqb_spec k0 k) as [<- | N].
      * rewrite M, String.eqb_refl. reflexivity.
      * destruct (String.eqb_spec k k0); [congruence | ]. rewrite orb_false_r.
        destruct (mentions k l); reflexivity.
Qed.

End ObjectFacts.

Lemma In_firstOccurrences (ks : list string) (k : string) :
  In k (firstOccurrences ks) <-> In k ks.
Proof.
  induction ks as [| k1 ks IH]; cbn [firstOccurrences In]; [tauto | ].
  rewrite filter_In, IH. destruct (String.eqb_spec k k1) as [-> | N]; cbn [negb].
  - intuition.
  - intuition congruence.
Qed.

Lemma mentions_In (k : string) (l : list Expense) :
  mentions k l = true <-> In k (map category l).
Proof.
  unfold mentions. rewrite existsb_exists. split.
  - intros (k' & Hin & E). apply String.eqb_eq in E. now subst.
  - intros Hin. exists k. split; [exact Hin | apply String.eqb_refl].
Qed.

Lemma keys_without_indices (o : JS.object) :
  Forall (fun k => JS.isIndex k = false) (map fst o) -> JS.keys o = map fst o.
Proof.
  unfold JS.keys. generalize (map fst o) as ks. intros ks H.
  assert (E1 : JS.indexKeys ks = []).
  { induction H as [| k ks Hk _ IH]; trivial. cbn [JS.indexKeys].
    unfold JS.isIndex in Hk. now destruct (JS.arrayIndex k). }
  assert (E2 : List.filter (fun k => negb (JS.isIndex k)) ks = ks).
  { induction H as [| k ks Hk _ IH]; trivial. cbn [List.filter].
    rewrite Hk. cbn [negb]. f_equal. apply IH.
    cbn [JS.indexKeys] in E1. unfold JS.isIndex in Hk.
    now destruct (JS.arrayIndex k). }
  now rewrite E1, E2.
Qed.

Lemma accumulate_ofZ (s a : Z) :
  Z.abs s < 2 ^ 53 -> Z.abs a < 2 ^ 53 -> Z.abs (s + a) < 2 ^ 53 ->
  accumulate (JS.ofZ s) (JS.ofZ a) = JS.ofZ (s + a).
Proof.
  intros Hs Ha Hsa. unfold accumulate.
  destruct (Z.eq_dec s 0) as [-> | N].
  - change (JS.add (JS.ofZ 0) (JS.ofZ a) = JS.ofZ (0 + a)).
    now apply NumberFacts.add_ofZ.
  - destruct (NumberFacts.ofZ_repr s N Hs) as (m & e & E & _).
    rewrite E. cbn [JS.ToBoolean]. rewrite <- E. now apply NumberFacts.add_ofZ.
Qed.

Lemma accumulate_integers (l : list Expense) (acc : Z) :
  Forall integerAmount l -> Z.abs acc + absSum l < 2 ^ 53 ->
  fold_left accumulate (map amount l) (JS.ofZ acc) = JS.ofZ (acc + exactSum l).
Proof.
  revert acc. induction l as [| x l IH]; intros acc Hi Hb.
  - cbn. now rewrite Z.add_0_r.
  - inversion Hi as [| ? ? Hx Hl]; subst.
    change (Z.abs acc + (Z.abs (trunc (amount x)) + absSum l) < 2 ^ 53) in Hb.
    change (exactSum (x :: l)) with (trunc (amount x) + exactSum l).
    pose proof (absSum_nonneg l). cbn [fold_left map]. unfold integerAmount in Hx.
    set (a := trunc (amount x)) in *. rewrite Hx.
    rewrite accumulate_ofZ by lia.
    rewrite IH by (trivial; lia). f_equal. lia.
Qed.

Lemma absSum_withCategory (k : string) (l : list Expense) :
  absSum (withCategory k l) <= absSum l.
Proof.
  induction l as [| x l IH]; [reflexivity | ].
  change (absSum (x :: l)) with (Z.abs (trunc (amount x)) + absSum l).
  unfold withCategory in *. cbn [List.filter].
  destruct (category x =? k)%string; [ | lia].
  change (Z.abs (trunc (amount x))
          + absSum (List.filter (fun ex => (category ex =? k)%string) l)
          <= Z.abs (trunc (amount x)) + absSum l). lia.
Qed.

Lemma categoryTotal_integers (k : string) (l : list Expense) :
  Forall integerAmount l -> absSum l < 2 ^ 53 ->
  categoryTotal k l = JS.ofZ (exactSum (withCategory k l)).
Proof.
  intros Hi Hb. unfold categoryTotal. change JS.posZero with (JS.ofZ 0).
  rewrite accumulate_integers; trivial.
  - unfold withCategory. apply Forall_forall. intros ex Hin.
    apply filter_In in Hin as [Hin _]. revert ex Hin. now apply Forall_forall.
  - pose proof (absSum_withCategory k l). cbn [Z.abs]. lia.
Qed.

Lemma magnitude_withCategory (k : string) (l : list Expense) :
  magnitude (withCategory k l) <= magnitude l /\
  (List.length (withCategory k l) <= List.length l)%nat.
Proof.
  induction l as [| x l [IH1 IH2]]; [split; [reflexivity | apply le_n] | ].
  change (magnitude (x :: l)) with (Z.abs (units (amount x)) + magnitude l).
  unfold withCategory in *. cbn [List.filter].
  destruct (category x =? k)%string.
  - change (magnitude (x :: ?r)) with (Z.abs (units (amount x)) + magnitude r).
    cbn [List.length]. split; lia.
  - cbn [List.length]. split; lia.
Qed.

Lemma categoryTotal_finite (k : string) (l : list Expense) :
  Forall (fun ex => finiteNumber (amount ex) = true) l ->
  Z.of_nat (List.length l) <= 2 ^ 52 -> magnitude l < maxUnits ->
  categoryTotal k l = Main.total (Main.calculateTotals (withCategory k l)).
Proof.
  intros Hf Hn HB. unfold categoryTotal. cbn [Main.calculateTotals Main.total].
  destruct (magnitude_withCategory k l) as [Hm Hl].
  apply (RoundingFacts.fold_accumulate _ _ 0 0 0); try reflexivity; try lia.
  - unfold withCategory. apply Forall_forall. intros ex Hin.
    apply filter_In in Hin as [Hin _]. revert ex Hin. now apply Forall_forall.
  - discriminate.
Qed.

(** Labels that [Object.prototype] knows: the first is concatenated to
    the text of the inherited function, the second is never stored. *)
Example byCategory_inherited_names :
  let l := [expense (JS.ofZ 5) "toString"; expense (JS.ofZ 7) "__proto__"] in
  Main.byCategory (Main.calculateTotals l)
  = [("toString", JS.Str [JS.OfBuiltin "toString"; JS.OfNumber (JS.ofZ 5)])].
Proof. reflexivity. Qed.

(** [(acc[c] || 0)] starts a category again after a NaN, which the total
    keeps: the infinities cancel to NaN, then 5 is added to 0. *)
Example byCategory_restarts_after_NaN :
  let l := [expense (S754_infinity false) "Food"; expense (S754_infinity true) "Food";
            expense (JS.ofZ 5) "Food"] in
  Main.total (Main.calculateTotals l) = JS.NaN /\
  Main.byCategory (Main.calculateTotals l) = [("Food", JS.Num (JS.ofZ 5))].
Proof. split; reflexivity. Qed.

(** ** The total against the breakdown *)

Module BreakdownFacts.

Lemma NoDup_firstOccurrences (ks : list string) : NoDup (firstOccurrences ks).
Proof.
  induction ks as [| k ks IH]; cbn [firstOccurrences]; constructor.
  - rewrite filter_In, String.eqb_refl. cbn. intros [_ F]. discriminate F.
  - now apply NoDup_filter.
Qed.

Lemma keySum_ext (g g' : string -> Z) (ks : list string) :
  (forall k, In k ks -> g k = g' k) -> keySum g ks = keySum g' ks.
Proof.
  induction ks as [| k ks IH]; intros H; [reflexivity | ].
  change (g k + keySum g ks = g' k + keySum g' ks).
  rewrite (H k) by (cbn; auto). f_equal. apply IH.
  intros k' Hin. apply H. cbn. auto.
Qed.

Lemma keySum_perm (g : string -> Z) (ks ks' : list string) :
  Permutation ks ks' -> keySum g ks = keySum g ks'.
Proof.
  induction 1 as [| k ks ks' _ IH | k k' ks | ks1 ks2 ks3 _ IH1 _ IH2].
  - reflexivity.
  - change (g k + keySum g ks = g k + keySum g ks'). lia.
  - change (g k' + (g k + keySum g ks) = g k + (g k' + keySum g ks)). lia.
  - congruence.
Qed.

Lemma keySum_remove (g : string -> Z) (k0 : string) (ks : list string) :
  NoDup ks ->
  keySum g ks
  = (if existsb (String.eqb k0) ks then g k0 else 0)
    + keySum g (List.filter (fun k => negb (k =? k0)%string) ks).
Proof.
  induction 1 as [| k ks Hk _ IH]; [reflexivity | ].
  change (keySum g (k :: ks)) with (g k + keySum g ks).
  cbn [existsb List.filter]. rewrite IH.
  destruct (String.eqb_spec k k0) as [-> | N]; cbn [negb].
  - rewrite String.eqb_refl. cbn [orb].
    replace (existsb (String.eqb k0) ks) with false; [lia | ].
    symmetry. apply not_true_is_false. intros E.
    apply existsb_exists in E as (k' & Hin & E). apply String.eqb_eq in E.
    now subst.
  - destruct (String.eqb_spec k0 k); [congruence | ]. cbn [orb].
    change (keySum g (k :: ?r)) with (g k + keySum g r). lia.
Qed.

Lemma withCategory_unmentioned (k : string) (l : list Expense) :
  ~ In k (map category l) -> withCategory k l = [].
Proof.
  unfold withCategory. induction l as [| x l IH]; cbn [List.filter map In]; trivial.
  intros H. destruct (String.eqb_spec (category x) k); [tauto | ]. apply IH. tauto.
Qed.

(** Summing label by label is summing the whole list. *)
Lemma partition_sum (f : Expense -> Z) (l : list Expense) :
  keySum (fun k => sumOf f (withCategory k l)) (firstOccurrences (map category l))
  = sumOf f l.
Proof.
  induction l as [| x l IH]; [reflexivity | ].
  cbn [map firstOccurrences]. set (k0 := category x).
  set (K := firstOccurrences (map category l)) in *.
  change (sumOf f (x :: l)) with (f x + sumOf f l). rewrite <- IH.
  change (keySum ?g (k0 :: ?r)) with (g k0 + keySum g r). cbv beta.
  rewrite (keySum_remove _ k0 K) by apply NoDup_firstOccurrences.
  rewrite (keySum_ext _ (fun k => sumOf f (withCategory k l))
             (List.filter (fun k => negb (k =? k0)%string) K)).
  2:{ intros k Hin. apply filter_In in Hin as [_ Hne]. unfold withCategory.
      cbn [List.filter]. fold k0.
      destruct (String.eqb_spec k0 k) as [<- | N]; trivial.
      rewrite String.eqb_refl in Hne. discriminate Hne. }
  unfold withCategory at 1. cbn [List.filter]. fold k0. rewrite String.eqb_refl.
  change (sumOf f (x :: ?r)) with (f x + sumOf f r). fold (withCategory k0 l).
  destruct (existsb (String.eqb k0) K) eqn:E; [lia | ].
  rewrite withCategory_unmentioned; [cbn [sumOf fold_right]; lia | ].
  intros Hin. apply In_firstOccurrences in Hin. fold K in Hin.
  assert (existsb (String.eqb k0) K = true); [ | congruence].
  apply existsb_exists. exists k0. split; [exact Hin | apply String.eqb_refl].
Qed.

Lemma insertIndex_perm (n : N) (k : string) (l : list (N * string)) :
  Permutation (map snd (JS.insertIndex n k l)) (k :: map snd l).
Proof.
  induction l as [| [m k'] l IH]; cbn [JS.insertIndex map snd]; [reflexivity | ].
  destruct (n <=? m)%N; cbn [map snd]; [reflexivity | ].
  rewrite IH. apply perm_swap.
Qed.

Lemma keys_perm (o : JS.object) : Permutation (JS.keys o) (map fst o).
Proof.
  unfold JS.keys. generalize (map fst o) as ks. intros ks.
  induction ks as [| k ks IH]; [reflexivity | ].
  cbn [JS.indexKeys List.filter]. unfold JS.isIndex at 1.
  destruct (JS.arrayIndex k) as [n |]; cbn [negb].
  - rewrite insertIndex_perm. cbn [app]. now constructor.
  - rewrite <- Permutation_middle. now constructor.
Qed.

Lemma fold_values (o : JS.object) (g h : string -> Z) (ks : list string) (acc : Z) :
  (forall k, In k ks -> JS.Get o k = JS.Num (JS.ofZ (g k))) ->
  (forall k, Z.abs (g k) <= h k) ->
  Z.abs acc + keySum h ks < 2 ^ 53 ->
  fold_left (fun s k => JS.plus s (JS.Get o k)) ks (JS.Num (JS.ofZ acc))
  = JS.Num (JS.ofZ (acc + keySum g ks)).
Proof.
  intros Hget Hgh. revert acc.
  assert (Hnn : forall ks', 0 <= keySum h ks').
  { induction ks' as [| k ks' IH]; [reflexivity | ].
    change (0 <= h k + keySum h ks'). specialize (Hgh k). lia. }
  induction ks as [| k ks IH]; intros acc Hb.
  - cbn. now rewrite Z.add_0_r.
  - change (Z.abs acc + (h k + keySum h ks) < 2 ^ 53) in Hb.
    change (keySum g (k :: ks)) with (g k + keySum g ks).
    pose proof (Hgh k). pose proof (Hnn ks).
    cbn [fold_left]. rewrite (Hget k) by (cbn; auto).
    change (JS.plus (JS.Num ?a) (JS.Num ?b)) with (JS.Num (JS.add a b)).
    rewrite NumberFacts.add_ofZ by lia.
    rewrite IH; [f_equal; f_equal; lia | | lia].
    intros k' Hin. apply Hget. cbn. auto.
Qed.

End BreakdownFacts.

Module ConsistencyFacts.

Lemma sumValues_summary (o : JS.object) (ks : list string) (a : number) :
  (forall k, In k ks -> exists v, JS.Get o k = JS.Num v) ->
  fold_left (fun s k => JS.plus s (JS.Get o k)) ks (JS.Num a)
  = JS.Num (fold_left (fun sum item => JS.add sum (amount item)) (summary o ks) a).
Proof.
  revert a. induction ks as [| k ks IH]; intros a H; [reflexivity | ].
  cbn [fold_left summary map]. destruct (H k (or_introl eq_refl)) as [v Hv].
  rewrite Hv. cbn [JS.ToNumber expense amount item_amount].
  change (JS.plus (JS.Num a) (JS.Num v)) with (JS.Num (JS.add a v)).
  apply IH. intros k' Hin. apply H. now right.
Qed.

(** When each value [o[k]] is a finite number within
    [n k * B k / 2^52] of [x k], so is the breakdown as a whole. *)
Lemma summary_bounds (o : JS.object) (x B n : string -> Z) (ks : list string) :
  (forall k, In k ks ->
     exists v, JS.Get o k = JS.Num v /\ finiteNumber v = true /\
               2 ^ 52 * Z.abs (units v - x k) <= n k * B k) ->
  (forall k, Z.abs (x k) <= B k) ->
  (forall k, 0 <= n k <= 2 ^ 52) ->
  Forall (fun ex => finiteNumber (amount ex) = true) (summary o ks) /\
  2 ^ 52 * Z.abs (exactUnits (summary o ks) - keySum x ks)
  <= keySum n ks * keySum B ks /\
  magnitude (summary o ks) <= 2 * keySum B ks /\
  0 <= keySum n ks /\ 0 <= keySum B ks.
Proof.
  intros value_ok x_le_B n_range.
  induction ks as [| k ks IH].
  - cbn. repeat split; try constructor; discriminate.
  - destruct IH as (IH1 & IH2 & IH3 & IH4 & IH5).
    { intros k' Hin. apply value_ok. now right. }
    destruct (value_ok k (or_introl eq_refl)) as (v & Hv & Hfin & Herr).
    pose proof (x_le_B k). pose proof (n_range k).
    change (summary o (k :: ks)) with (expense (JS.ToNumber (JS.Get o k)) k :: summary o ks).
    rewrite Hv. cbn [JS.ToNumber].
    change (exactUnits (?e :: ?r)) with (units (amount e) + exactUnits r).
    change (magnitude (?e :: ?r)) with (Z.abs (units (amount e)) + magnitude r).
    change (keySum ?g (k :: ks)) with (g k + keySum g ks).
    cbn [expense amount item_amount].
    assert (P52 : 2 ^ 52 = 4503599627370496) by reflexivity.
    assert (0 <= B k) by lia.
    assert (Hu : Z.abs (units v) <= 2 * B k) by nia.
    split; [constructor; [exact Hfin | exact IH1] | ].
    split; [ | split; [lia | split; lia]].
    assert (2 ^ 52 * Z.abs (units v + exactUnits (summary o ks) - (x k + keySum x ks))
            <= n k * B k + keySum n ks * keySum B ks) by lia.
    nia.
Qed.

Lemma exactUnits_le_magnitude (l : list Expense) : Z.abs (exactUnits l) <= magnitude l.
Proof.
  induction l as [| x l IH]; [reflexivity | ].
  change (Z.abs (units (amount x) + exactUnits l)
          <= Z.abs (units (amount x)) + magnitude l). lia.
Qed.

Lemma sumOf_ones (l : list Expense) : sumOf (fun _ => 1) l = Z.of_nat (List.length l).
Proof.
  induction l as [| x l IH]; [reflexivity | ].
  change (sumOf (fun _ => 1) (x :: l)) with (1 + sumOf (fun _ => 1) l).
  rewrite IH, length_cons. lia.
Qed.

Lemma length_firstOccurrences (ks : list string) :
  (List.length (firstOccurrences ks) <= List.length ks)%nat.
Proof.
  induction ks as [| k ks IH]; [apply le_n | ].
  cbn [firstOccurrences List.length].
  pose proof (filter_length_le (fun k' => negb (k' =? k)%string) (firstOccurrences ks)).
  lia.
Qed.

(** The total and the sum of the breakdown are two running sums of the
    same amounts: each is close to the exact sum. *)
Lemma total_near_breakdown (l : list Expense) :
  Forall (fun ex => inheritedName (category ex) = false) l ->
  Forall (fun ex => finiteNumber (amount ex) = true) l ->
  Z.of_nat (List.length l) <= 2 ^ 52 -> 2 * magnitude l < maxUnits ->
  exists v,
    sumValues (Main.byCategory (Main.calculateTotals l)) = JS.Num v /\
    finiteNumber v = true /\
    2 ^ 52 * Z.abs (units v - units (Main.total (Main.calculateTotals l)))
    <= 4 * Z.of_nat (List.length l) * magnitude l.
Proof.
  intros Hn Hf Hlen HB.
  destruct (ObjectFacts.byCategory_own l Hn) as [Hk Hv].
  set (o := Main.byCategory (Main.calculateTotals l)) in *.
  pose proof (BreakdownFacts.keys_perm o) as Hperm. rewrite Hk in Hperm.
  pose proof (RoundingFacts.magnitude_nonneg l) as Hm0.
  set (x := fun k => exactUnits (withCategory k l)).
  set (B := fun k => magnitude (withCategory k l)).
  set (n := fun k => Z.of_nat (List.length (withCategory k l))).
  assert (Hsub : forall k, Forall (fun ex => finiteNumber (amount ex) = true)
                                  (withCategory k l)).
  { intros k. unfold withCategory. apply Forall_forall. intros ex Hin.
    apply filter_In in Hin as [Hin _]. revert ex Hin. now apply Forall_forall. }
  destruct (summary_bounds o x B n (JS.keys o)) as (S1 & S2 & S3 & S4 & S5).
  { intros k Hin.
    assert (M : mentions k l = true).
    { apply mentions_In, In_firstOccurrences.
      eapply Permutation_in; [exact Hperm | exact Hin]. }
    destruct (magnitude_withCategory k l) as [Hmk Hlk].
    exists (Main.total (Main.calculateTotals (withCategory k l))). split.
    - unfold JS.Get. rewrite Hv, M. f_equal. apply categoryTotal_finite; [exact Hf | exact Hlen | lia].
    - apply total_error; [apply Hsub | lia | lia]. }
  { intros k. apply exactUnits_le_magnitude. }
  { intros k. unfold n. destruct (magnitude_withCategory k l) as [_ Hlk]. lia. }
  assert (Ex : keySum x (JS.keys o) = exactUnits l).
  { rewrite (BreakdownFacts.keySum_perm x _ _ Hperm).
    apply (BreakdownFacts.partition_sum (fun ex => units (amount ex))). }
  assert (EB : keySum B (JS.keys o) = magnitude l).
  { rewrite (BreakdownFacts.keySum_perm B _ _ Hperm).
    apply (BreakdownFacts.partition_sum (fun ex => Z.abs (units (amount ex)))). }
  assert (En : keySum n (JS.keys o) = Z.of_nat (List.length l)).
  { rewrite (BreakdownFacts.keySum_perm n _ _ Hperm). rewrite <- sumOf_ones.
    rewrite <- (BreakdownFacts.partition_sum (fun _ => 1) l).
    apply BreakdownFacts.keySum_ext. intros k _. unfold n. now rewrite sumOf_ones. }
  rewrite Ex, EB, En in *.
  assert (Hms : (List.length (summary o (JS.keys o)) <= List.length l)%nat).
  { unfold summary. rewrite length_map, (Permutation_length Hperm).
    pose proof (length_firstOccurrences (map category l)) as H.
    now rewrite length_map in H. }
  destruct (total_error (summary o (JS.keys o)) S1) as [T1 T2]; [lia | lia | ].
  destruct (total_error l Hf Hlen) as [_ L2]; [lia | ].
  exists (Main.total (Main.calculateTotals (summary o (JS.keys o)))).
  split; [ | split; [exact T1 | ]].
  - unfold sumValues. rewrite sumValues_summary; [reflexivity | ].
    intros k Hin.
    assert (M : mentions k l = true).
    { apply mentions_In, In_firstOccurrences.
      eapply Permutation_in; [exact Hperm | exact Hin]. }
    unfold JS.Get. rewrite Hv, M. eauto.
  - set (m := Z.of_nat (List.length (summary o (JS.keys o)))) in *.
    assert (m <= Z.of_nat (List.length l)) by (unfold m; lia).
    assert (0 <= m) by (unfold m; lia).
    assert (m * magnitude (summary o (JS.keys o))
            <= Z.of_nat (List.length l) * (2 * magnitude l)) by nia.
    lia.
Qed.

(** On integers short of 2^53 no addition rounds, and the two sums are
    the same number. *)
Lemma total_equals_breakdown (l : list Expense) :
  Forall (fun ex => inheritedName (category ex) = false) l ->
  Forall integerAmount l -> absSum l < 2 ^ 53 ->
  sumValues (Main.byCategory (Main.calculateTotals l))
  = JS.Num (Main.total (Main.calculateTotals l)).
Proof.
  intros Hn Hi Hb.
  destruct (ObjectFacts.byCategory_own l Hn) as [Hk Hv].
  set (o := Main.byCategory (Main.calculateTotals l)) in *.
  pose proof (BreakdownFacts.keys_perm o) as Hperm. rewrite Hk in Hperm.
  set (g := fun k => exactSum (withCategory k l)).
  set (h := fun k => absSum (withCategory k l)).
  assert (Eg : keySum g (JS.keys o) = exactSum l).
  { rewrite (BreakdownFacts.keySum_perm g _ _ Hperm).
    apply (BreakdownFacts.partition_sum (fun ex => trunc (amount ex))). }
  assert (Eh : keySum h (JS.keys o) = absSum l).
  { rewrite (BreakdownFacts.keySum_perm h _ _ Hperm).
    apply (BreakdownFacts.partition_sum (fun ex => Z.abs (trunc (amount ex)))). }
  unfold sumValues. change JS.posZero with (JS.ofZ 0).
  rewrite (BreakdownFacts.fold_values o g h).
  - rewrite Eg. cbn [Main.calculateTotals Main.total]. change JS.posZero with (JS.ofZ 0).
    rewrite total_integers by (trivial; cbn; lia). reflexivity.
  - intros k Hin. unfold JS.Get. rewrite Hv.
    assert (M : mentions k l = true).
    { apply mentions_In, In_firstOccurrences.
      eapply Permutation_in; [exact Hperm | exact Hin]. }
    rewrite M. f_equal. now apply categoryTotal_integers.
  - intros k. apply exactSum_le_absSum.
  - rewrite Eh. cbn [Z.abs]. lia.
Qed.

End ConsistencyFacts.

(** C10 (amended). When no label is the name of a property of
    [Object.prototype], the values of [byCategory] add up to the total
    up to rounding: for [n] finite amounts of total magnitude [B] the two
    numbers differ by at most [4 * n * B / 2^52]; when every amount is an
    integer and the absolute values add up to less than 2^53 they are
    equal. *)
Theorem C10_total_matches_breakdown (l : list Expense) :
  Forall (fun ex => inheritedName (category ex) = false) l ->
  let T := Main.total (Main.calculateTotals l) in
  let o := Main.byCategory (Main.calculateTotals l) in
  (Forall (fun ex => finiteNumber (amount ex) = true) l ->
   Z.of_nat (List.length l) <= 2 ^ 52 -> 2 * magnitude l < maxUnits ->
   exists v, sumValues o = JS.Num v /\ finiteNumber v = true /\
             2 ^ 52 * Z.abs (units v - units T)
             <= 4 * Z.of_nat (List.length l) * magnitude l) /\
  (Forall integerAmount l -> absSum l < 2 ^ 53 -> sumValues o = JS.Num T).
Proof.
  intros Hn T o. split.
  - intros Hf Hlen HB. now apply ConsistencyFacts.total_near_breakdown.
  - intros Hi Hb. now apply ConsistencyFacts.total_equals_breakdown.
Qed.

(** C10, as stated, fails: additions in a different order round
    differently.  0.1 + 0.2 + 0.3 is 0.6000000000000001 record by record,
    and 0.1 + (0.2 + 0.3) is 0.6 category by category. *)
Lemma C10_counterexample :
  let l := [expense (JS.parseFloat "0.1") "Food"; expense (JS.parseFloat "0.2") "Rent";
            expense (JS.parseFloat "0.3") "Rent"] in
  Main.total (Main.calculateTotals l) = S754_finite false 5404319552844596 (-53) /\
  sumValues (Main.byCategory (Main.calculateTotals l))
  = JS.Num (S754_finite false 5404319552844595 (-53)) /\
  sumValues (Main.byCategory (Main.calculateTotals l))
  <> JS.Num (Main.total (Main.calculateTotals l)).
Proof. repeat split. lazy. discriminate. Qed.

Lemma C10_witness :
  let l := [expense (JS.ofZ 10) "Food"; expense (JS.ofZ 20) "2";
            expense (JS.ofZ 5) "Food"] in
  let T := Main.total (Main.calculateTotals l) in
  let o := Main.byCategory (Main.calculateTotals l) in
  Forall (fun ex => inheritedName (category ex) = false) l /\
  (exists v, sumValues o = JS.Num v /\ finiteNumber v = true /\
             2 ^ 52 * Z.abs (units v - units T)
             <= 4 * Z.of_nat (List.length l) * magnitude l) /\
  sumValues o = JS.Num T.
Proof.
  intros l T o.
  assert (Hn : Forall (fun ex => inheritedName (category ex) = false) l)
    by (repeat constructor).
  assert (Hf : Forall (fun ex => finiteNumber (amount ex) = true) l)
    by (repeat constructor).
  assert (Hlen : Z.of_nat (List.length l) <= 2 ^ 52) by (vm_compute; discriminate).
  assert (HB : 2 * magnitude l < maxUnits) by (vm_compute; reflexivity).
  assert (Hi : Forall integerAmount l) by (repeat constructor).
  assert (Hb : absSum l < 2 ^ 53) by reflexivity.
  destruct (C10_total_matches_breakdown l Hn) as [H1 H2].
  split; [exact Hn | split; [exact (H1 Hf Hlen HB) | exact (H2 Hi Hb)]].
Defined.

(** ** Saving *)

Lemma nonEmpty_false (x : string) : Main.nonEmpty x = false <-> x = "".
Proof. destruct x; cbn; split; congruence. Qed.

Lemma saveExpense_blank (s : Main.State) (t : Main.Table) (now : Z) :
  blank s -> Main.saveExpense s t now = Main.Fulfilled (s, t).
Proof.
  intros [H | H]; apply nonEmpty_false in H; unfold Main.saveExpense; rewrite H;
    cbn [negb orb]; [ | rewrite orb_true_r]; reflexivity.
Qed.

Lemma saveExpense_filled (s : Main.State) (t : Main.Table) (now : Z) :
  ~ blank s ->
  Main.saveExpense s t now
  = let a := JS.parseFloat (Main.st_amount s) in
    let '(t', e') :=
      match Main.editing (Main.st_editingId s) with
      | Some i => (Main.sqlUpdate a (Main.st_category s) (Main.st_note s) i t, None)
      | None =>
          (Main.sqlInsert a (Main.st_category s) (Main.st_note s) (toISOString now) t,
           Main.st_editingId s)
      end in
    Main.Fulfilled
      (Main.loadExpenses
         (Main.mkState (Main.st_expenses s) "" "" "" (Main.st_filter s) e') t', t').
Proof.
  intros H. unfold Main.saveExpense.
  destruct (Main.nonEmpty (Main.st_amount s)) eqn:Ea.
  - destruct (Main.nonEmpty (Main.st_category s)) eqn:Ec; [reflexivity | ].
    apply nonEmpty_false in Ec. elim H. now right.
  - apply nonEmpty_false in Ea. elim H. now left.
Qed.

(** C2 (amended). On malformed input the save reports nothing to its
    caller: with an empty amount or an empty category it returns at
    once and leaves the state and the table as they are; otherwise it
    runs its INSERT or UPDATE with the NaN that [parseFloat] gives bound
    for the amount. *)
Theorem C2_save_reports_nothing (s : Main.State) (t : Main.Table) (now : Z) :
  malformed s ->
  exists s' t',
    Main.saveExpense s t now = Main.Fulfilled (s', t') /\
    (blank s -> s' = s /\ t' = t) /\
    (~ blank s ->
     t' = match Main.editing (Main.st_editingId s) with
          | Some i => Main.sqlUpdate JS.NaN (Main.st_category s) (Main.st_note s) i t
          | None => Main.sqlInsert JS.NaN (Main.st_category s) (Main.st_note s)
                                   (toISOString now) t
          end).
Proof.
  intros Hm.
  assert (Hb : blank s \/ ~ blank s).
  { unfold blank. destruct (Main.st_amount s); [auto | ].
    destruct (Main.st_category s); [auto | ]. right. intros [H | H]; discriminate H. }
  destruct Hb as [Hb | Hb].
  - exists s, t. rewrite saveExpense_blank by exact Hb.
    split; [reflexivity | split; [auto | tauto]].
  - assert (Hnan : JS.parseFloat (Main.st_amount s) = JS.NaN).
    { destruct Hm as [H | H]; [exact H | ]. elim Hb. now right. }
    rewrite (saveExpense_filled s t now Hb), Hnan. cbv zeta.
    destruct (Main.editing (Main.st_editingId s)) as [i |];
      eexists _, _; (split; [reflexivity | split; [tauto | reflexivity]]).
Qed.

(** C2, as stated, fails: no input makes the save reject.  A record with
    no category is dropped in silence, and a record whose amount is not
    a number is written, with the amount NaN bound to the statement: the
    column holds NULL for it, and the row reads with the amount
    [null]. *)
Lemma C2_counterexample :
  let t := Main.mkTable [] 0 in
  malformed (form "12.50" "" "lunch" None) /\
  Main.saveExpense (form "12.50" "" "lunch" None) t 1763856000000
  = Main.Fulfilled (form "12.50" "" "lunch" None, t) /\
  malformed (form "abc" "Food" "" None) /\
  Main.saveExpense (form "abc" "Food" "" None) t 1763856000000
  = Main.Fulfilled
      (Main.mkState [mkRow 1 None "Food" "" "2025-11-23T00:00:00.000Z"]
                    "" "" "" "All" None,
       Main.mkTable [mkRow 1 None "Food" "" "2025-11-23T00:00:00.000Z"] 1).
Proof.
  cbv zeta. split; [right; reflexivity | ]. split; [reflexivity | ].
  split; [left; reflexivity | reflexivity].
Qed.

Lemma C2_witness :
  let s := form "abc" "Food" "" None in
  let t := Main.mkTable [] 0 in
  malformed s /\
  exists s' t',
    Main.saveExpense s t 1763856000000 = Main.Fulfilled (s', t') /\
    (blank s -> s' = s /\ t' = t) /\
    (~ blank s ->
     t' = match Main.editing (Main.st_editingId s) with
          | Some i => Main.sqlUpdate JS.NaN (Main.st_category s) (Main.st_note s) i t
          | None => Main.sqlInsert JS.NaN (Main.st_category s) (Main.st_note s)
                                   (toISOString 1763856000000) t
          end).
Proof.
  intros s t.
  assert (Hm : malformed s) by (left; reflexivity).
  split; [exact Hm | ]. exact (C2_save_reports_nothing s t 1763856000000 Hm).
Defined.

(** C9. An edit, that is a save while [editingId] holds the id [i] of a
    record, keeps the table row for row: every row keeps its id and its
    date, a row with another id is unchanged, and, when the form is
    filled in, a row with the id [i] takes the category and the note of
    the form and, for its amount, what the column holds for the number
    that [parseFloat] reads in the form. *)
Theorem C9_edit_keeps_id_and_date
    (s : Main.State) (t : Main.Table) (now i : Z) :
  Main.editing (Main.st_editingId s) = Some i ->
  exists s' t',
    Main.saveExpense s t now = Main.Fulfilled (s', t') /\
    List.length (Main.rows t') = List.length (Main.rows t) /\
    forall n r, nth_error (Main.rows t) n = Some r ->
      exists r', nth_error (Main.rows t') n = Some r' /\
        id r' = id r /\ date r' = date r /\
        (id r <> i -> r' = r) /\
        (id r = i -> ~ blank s ->
         r' = mkRow (id r) (Main.realColumn (JS.parseFloat (Main.st_amount s)))
                    (Main.st_category s) (Main.st_note s) (date r)).
Proof.
  intros He.
  assert (Hb : blank s \/ ~ blank s).
  { unfold blank. destruct (Main.st_amount s); [auto | ].
    destruct (Main.st_category s); [auto | ]. right. intros [H | H]; discriminate H. }
  destruct Hb as [Hb | Hb].
  - exists s, t. rewrite saveExpense_blank by exact Hb.
    split; [reflexivity | split; [reflexivity | ]].
    intros n r Hr. exists r. repeat split; trivial. tauto.
  - rewrite (saveExpense_filled s t now Hb), He. cbv zeta.
    eexists _, _. split; [reflexivity | ]. cbn [Main.sqlUpdate Main.rows].
    split; [apply length_map | ].
    intros n r Hr. rewrite nth_error_map, Hr. cbn [option_map].
    eexists. split; [reflexivity | ].
    destruct (Z.eqb_spec (id r) i) as [E | N]; cbn [id date]; repeat split; tauto.
Qed.

Lemma C9_witness :
  let row1 := mkExpense 1 (JS.ofZ 10) "Food" "lunch" "2025-11-23T00:00:00.000Z" in
  let row2 := mkExpense 2 (JS.ofZ 20) "Rent" "" "2025-11-24T00:00:00.000Z" in
  let s := Main.mkState [row2; row1] "12" "Food" "dinner" "All" (Some 1) in
  let t := Main.mkTable [row1; row2] 2 in
  Main.editing (Main.st_editingId s) = Some 1 /\
  exists s' t',
    Main.saveExpense s t 1763900000000 = Main.Fulfilled (s', t') /\
    List.length (Main.rows t') = List.length (Main.rows t) /\
    forall n r, nth_error (Main.rows t) n = Some r ->
      exists r', nth_error (Main.rows t') n = Some r' /\
        id r' = id r /\ date r' = date r /\
        (id r <> 1 -> r' = r) /\
        (id r = 1 -> ~ blank s ->
         r' = mkRow (id r) (Main.realColumn (JS.parseFloat (Main.st_amount s)))
                    (Main.st_category s) (Main.st_note s) (date r)).
Proof.
  intros row1 row2 s t.
  assert (He : Main.editing (Main.st_editingId s) = Some 1) by reflexivity.
  split; [exact He | ]. exact (C9_edit_keeps_id_and_date s t 1763900000000 1 He).
Defined.

Example edit_amount_of_a_record :
  let row1 := mkExpense 1 (JS.ofZ 10) "Food" "lunch" "2025-11-23T00:00:00.000Z" in
  let row2 := mkExpense 2 (JS.ofZ 20) "Rent" "" "2025-11-24T00:00:00.000Z" in
  let s := Main.mkState [row2; row1] "12" "Food" "lunch" "All" (Some 1) in
  Main.saveExpense s (Main.mkTable [row1; row2] 2) 1763900000000
  = let row1' := mkExpense 1 (JS.ofZ 12) "Food" "lunch" "2025-11-23T00:00:00.000Z" in
    Main.Fulfilled (Main.mkState [row2; row1'] "" "" "" "All" None,
                    Main.mkTable [row1'; row2] 2).
Proof. reflexivity. Qed.

(** ** Worked examples *)

Example parseISO_toISOString :
  toISOString wednesdayNoon = "2025-11-26T12:00:00.000Z" /\
  parseISO "2025-11-26T12:00:00.000Z" = Some wednesdayNoon /\
  parseISO "26/11/2025" = None /\ parseISO "2025-02-30T00:00:00.000Z" = None.
Proof. repeat split. Qed.

Example filter_week_then_totals :
  let visible :=
    Main.getFilteredExpenses zonePlus5 parseISO "Week" sampleExpenses wednesdayNoon in
  visible = [mkExpense 3 (JS.ofZ 10) "Food" "" "2025-11-26T09:00:00.000Z"] /\
  Main.getFilteredExpenses zonePlus5 parseISO "Month" sampleExpenses wednesdayNoon
  = [ mkExpense 3 (JS.ofZ 10) "Food" "" "2025-11-26T09:00:00.000Z";
      mkExpense 2 (JS.parseFloat "5.50") "Food" "" "2025-11-18T09:00:00.000Z";
      mkExpense 1 (JS.ofZ 20) "Rent" "" "2025-11-01T00:00:00.000Z" ] /\
  Main.calculateTotals sampleExpenses
  = Main.mkTotals (JS.parseFloat "35.5")
      [("Food", JS.Num (JS.parseFloat "15.5")); ("Rent", JS.Num (JS.ofZ 20))].
Proof. repeat split. Qed.

Lemma C4_witness :
  (clock_in_range wednesdayNoon /\ zone_bounded zonePlus5 /\
   same_local_day zonePlus5
     (MakeDate (Day (Main.LocalTime zonePlus5 wednesdayNoon)
                - WeekDay (Main.LocalTime zonePlus5 wednesdayNoon))
               (TimeWithinDay (Main.LocalTime zonePlus5 wednesdayNoon)))) /\
  (let b := weekStartLocal zonePlus5 wednesdayNoon in
   (WeekDay b = 0 /\ TimeWithinDay b = 0 /\
    b <= Main.LocalTime zonePlus5 wednesdayNoon < b + 7 * msPerDay) /\
   Main.getFilteredExpenses zonePlus5 parseISO "Week" sampleExpenses wednesdayNoon
   = List.filter (on_or_after parseISO (Main.UTC zonePlus5 b)) sampleExpenses).
Proof.
  assert (H1 : clock_in_range wednesdayNoon)
    by (unfold clock_in_range, wednesdayNoon, maxTime, msPerDay; lia).
  assert (H2 : zone_bounded zonePlus5)
    by (intros t b; unfold zonePlus5, msPerHour, msPerDay; lia).
  assert (H3 : same_local_day zonePlus5
            (MakeDate (Day (Main.LocalTime zonePlus5 wednesdayNoon)
                       - WeekDay (Main.LocalTime zonePlus5 wednesdayNoon))
                      (TimeWithinDay (Main.LocalTime zonePlus5 wednesdayNoon))))
    by reflexivity.
  split; [repeat split; assumption | ].
  exact (C4_filter_week zonePlus5 parseISO sampleExpenses wednesdayNoon H1 H2 H3).
Defined.

Lemma C5_witness :
  (clock_in_range wednesdayNoon /\ zone_bounded zonePlus5 /\
   ~ (0 <= YearFromTime (Main.LocalTime zonePlus5 wednesdayNoon) <= 99)) /\
  (let b := monthStartLocal zonePlus5 wednesdayNoon in
   (YearFromTime b = YearFromTime (Main.LocalTime zonePlus5 wednesdayNoon) /\
    MonthFromTime b = MonthFromTime (Main.LocalTime zonePlus5 wednesdayNoon) /\
    DateFromTime b = 1 /\ TimeWithinDay b = 0 /\
    b <= Main.LocalTime zonePlus5 wednesdayNoon) /\
   Main.getFilteredExpenses zonePlus5 parseISO "Month" sampleExpenses wednesdayNoon
   = List.filter (on_or_after parseISO (Main.UTC zonePlus5 b)) sampleExpenses /\
   (forall ex t, In ex sampleExpenses -> parseISO (date ex) = Some t ->
      Main.UTC zonePlus5 b <= t ->
      In ex (Main.getFilteredExpenses zonePlus5 parseISO "Month" sampleExpenses
                                      wednesdayNoon))).
Proof.
  assert (H1 : clock_in_range wednesdayNoon)
    by (unfold clock_in_range, wednesdayNoon, maxTime, msPerDay; lia).
  assert (H2 : zone_bounded zonePlus5)
    by (intros t b; unfold zonePlus5, msPerHour, msPerDay; lia).
  assert (H3 : ~ (0 <= YearFromTime (Main.LocalTime zonePlus5 wednesdayNoon) <= 99))
    by (intros [_ H]; vm_compute in H; apply H; reflexivity).
  split; [repeat split; assumption | ].
  exact (C5_filter_month zonePlus5 parseISO sampleExpenses wednesdayNoon H1 H2 H3).
Defined.

(** * The rest of the component

    Loading and adding, the keys and the texts of the summary, the
    timestamps and the amounts as text, and the worlds the screen gets
    to. *)

(** ** Loading and adding *)

Module TableFacts.

Lemma insertById_perm (r : Expense) (l : list Expense) :
  Permutation (Main.insertById r l) (r :: l).
Proof.
  induction l as [| r' l IH]; [reflexivity | ].
  cbn [Main.insertById]. destruct (id r' <=? id r); [reflexivity | ].
  rewrite IH. apply perm_swap.
Qed.

Lemma sqlSelectAll_perm (t : Main.Table) :
  Permutation (Main.sqlSelectAll t) (Main.rows t).
Proof.
  unfold Main.sqlSelectAll. induction (Main.rows t) as [| r l IH]; [reflexivity | ].
  cbn [fold_right]. rewrite insertById_perm. now constructor.
Qed.

Lemma insertById_sorted (r : Expense) (l : list Expense) :
  StronglySorted descending l -> StronglySorted descending (Main.insertById r l).
Proof.
  induction l as [| r' l IH]; intros H.
  - repeat constructor.
  - cbn [Main.insertById]. destruct (id r' <=? id r) eqn:E.
    + apply Z.leb_le in E. constructor; [exact H | ].
      inversion H as [| ? ? _ Hall]; subst. constructor; [exact E | ].
      eapply Forall_impl; [ | exact Hall]. unfold descending. intros; lia.
    + apply Z.leb_gt in E.
      inversion H as [| ? ? Hs Hall]; subst.
      constructor; [now apply IH | ].
      eapply Permutation_Forall; [symmetry; apply insertById_perm | ].
      constructor; [unfold descending; lia | exact Hall].
Qed.

Lemma sqlSelectAll_sorted (t : Main.Table) :
  StronglySorted descending (Main.sqlSelectAll t).
Proof.
  unfold Main.sqlSelectAll. induction (Main.rows t) as [| r l IH]; [constructor | ].
  cbn [fold_right]. now apply insertById_sorted.
Qed.

Lemma sqlSelectAll_In (t : Main.Table) (r : Expense) :
  In r (Main.sqlSelectAll t) <-> In r (Main.rows t).
Proof.
  split; apply Permutation_in; [ | symmetry]; apply sqlSelectAll_perm.
Qed.

(** A row whose id is above all others comes first. *)
Lemma select_newest (r : Expense) (l acc : list Expense) :
  Forall (fun r' => id r' < id r) l ->
  fold_right Main.insertById (r :: acc) l = r :: fold_right Main.insertById acc l.
Proof.
  induction l as [| x l IH]; intros H; [reflexivity | ].
  inversion H as [| ? ? Hx Hl]; subst.
  cbn [fold_right]. rewrite (IH Hl). cbn [Main.insertById].
  destruct (id r <=? id x) eqn:E; [apply Z.leb_le in E; lia | reflexivity].
Qed.

Lemma max_id_bound (l : list Expense) (m : Z) :
  m <= fold_left (fun m r => Z.max m (id r)) l m /\
  Forall (fun r => id r <= fold_left (fun m r => Z.max m (id r)) l m) l.
Proof.
  revert m. induction l as [| x l IH]; intros m; [split; [cbn; lia | constructor] | ].
  cbn [fold_left]. destruct (IH (Z.max m (id x))) as [H1 H2]. split; [lia | ].
  constructor; [lia | exact H2].
Qed.

Lemma sqlInsert_spec (a : number) (c n d : string) (t : Main.Table) :
  let t' := Main.sqlInsert a c n d t in
  let r := mkRow (Main.lastId t') (Main.realColumn a) c n d in
  Main.rows t' = Main.rows t ++ [r] /\
  Main.lastId t < Main.lastId t' /\
  Forall (fun r' => id r' < Main.lastId t') (Main.rows t).
Proof.
  cbv zeta. unfold Main.sqlInsert. cbn [Main.rows Main.lastId].
  destruct (max_id_bound (Main.rows t) (Main.lastId t)) as [H1 H2].
  split; [reflexivity | split; [lia | ]].
  eapply Forall_impl; [ | exact H2]. cbn beta. intros; lia.
Qed.

Lemma sqlSelectAll_insert (a : number) (c n d : string) (t : Main.Table) :
  let t' := Main.sqlInsert a c n d t in
  Main.sqlSelectAll t'
  = mkRow (Main.lastId t') (Main.realColumn a) c n d :: Main.sqlSelectAll t.
Proof.
  cbv zeta. destruct (sqlInsert_spec a c n d t) as (H1 & _ & H3).
  unfold Main.sqlSelectAll. rewrite H1, fold_right_app. cbn [fold_right Main.insertById].
  now apply select_newest.
Qed.

End TableFacts.

(** X1. [loadExpenses] puts into the state the rows of the table, each
    once, in the descending order of their ids; the form, the filter and
    the edit mode stay as they are. *)
Theorem X1_load_sorted (s : Main.State) (t : Main.Table) :
  let s' := Main.loadExpenses s t in
  Permutation (Main.st_expenses s') (Main.rows t) /\
  StronglySorted descending (Main.st_expenses s') /\
  (Main.st_amount s', Main.st_category s', Main.st_note s') =
  (Main.st_amount s, Main.st_category s, Main.st_note s) /\
  Main.st_filter s' = Main.st_filter s /\
  Main.st_editingId s' = Main.st_editingId s.
Proof.
  cbv zeta. cbn [Main.loadExpenses Main.st_expenses Main.st_amount Main.st_category
                 Main.st_note Main.st_filter Main.st_editingId].
  split; [apply TableFacts.sqlSelectAll_perm | ].
  split; [apply TableFacts.sqlSelectAll_sorted | ].
  repeat split.
Qed.

Lemma nonEmpty_true (x : string) : x <> ""%string -> Main.nonEmpty x = true.
Proof. destruct x; [congruence | reflexivity]. Qed.

Lemma saveExpense_add (s : Main.State) (t : Main.Table) (now : Z) :
  Main.st_amount s <> ""%string -> Main.st_category s <> ""%string ->
  Main.editing (Main.st_editingId s) = None ->
  let t' := Main.sqlInsert (JS.parseFloat (Main.st_amount s)) (Main.st_category s)
                           (Main.st_note s) (toISOString now) t in
  Main.saveExpense s t now
  = Main.Fulfilled
      (Main.mkState (Main.sqlSelectAll t') "" "" "" (Main.st_filter s) (Main.st_editingId s),
       t').
Proof.
  intros Ha Hc He. cbv zeta. unfold Main.saveExpense.
  rewrite (nonEmpty_true _ Ha), (nonEmpty_true _ Hc), He. reflexivity.
Qed.

(** X2. With an amount and a category in the form and no edit going on,
    [saveExpense] appends one row to the table and leaves the others as
    they are: the row has the category and the note of the form, the
    ISO text of the clock as its date, an id above every id of the
    table and, for its amount, what the REAL column holds for the number
    that [parseFloat] reads in the form (NULL for NaN, [+0] for a zero,
    the number itself otherwise); it heads the list of the state, and
    the form is cleared. *)
Theorem X2_save_adds_one_row (s : Main.State) (t : Main.Table) (now : Z) :
  Main.st_amount s <> ""%string -> Main.st_category s <> ""%string ->
  Main.editing (Main.st_editingId s) = None ->
  exists (s' : Main.State) (t' : Main.Table) (i : Z),
    let r := mkRow i (Main.realColumn (JS.parseFloat (Main.st_amount s)))
                   (Main.st_category s) (Main.st_note s) (toISOString now) in
    Main.saveExpense s t now = Main.Fulfilled (s', t') /\
    Main.rows t' = Main.rows t ++ [r] /\
    Forall (fun r' => id r' < i) (Main.rows t) /\
    Main.lastId t < i /\ Main.lastId t' = i /\
    Main.st_expenses s' = r :: Main.sqlSelectAll t /\
    (Main.st_amount s', Main.st_category s', Main.st_note s') = (""%string, ""%string, ""%string) /\
    Main.st_filter s' = Main.st_filter s.
Proof.
  intros Ha Hc He.
  pose proof (saveExpense_add s t now Ha Hc He) as E. cbv zeta in E.
  set (t' := Main.sqlInsert _ _ _ _ t) in E.
  destruct (TableFacts.sqlInsert_spec (JS.parseFloat (Main.st_amount s)) (Main.st_category s)
              (Main.st_note s) (toISOString now) t) as (H1 & H2 & H3).
  fold t' in H1, H2, H3.
  eexists _, t', (Main.lastId t'). cbv zeta.
  split; [exact E | ].
  split; [exact H1 | split; [exact H3 | split; [exact H2 | split; [reflexivity | ]]]].
  cbn [Main.st_expenses Main.st_amount Main.st_category Main.st_note Main.st_filter].
  split; [apply TableFacts.sqlSelectAll_insert | split; reflexivity].
Qed.

Lemma X2_witness :
  let s := form "5.50" "Food" "lunch" None in
  let t := Main.mkTable [mkExpense 1 (JS.ofZ 20) "Rent" "" "2025-11-01T00:00:00.000Z"] 1 in
  (Main.st_amount s <> ""%string /\ Main.st_category s <> ""%string /\
   Main.editing (Main.st_editingId s) = None) /\
  exists (s' : Main.State) (t' : Main.Table) (i : Z),
    let r := mkRow i (Main.realColumn (JS.parseFloat "5.50")) "Food" "lunch"
                   (toISOString wednesdayNoon) in
    Main.saveExpense s t wednesdayNoon = Main.Fulfilled (s', t') /\
    Main.rows t' = Main.rows t ++ [r] /\
    Forall (fun r' => id r' < i) (Main.rows t) /\
    Main.lastId t < i /\ Main.lastId t' = i /\
    Main.st_expenses s' = r :: Main.sqlSelectAll t /\
    (Main.st_amount s', Main.st_category s', Main.st_note s') = (""%string, ""%string, ""%string) /\
    Main.st_filter s' = Main.st_filter s.
Proof.
  intros s t.
  assert (Ha : Main.st_amount s <> ""%string) by discriminate.
  assert (Hc : Main.st_category s <> ""%string) by discriminate.
  assert (He : Main.editing (Main.st_editingId s) = None) by reflexivity.
  split; [repeat split; assumption | ].
  exact (X2_save_adds_one_row s t wednesdayNoon Ha Hc He).
Defined.

(** X3. [addExpense], the handler of the version without an edit mode,
    is [saveExpense] with no edit going on: the two give the same state
    and the same table. *)
Theorem X3_add_is_save (s : Main.State) (t : Main.Table) (now : Z) :
  Main.editing (Main.st_editingId s) = None ->
  Main.addExpense s t now = Main.saveExpense s t now.
Proof.
  intros He. unfold Main.addExpense, Main.saveExpense. rewrite He. reflexivity.
Qed.

Lemma X3_witness :
  let s := form "5.50" "Food" "lunch" None in
  let t := Main.mkTable [] 0 in
  Main.editing (Main.st_editingId s) = None /\
  Main.addExpense s t wednesdayNoon = Main.saveExpense s t wednesdayNoon.
Proof.
  intros s t. split; [reflexivity | ].
  exact (X3_add_is_save s t wednesdayNoon eq_refl).
Defined.

(** X12. [deleteTask] never settles well and never touches the
    expenses: its statement is on the table [tasks], and the call of
    [loadTasks] after it throws. *)
Theorem X12_deleteTask_rejects (db : Main.Database) (i : Z) :
  (exists reason, fst (Main.deleteTask db i) = Main.Rejected reason) /\
  Main.expensesTable (snd (Main.deleteTask db i)) = Main.expensesTable db.
Proof.
  unfold Main.deleteTask. destruct (Main.tasksTable db); cbn; eauto.
Qed.

(** ** The keys and the texts of the summary *)

Module KeyFacts.

Import ObjectFacts.

Lemma nonempty_text (k : string) (t : list JS.piece) :
  JS.ToBoolean (JS.Str (JS.OfBuiltin k :: t)) = true.
Proof. reflexivity. Qed.

Lemma categoryValue_other (k : string) (l : list Expense) (x : Expense) :
  category x <> k -> categoryValue k (l ++ [x]) = categoryValue k l.
Proof.
  intros N. unfold categoryValue. rewrite categoryTotal_snoc, withCategory_snoc.
  destruct (String.eqb_spec (category x) k); [congruence | reflexivity].
Qed.

Lemma mentions_other (k : string) (l : list Expense) (x : Expense) :
  category x <> k -> mentions k (l ++ [x]) = mentions k l.
Proof.
  intros N. rewrite mentions_snoc.
  destruct (String.eqb_spec k (category x)); [congruence | apply orb_false_r].
Qed.

Lemma mentions_last (l : list Expense) (x : Expense) :
  mentions (category x) (l ++ [x]) = true.
Proof. rewrite mentions_snoc, String.eqb_refl. apply orb_true_r. Qed.

Lemma categoryValue_last (l : list Expense) (x : Expense) :
  stored (category x) = true ->
  let acc := Main.byCategory (Main.calculateTotals l) in
  JS.getOwn acc (category x)
  = (if mentions (category x) l then Some (categoryValue (category x) l) else None) ->
  JS.plus (JS.or (JS.Get acc (category x)) (JS.Num JS.posZero))
          (JS.ofColumn (item_amount x))
  = categoryValue (category x) (l ++ [x]).
Proof.
  intros Hs acc G. unfold JS.Get. rewrite G.
  unfold categoryValue. rewrite categoryTotal_snoc, withCategory_snoc.
  rewrite String.eqb_refl.
  destruct (mentions (category x) l) eqn:M.
  - destruct (inheritedName (category x)) eqn:I.
    + unfold JS.or. rewrite nonempty_text. cbn [JS.plus JS.ToPrimitive JS.ToString].
      rewrite flat_map_app. cbn [flat_map]. rewrite app_nil_r.
      now destruct (item_amount x).
    + unfold JS.or, accumulate.
      destruct (JS.ToBoolean (JS.Num (categoryTotal (category x) l))); apply plus_amount.
  - fold (inheritedName (category x)).
    assert (W : withCategory (category x) l = []).
    { apply BreakdownFacts.withCategory_unmentioned. intros H.
      apply mentions_In in H. congruence. }
    destruct (inheritedName (category x)) eqn:I.
    + rewrite W. cbn [app flat_map]. rewrite app_nil_r.
      now destruct (item_amount x).
    + rewrite (categoryTotal_unmentioned _ l M). apply plus_amount.
Qed.

(** The own properties of [byCategory], whatever the labels are. *)
Lemma byCategory_own_all (l : list Expense) :
  let o := Main.byCategory (Main.calculateTotals l) in
  map fst o = List.filter stored (firstOccurrences (map category l)) /\
  forall k, JS.getOwn o k
            = if stored k && mentions k l then Some (categoryValue k l) else None.
Proof.
  induction l as [| x l IH] using rev_ind; intros o.
  - split; [reflexivity | ]. intros k. cbn. now rewrite andb_false_r.
  - destruct IH as [IHk IHv].
    subst o. rewrite byCategory_snoc.
    set (acc := Main.byCategory (Main.calculateTotals l)) in *. cbv zeta.
    rewrite map_app. cbn [map]. rewrite firstOccurrences_snoc. fold (mentions (category x) l).
    pose proof (IHv (category x)) as G.
    unfold JS.Set_.
    destruct (stored (category x)) eqn:Hs.
    + pose proof (categoryValue_last l x Hs) as Hv. cbv zeta in Hv. fold acc in Hv.
      cbn [andb] in G. rewrite (Hv G). clear Hv.
      assert (Hne : (category x =? "__proto__")%string = false).
      { unfold stored in Hs. now apply negb_true_iff in Hs. }
      rewrite G.
      destruct (mentions (category x) l) eqn:M.
      * split; [rewrite keys_setOwn; exact IHk | ].
        intros k. rewrite getOwn_setOwn, G.
        destruct (String.eqb_spec (category x) k) as [<- | N].
        -- now rewrite Hs, mentions_last.
        -- now rewrite IHv, mentions_other, categoryValue_other.
      * rewrite Hne. split.
        { rewrite map_app, IHk, filter_app. cbn [List.filter map]. now rewrite Hs. }
        intros k. rewrite getOwn_app.
        destruct (String.eqb_spec (category x) k) as [<- | N].
        -- now rewrite G, Hs, mentions_last.
        -- rewrite IHv, mentions_other, categoryValue_other by exact N.
           now destruct (stored k && mentions k l).
    + assert (Hp : (category x =? "__proto__")%string = true).
      { unfold stored in Hs. now apply negb_false_iff in Hs. }
      cbn [andb] in G. rewrite G, Hp.
      split.
      { destruct (mentions (category x) l); trivial.
        rewrite filter_app. cbn [List.filter]. rewrite Hs.
        rewrite app_nil_r. exact IHk. }
      intros k. rewrite IHv.
      destruct (String.eqb_spec (category x) k) as [<- | N].
      * now rewrite Hs.
      * now rewrite mentions_other, categoryValue_other.
Qed.

Lemma stored_firstOccurrences (l : list Expense) (k : string) :
  In k (List.filter stored (firstOccurrences (map category l)))
  <-> mentions k l = true /\ k <> "__proto__"%string.
Proof.
  rewrite filter_In, In_firstOccurrences, mentions_In. unfold stored.
  rewrite negb_true_iff. 
  destruct (String.eqb_spec k "__proto__"); intuition congruence.
Qed.

Lemma insertIndex_sorted (n : N) (k : string) (l : list (N * string)) :
  StronglySorted (fun a b => (fst a <= fst b)%N) l ->
  StronglySorted (fun a b => (fst a <= fst b)%N) (JS.insertIndex n k l).
Proof.
  induction l as [| [m k'] l IH]; intros H; [repeat constructor | ].
  cbn [JS.insertIndex]. destruct (n <=? m)%N eqn:E.
  - apply N.leb_le in E. constructor; [exact H | ].
    inversion H as [| ? ? _ Hall]; subst. constructor; [exact E | ].
    eapply Forall_impl; [ | exact Hall]. cbn. intros; lia.
  - apply N.leb_gt in E. inversion H as [| ? ? Hs Hall]; subst.
    constructor; [now apply IH | ].
    assert (P : forall l', Forall (fun b => (m <= fst b)%N) l' ->
                Forall (fun b => (m <= fst b)%N) (JS.insertIndex n k l')).
    { induction l' as [| [m' k''] l' IH']; intros F; cbn [JS.insertIndex].
      - constructor; [cbn; lia | constructor].
      - destruct (n <=? m')%N; [constructor; [cbn; lia | exact F] | ].
        inversion F; subst. constructor; auto. }
    now apply P.
Qed.

Lemma indexKeys_sorted (ks : list string) :
  StronglySorted (fun a b => (fst a <= fst b)%N) (JS.indexKeys ks).
Proof.
  induction ks as [| k ks IH]; [constructor | ].
  cbn [JS.indexKeys]. destruct (JS.arrayIndex k); [now apply insertIndex_sorted | exact IH].
Qed.

Lemma insertIndex_arrayIndex (n : N) (k : string) (l : list (N * string)) :
  JS.arrayIndex k = Some n ->
  Forall (fun p => JS.arrayIndex (snd p) = Some (fst p)) l ->
  Forall (fun p => JS.arrayIndex (snd p) = Some (fst p)) (JS.insertIndex n k l).
Proof.
  intros Hk. induction l as [| [m k'] l IH]; intros F; cbn [JS.insertIndex].
  - repeat constructor. exact Hk.
  - destruct (n <=? m)%N; [constructor; [exact Hk | exact F] | ].
    inversion F; subst. constructor; auto.
Qed.

Lemma indexKeys_arrayIndex (ks : list string) :
  Forall (fun p => JS.arrayIndex (snd p) = Some (fst p)) (JS.indexKeys ks).
Proof.
  induction ks as [| k ks IH]; [constructor | ].
  cbn [JS.indexKeys]. destruct (JS.arrayIndex k) eqn:E; [ | exact IH].
  now apply insertIndex_arrayIndex.
Qed.

End KeyFacts.

Lemma sorted_indices (l : list (N * string)) :
  StronglySorted (fun a b => (fst a <= fst b)%N) l ->
  Forall (fun p => JS.arrayIndex (snd p) = Some (fst p)) l ->
  StronglySorted indexOrder (map snd l) /\
  Forall (fun k => JS.isIndex k = true) (map snd l).
Proof.
  induction l as [| [n k] l IH]; intros Hs Hf; [split; constructor | ].
  inversion Hs as [| ? ? Hs' Hall]; subst. inversion Hf as [| ? ? Hk Hf']; subst.
  destruct (IH Hs' Hf') as [IH1 IH2]. cbn [map snd fst] in *. split.
  - constructor; [exact IH1 | ].
    rewrite Forall_map. rewrite Forall_forall in Hall, Hf' |- *.
    intros [m k'] Hin. exists n, m. cbn [snd].
    split; [exact Hk | split; [exact (Hf' _ Hin) | exact (Hall _ Hin)]].
  - constructor; [unfold JS.isIndex; now rewrite Hk | exact IH2].
Qed.

Lemma keys_of_breakdown (l : list Expense) :
  let ks := JS.keys (Main.byCategory (Main.calculateTotals l)) in
  let labels := firstOccurrences (map category l) in
  NoDup ks /\
  (forall k, In k ks <-> In k (map category l) /\ k <> "__proto__"%string) /\
  exists indices,
    ks = indices ++ List.filter (fun k => negb (JS.isIndex k) && stored k) labels /\
    Forall (fun k => JS.isIndex k = true) indices /\
    StronglySorted indexOrder indices.
Proof.
  intros ks labels.
  destruct (KeyFacts.byCategory_own_all l) as [Hk _].
  set (o := Main.byCategory (Main.calculateTotals l)) in *.
  pose proof (BreakdownFacts.keys_perm o) as Hperm. rewrite Hk in Hperm. fold ks in Hperm.
  split; [ | split].
  - eapply Permutation_NoDup; [symmetry; exact Hperm | ].
    apply NoDup_filter, BreakdownFacts.NoDup_firstOccurrences.
  - intros k. rewrite <- mentions_In, <- KeyFacts.stored_firstOccurrences.
    split; apply Permutation_in; [exact Hperm | symmetry; exact Hperm].
  - exists (map snd (JS.indexKeys (map fst o))).
    destruct (sorted_indices _ (KeyFacts.indexKeys_sorted (map fst o))
                (KeyFacts.indexKeys_arrayIndex (map fst o))) as [S1 S2].
    split; [ | split; assumption].
    unfold ks, JS.keys. f_equal. rewrite Hk. fold labels.
    induction labels as [| k ks' IH]; [reflexivity | ].
    cbn [List.filter]. destruct (stored k); cbn [List.filter].
    + destruct (JS.isIndex k); cbn [negb andb]; [exact IH | now rewrite IH].
    + rewrite andb_false_r. exact IH.
Qed.

(** C3 (amended). When no label names a property of
    [Object.prototype], [byCategory] holds under each label of the list,
    array indices included, the rounds of [(acc || 0) + amount] over the
    records of that label: for finite amounts, short of overflow, the
    running sum that [calculateTotals] gives as the total of these
    records, and for integer amounts below 2^53 in total their exact
    sum.  Its keys are the labels of the list, each once: those that
    are array indices first, in ascending numeric order, then the
    others in the order of their first appearance; without a label that
    is an array index, the keys are the labels in the order of their
    first appearance. *)
Theorem C3_byCategory_values_and_keys (l : list Expense) :
  Forall (fun ex => inheritedName (category ex) = false) l ->
  let o := Main.byCategory (Main.calculateTotals l) in
  let labels := firstOccurrences (map category l) in
  (forall k, In k (map category l) -> JS.Get o k = JS.Num (categoryTotal k l)) /\
  (Forall (fun ex => finiteNumber (amount ex) = true) l ->
   Z.of_nat (List.length l) <= 2 ^ 52 -> magnitude l < maxUnits ->
   forall k, In k (map category l) ->
     JS.Get o k = JS.Num (Main.total (Main.calculateTotals (withCategory k l)))) /\
  (Forall integerAmount l -> absSum l < 2 ^ 53 ->
   forall k, In k (map category l) ->
     JS.Get o k = JS.Num (JS.ofZ (exactSum (withCategory k l)))) /\
  NoDup (JS.keys o) /\
  (forall k, In k (JS.keys o) <-> In k (map category l)) /\
  (exists indices,
     JS.keys o = indices ++ List.filter (fun k => negb (JS.isIndex k)) labels /\
     Forall (fun k => JS.isIndex k = true) indices /\
     StronglySorted indexOrder indices) /\
  (Forall (fun ex => JS.isIndex (category ex) = false) l -> JS.keys o = labels).
Proof.
  intros Hn o labels.
  destruct (ObjectFacts.byCategory_own l Hn) as [Hk Hv]. fold o in Hk, Hv.
  assert (Hget : forall k, In k (map category l) ->
                           JS.Get o k = JS.Num (categoryTotal k l)).
  { intros k Hin. unfold JS.Get. rewrite Hv.
    apply mentions_In in Hin. now rewrite Hin. }
  assert (Hst : forall k, In k (map category l) -> stored k = true).
  { intros k Hin. apply in_map_iff in Hin as (ex & <- & Hex).
    rewrite Forall_forall in Hn. specialize (Hn ex Hex). unfold stored.
    destruct (String.eqb_spec (category ex) "__proto__") as [E | N]; trivial.
    rewrite E in Hn. discriminate Hn. }
  destruct (keys_of_breakdown l) as (Hnd & Hin & indices & Hks & Hidx & Hsorted).
  cbv zeta in Hnd, Hin, Hks. fold o in Hnd, Hin, Hks. fold labels in Hks.
  split; [exact Hget | split; [ | split; [ | split; [exact Hnd | split; [ | split]]]]].
  - intros Hf Hlen HB k Hk'. rewrite (Hget k Hk'). f_equal.
    now apply categoryTotal_finite.
  - intros Hi Hb k Hk'. rewrite (Hget k Hk'). f_equal.
    now apply categoryTotal_integers.
  - intros k. rewrite Hin. split; [tauto | ]. intros Hk'. split; [exact Hk' | ].
    intros ->. specialize (Hst _ Hk'). discriminate Hst.
  - exists indices. split; [ | split; assumption].
    rewrite Hks. f_equal. apply filter_ext_in. intros k Hk'.
    rewrite (Hst k) by (now apply In_firstOccurrences). apply andb_true_r.
  - intros Hp. rewrite keys_without_indices; [exact Hk | ].
    rewrite Hk. apply Forall_forall. intros k Hk'.
    apply In_firstOccurrences, in_map_iff in Hk' as (ex & <- & Hex).
    rewrite Forall_forall in Hp. exact (Hp ex Hex).
Qed.

(** C3, as stated, fails: a label that is an array index comes first in
    the keys, wherever it first appears in the list. *)
Lemma C3_counterexample :
  let l := [expense (JS.ofZ 10) "Food"; expense (JS.ofZ 5) "2"] in
  JS.keys (Main.byCategory (Main.calculateTotals l)) = ["2"; "Food"] /\
  firstOccurrences (map category l) = ["Food"; "2"] /\
  JS.keys (Main.byCategory (Main.calculateTotals l)) <> firstOccurrences (map category l).
Proof. repeat split. discriminate. Qed.

Lemma C3_witness :
  let l := [expense (JS.ofZ 10) "Food"; expense (JS.ofZ 20) "2";
            expense (JS.ofZ 7) "Rent"; expense (JS.ofZ 5) "Food"] in
  let o := Main.byCategory (Main.calculateTotals l) in
  let labels := firstOccurrences (map category l) in
  Forall (fun ex => inheritedName (category ex) = false) l /\
  (forall k, In k (map category l) -> JS.Get o k = JS.Num (categoryTotal k l)) /\
  (Forall (fun ex => finiteNumber (amount ex) = true) l ->
   Z.of_nat (List.length l) <= 2 ^ 52 -> magnitude l < maxUnits ->
   forall k, In k (map category l) ->
     JS.Get o k = JS.Num (Main.total (Main.calculateTotals (withCategory k l)))) /\
  (Forall integerAmount l -> absSum l < 2 ^ 53 ->
   forall k, In k (map category l) ->
     JS.Get o k = JS.Num (JS.ofZ (exactSum (withCategory k l)))) /\
  NoDup (JS.keys o) /\
  (forall k, In k (JS.keys o) <-> In k (map category l)) /\
  (exists indices,
     JS.keys o = indices ++ List.filter (fun k => negb (JS.isIndex k)) labels /\
     Forall (fun k => JS.isIndex k = true) indices /\
     StronglySorted indexOrder indices) /\
  (Forall (fun ex => JS.isIndex (category ex) = false) l -> JS.keys o = labels).
Proof.
  intros l o labels.
  assert (Hn : Forall (fun ex => inheritedName (category ex) = false) l)
    by (repeat constructor).
  split; [exact Hn | ]. exact (C3_byCategory_values_and_keys l Hn).
Defined.

(** X10. The keys of [byCategory], whatever the labels are: every label
    of the list other than [__proto__] is a key, once; the keys that are
    array indices come first, in ascending numeric order; the others
    follow in the order of their first appearance. *)
Theorem X10_keys_of_breakdown (l : list Expense) :
  let ks := JS.keys (Main.byCategory (Main.calculateTotals l)) in
  let labels := firstOccurrences (map category l) in
  NoDup ks /\
  (forall k, In k ks <-> In k (map category l) /\ k <> "__proto__"%string) /\
  exists indices,
    ks = indices ++ List.filter (fun k => negb (JS.isIndex k) && stored k) labels /\
    Forall (fun k => JS.isIndex k = true) indices /\
    StronglySorted indexOrder indices.
Proof. exact (keys_of_breakdown l). Qed.

Section Summary.

Variable Number_toString : number -> string.

Local Abbreviation toFixed := (NumberText.toFixed Number_toString).
Local Abbreviation summarySection := (Screen.summarySection Number_toString).
Local Abbreviation categoryStats := (Screen.categoryStats Number_toString).

Local Abbreviation statText := (Screen.statText Number_toString).

Lemma categoryStats_numbers (o : JS.object) (ks : list string) (f : string -> number) :
  (forall k, In k ks -> JS.Get o k = JS.Num (f k)) ->
  categoryStats o ks
  = Screen.Normal (map (fun k => (k ++ ": $" ++ toFixed (f k))%string) ks).
Proof.
  induction ks as [| k ks IH]; intros H; [reflexivity | ].
  cbn [Screen.categoryStats]. rewrite (H k (or_introl eq_refl)).
  cbn [Screen.callToFixed]. rewrite IH; [reflexivity | ].
  intros k' Hin. apply H. now right.
Qed.

Lemma categoryStats_text (o : JS.object) (ks : list string) :
  (exists k, In k ks /\ forall x, JS.Get o k <> JS.Num x) ->
  (forall k, In k ks -> JS.Get o k <> JS.Undefined) ->
  categoryStats o ks = Screen.Throw "TypeError".
Proof.
  induction ks as [| k ks IH]; intros (k0 & Hin & Hk0) Hd; [destruct Hin | ].
  cbn [Screen.categoryStats].
  destruct (JS.Get o k) as [| | x | t | b] eqn:G; cbn [Screen.callToFixed]; trivial.
  destruct Hin as [-> | Hin]; [now elim (Hk0 x) | ].
  rewrite IH; [reflexivity | eauto | ].
  intros k' Hin'. apply Hd. now right.
Qed.

Lemma textLabel_mentioned (l : list Expense) :
  existsb (fun ex => textLabel (category ex)) l = true <->
  exists k, In k (map category l) /\ textLabel k = true.
Proof.
  rewrite existsb_exists. split.
  - intros (ex & Hin & H). exists (category ex). split; [now apply in_map | exact H].
  - intros (k & Hin & H). apply in_map_iff in Hin as (ex & <- & Hin). eauto.
Qed.

Lemma summary_text (l : list Expense) :
  let t := Main.calculateTotals l in
  summarySection t
  = if existsb (fun ex => textLabel (category ex)) l
    then Screen.Throw "TypeError"
    else Screen.Normal
           (("Total Spending: $" ++ toFixed (Main.total t))%string
            :: map (statText l) (JS.keys (Main.byCategory t))).
Proof.
  intros t. unfold Screen.summarySection. fold t.
  destruct (KeyFacts.byCategory_own_all l) as [_ Hv].
  destruct (keys_of_breakdown l) as (_ & Hin & _). cbv zeta in Hin.
  fold t in Hv, Hin. set (o := Main.byCategory t) in *.
  assert (G : forall k, In k (JS.keys o) -> JS.Get o k = categoryValue k l).
  { intros k Hk. apply Hin in Hk as [Hk Hp]. unfold JS.Get. rewrite Hv.
    apply mentions_In in Hk. rewrite Hk. unfold stored.
    destruct (String.eqb_spec k "__proto__"); [contradiction | reflexivity]. }
  destruct (existsb _ l) eqn:E.
  - apply textLabel_mentioned in E as (k & Hk & Ht).
    unfold textLabel, stored in Ht. apply andb_true_iff in Ht as [Hi Hs].
    rewrite categoryStats_text; [reflexivity | | ].
    + exists k. split.
      * apply Hin. split; [exact Hk | ]. intros ->. discriminate Hs.
      * intros x. rewrite G.
        -- unfold categoryValue. rewrite Hi. discriminate.
        -- apply Hin. split; [exact Hk | ]. intros ->. discriminate Hs.
    + intros k' Hk'. rewrite (G k' Hk'). unfold categoryValue.
      destruct (inheritedName k'); discriminate.
  - rewrite (categoryStats_numbers o (JS.keys o) (fun k => categoryTotal k l));
      [reflexivity | ].
    intros k Hk. rewrite (G k Hk). unfold categoryValue.
    destruct (inheritedName k) eqn:Hi; trivial.
    assert (F : existsb (fun ex => textLabel (category ex)) l = true).
    { apply textLabel_mentioned. exists k. apply Hin in Hk as [Hk Hp].
      split; [exact Hk | ]. unfold textLabel, stored. rewrite Hi.
      destruct (String.eqb_spec k "__proto__"); [contradiction | reflexivity]. }
    congruence.
Qed.

(** X8. The summary section cannot be evaluated as soon as one record
    has a category that names a property of [Object.prototype] other
    than [__proto__] (such as [toString] or [constructor]): the value
    [byCategory] holds for it is a text, which has no [toFixed], and the
    call throws a TypeError.  Without such a record the section is the
    text of the total followed by one text for each key of
    [byCategory], in the order of the keys. *)
Theorem X8_summary_throws_on_inherited_names (l : list Expense) :
  let t := Main.calculateTotals l in
  summarySection t
  = if existsb (fun ex => textLabel (category ex)) l
    then Screen.Throw "TypeError"
    else Screen.Normal
           (("Total Spending: $" ++ toFixed (Main.total t))%string
            :: map (statText l) (JS.keys (Main.byCategory t))).
Proof. exact (summary_text l). Qed.

End Summary.

(** ** Text, and the timestamps *)

Module TextFacts.

Lemma append_assoc (a b c : string) : ((a ++ b) ++ c = a ++ (b ++ c))%string.
Proof. induction a as [| x a IH]; cbn; [reflexivity | now rewrite IH]. Qed.

Lemma append_nil_r (a : string) : (a ++ "")%string = a.
Proof. induction a as [| x a IH]; cbn; [reflexivity | now rewrite IH]. Qed.

Lemma length_append (a b : string) :
  String.length (a ++ b) = (String.length a + String.length b)%nat.
Proof. induction a as [| x a IH]; cbn; [reflexivity | now rewrite IH]. Qed.

Lemma substring_all (s : string) : substring 0 (String.length s) s = s.
Proof. induction s as [| c s IH]; cbn; [reflexivity | now rewrite IH]. Qed.

Lemma substring_head (a b : string) : substring 0 (String.length a) (a ++ b) = a.
Proof.
  induction a as [| c a IH]; cbn [String.length substring append].
  - now destruct b.
  - now rewrite IH.
Qed.

Lemma substring_tail (a b : string) :
  substring (String.length a) (String.length b) (a ++ b) = b.
Proof.
  induction a as [| c a IH]; cbn [String.length substring append]; [ | exact IH].
  apply substring_all.
Qed.

Lemma digitOf_value (d : Z) :
  0 <= d <= 9 -> N_of_ascii (digitOf d) = Z.to_N (48 + d).
Proof. intros H. unfold digitOf. apply N_ascii_embedding. lia. Qed.

Lemma padded_head (w : nat) (n : Z) :
  padded (S w) n = String (digitOf ((n / 10 ^ Z.of_nat w) mod 10)) (padded w n).
Proof.
  revert n. induction w as [| w IH]; intros n.
  - cbn [padded append]. now rewrite Z.pow_0_r, Z.div_1_r.
  - change (padded (S (S w)) n)
      with (padded (S w) (n / 10) ++ String (ascii_of_N (Z.to_N (48 + n mod 10))) "")%string.
    rewrite IH. cbn [append]. f_equal.
    rewrite Nat2Z.inj_succ, Z.pow_succ_r by lia.
    rewrite Z.div_div by lia. reflexivity.
Qed.

Lemma length_padded (w : nat) (n : Z) : String.length (padded w n) = w.
Proof.
  revert n. induction w as [| w IH]; intros n; [reflexivity | ].
  cbn [padded]. rewrite length_append, IH. cbn. lia.
Qed.

Lemma fixedDigits_padded (w : nat) (n acc : Z) (rest : string) :
  fixedDigits w (padded w n ++ rest) acc
  = Some (acc * 10 ^ Z.of_nat w + n mod 10 ^ Z.of_nat w, rest).
Proof.
  revert acc. induction w as [| w IH]; intros acc.
  - cbn [padded append fixedDigits]. rewrite Z.pow_0_r, Z.mod_1_r. do 2 f_equal. lia.
  - rewrite padded_head. cbn [append fixedDigits].
    set (p := 10 ^ Z.of_nat w).
    assert (Hp : 0 < p) by (apply Z.pow_pos_nonneg; lia).
    assert (Hq : 0 <= (n / p) mod 10 <= 9) by (pose proof (Z.mod_pos_bound (n / p) 10); lia).
    rewrite (digitOf_value _ Hq), Z2N.id by lia.
    replace (48 + (n / p) mod 10 - 48) with ((n / p) mod 10) by lia.
    destruct (Z.leb_spec 0 ((n / p) mod 10)); [ | lia].
    destruct (Z.leb_spec ((n / p) mod 10) 9); [ | lia].
    cbn [andb]. rewrite IH. fold p. do 2 f_equal.
    rewrite Nat2Z.inj_succ, Z.pow_succ_r by lia. fold p.
    rewrite (Z.mul_comm 10 p), Z.rem_mul_r by lia. lia.
Qed.

Lemma field_padded (w : nat) (n : Z) (c : ascii) (rest : string) :
  0 <= n < 10 ^ Z.of_nat w ->
  field w (String c "") (padded w n ++ String c rest) = Some (n, rest).
Proof.
  intros H. unfold field. rewrite fixedDigits_padded, Z.mod_small by exact H.
  cbn [Z.mul Z.add String.prefix]. destruct (ascii_dec c c) as [_ | N]; [ | congruence].
  assert (E : String.prefix "" rest = true) by now destruct rest.
  rewrite E. cbn [String.length substring Nat.sub]. rewrite Nat.sub_0_r.
  now rewrite substring_all.
Qed.

End TextFacts.

Module StampFacts.

Import DateFacts.

Lemma time_of_day (t : Z) :
  MakeTime (HourFromTime t) (MinFromTime t) (SecFromTime t) (msFromTime t)
  = TimeWithinDay t /\
  0 <= HourFromTime t <= 23 /\ 0 <= MinFromTime t <= 59 /\
  0 <= SecFromTime t <= 59 /\ 0 <= msFromTime t <= 999.
Proof.
  unfold MakeTime, HourFromTime, MinFromTime, SecFromTime, msFromTime, TimeWithinDay,
    msPerHour, msPerMinute, msPerSecond, msPerDay.
  Z.div_mod_to_equations. lia.
Qed.

Lemma DateFromTime_month (t : Z) :
  DateFromTime t <= daysInMonth (YearFromTime t) (MonthFromTime t).
Proof.
  unfold DateFromTime, MonthFromTime, daysInMonth.
  fold (InLeapYear t).
  assert (H : 0 <= DayWithinYear t < 365 + InLeapYear t).
  { unfold DayWithinYear, InLeapYear, leapDays.
    pose proof (YearFromTime_spec t) as S. rewrite DayFromYear_succ in S. lia. }
  pose proof (leapDays_cases (YearFromTime t)) as L. fold (InLeapYear t) in L.
  revert H. generalize (DayWithinYear t) (InLeapYear t) L. clear. intros d leap L H.
  unfold monthOfDay.
  destruct L; subst leap;
    repeat match goal with
           | |- context [if ?a <? ?b then _ else _] => destruct (Z.ltb_spec a b)
           end; cbn in *; lia.
Qed.

Lemma TimeClip_valid (t : Z) : Z.abs t <= maxTime -> TimeClip t = Some t.
Proof. intros H. unfold TimeClip. now destruct (Z.leb_spec (Z.abs t) maxTime); [ | lia]. Qed.

(** Reading the text [toISOString] writes gives the time value back. *)
Lemma stamp_reads_back (t : Z) :
  Z.abs t <= maxTime -> 0 <= YearFromTime t <= 9999 ->
  parseISO (toISOString t) = Some t.
Proof.
  intros Ht Hy. unfold toISOString.
  destruct (Z.leb_spec 0 (YearFromTime t)); [ | lia].
  destruct (Z.leb_spec (YearFromTime t) 9999); [ | lia]. cbn [andb].
  pose proof (MonthFromTime_range t) as Rm.
  pose proof (DateFromTime_pos t) as Rd1. pose proof (DateFromTime_le t) as Rd2.
  pose proof (DateFromTime_month t) as Rd3.
  destruct (time_of_day t) as (Et & Rh & Rmi & Rs & Rms).
  unfold parseISO.
  repeat (cbn [append]; rewrite TextFacts.field_padded by (cbn; lia)).
  replace (MonthFromTime t + 1 - 1) with (MonthFromTime t) by lia.
  repeat match goal with
         | |- context [?a <=? ?b] => destruct (Z.leb_spec a b); [ | lia]
         end.
  cbn [andb]. rewrite MakeDay_YearMonth, Et.
  replace (Day t - DateFromTime t + DateFromTime t) with (Day t) by lia.
  rewrite <- Day_TimeWithinDay. now apply TimeClip_valid.
Qed.

End StampFacts.

(** ** Digits, and numbers as text *)

Module DigitFacts.

Import TextFacts.

Lemma digit_digitOf (d : Z) : 0 <= d <= 9 -> JS.digit (digitOf d) = Some (Z.to_N d).
Proof.
  intros H. unfold JS.digit. rewrite (digitOf_value d H).
  destruct (N.leb_spec 48 (Z.to_N (48 + d))); [ | lia].
  destruct (N.leb_spec (Z.to_N (48 + d)) 57); [ | lia].
  cbn [andb]. f_equal. lia.
Qed.

Lemma readDigits_padded (w : nat) (n : Z) (rest : string) (acc len : N) :
  JS.readDigits (padded w n ++ rest) acc len
  = JS.readDigits rest (Z.to_N (Z.of_N acc * 10 ^ Z.of_nat w + n mod 10 ^ Z.of_nat w))
                  (len + N.of_nat w).
Proof.
  revert acc len. induction w as [| w IH]; intros acc len.
  - cbn [padded append]. rewrite Z.pow_0_r, Z.mod_1_r. f_equal; lia.
  - rewrite padded_head. cbn [append JS.readDigits].
    set (p := 10 ^ Z.of_nat w).
    assert (Hp : 0 < p) by (apply Z.pow_pos_nonneg; lia).
    assert (Hq : 0 <= (n / p) mod 10 <= 9) by (pose proof (Z.mod_pos_bound (n / p) 10); lia).
    rewrite (digit_digitOf _ Hq), IH. fold p.
    pose proof (Z.mod_pos_bound n p Hp).
    f_equal; [ | lia]. f_equal.
    rewrite Nat2Z.inj_succ, Z.pow_succ_r by lia. fold p.
    rewrite (Z.mul_comm 10 p), Z.rem_mul_r by lia.
    rewrite N2Z.inj_add, N2Z.inj_mul, Z2N.id by lia. change (Z.of_N 10) with 10. lia.
Qed.

Lemma readDigits_stops (rest : string) (acc len : N) :
  stops rest -> JS.readDigits rest acc len = (acc, len, rest).
Proof. destruct rest as [| c r]; cbn; [trivial | now intros ->]. Qed.

Lemma readDigits_number (w : nat) (n : Z) (rest : string) :
  0 <= n < 10 ^ Z.of_nat w -> stops rest ->
  JS.readDigits (padded w n ++ rest) 0 0 = (Z.to_N n, N.of_nat w, rest).
Proof.
  intros H S. rewrite readDigits_padded, (readDigits_stops _ _ _ S).
  rewrite Z.mod_small by exact H. reflexivity.
Qed.

Lemma padded_split (a b : nat) (x : Z) :
  padded (a + b) x = (padded a (x / 10 ^ Z.of_nat b) ++ padded b x)%string.
Proof.
  revert x. induction b as [| b IH]; intros x.
  - rewrite Nat.add_0_r, Z.pow_0_r, Z.div_1_r. cbn [padded]. now rewrite append_nil_r.
  - rewrite Nat.add_succ_r. cbn [padded]. rewrite IH, append_assoc.
    rewrite Z.div_div by (try apply Z.pow_pos_nonneg; lia).
    rewrite Nat2Z.inj_succ, Z.pow_succ_r by lia. reflexivity.
Qed.

Lemma zeros_padded (j : nat) : NumberText.zeros j = padded j 0.
Proof.
  induction j as [| j IH]; [reflexivity | ].
  rewrite padded_head. cbn [NumberText.zeros]. rewrite IH.
  rewrite Z.div_0_l by (apply Z.pow_nonzero; lia). reflexivity.
Qed.

Lemma digitsOf_padded (f : nat) (k : nat) (s : N) :
  (k <= f)%nat -> (1 <= k)%nat -> Z.of_N s < 10 ^ Z.of_nat k ->
  (k = 1%nat \/ 10 ^ (Z.of_nat k - 1) <= Z.of_N s) ->
  NumberText.digitsOf f s = padded k (Z.of_N s).
Proof.
  revert k s. induction f as [| f IH]; intros k s Hf Hk Hlt Hge; [lia | ].
  cbn [NumberText.digitsOf].
  destruct k as [| k]; [lia | ].
  destruct (N.ltb_spec s 10) as [L | G].
  - assert (k = 0%nat).
    { destruct Hge as [E | Hge]; [lia | ].
      destruct k; trivial. exfalso.
      replace (Z.of_nat (S (S k)) - 1) with (Z.succ (Z.of_nat k)) in Hge by lia.
      rewrite Z.pow_succ_r in Hge by lia.
      assert (0 < 10 ^ Z.of_nat k) by (apply Z.pow_pos_nonneg; lia). lia. }
    subst k. cbn [padded append]. unfold NumberText.digitChar. do 2 f_equal.
    rewrite Z.mod_small by lia. lia.
  - assert (k <> 0%nat) by (intros ->; cbn in Hlt; lia).
    cbn [padded].
    change 10 with (Z.of_N 10) at 1. rewrite <- N2Z.inj_div.
    rewrite (IH k (s / 10)%N).
    + unfold NumberText.digitChar. do 3 f_equal.
      apply N2Z.inj.
      rewrite Z2N.id by (pose proof (Z.mod_pos_bound (Z.of_N s) 10); lia).
      rewrite N2Z.inj_add, N2Z.inj_mod. reflexivity.
    + lia.
    + lia.
    + rewrite N2Z.inj_div. change (Z.of_N 10) with 10.
      rewrite Nat2Z.inj_succ, Z.pow_succ_r in Hlt by lia.
      apply Z.div_lt_upper_bound; lia.
    + destruct Hge as [E | Hge]; [lia | ].
      destruct (Nat.eq_dec k 1) as [-> | N1]; [now left | right].
      rewrite N2Z.inj_div. change (Z.of_N 10) with 10.
      replace (Z.of_nat (S k) - 1) with (Z.succ (Z.of_nat k - 1)) in Hge by lia.
      rewrite Z.pow_succ_r in Hge by lia.
      apply Z.div_le_lower_bound; lia.
Qed.

Lemma decimal_padded (s : N) (k : Z) :
  hasDigits s k -> NumberText.decimal s = padded (Z.to_nat k) (Z.of_N s).
Proof.
  intros (Hk & Hlt & Hge). unfold NumberText.decimal.
  apply digitsOf_padded.
  - destruct Hge as [-> | Hge]; [lia | ].
    assert (s <> 0%N).
    { intros ->. assert (0 < 10 ^ (k - 1)) by (apply Z.pow_pos_nonneg; lia).
      change (Z.of_N 0) with 0 in Hge. lia. }
    assert (Hl : 2 ^ (k - 1) <= Z.of_N s).
    { etransitivity; [ | exact Hge]. apply Z.pow_le_mono_l. lia. }
    assert (Hn : (2 ^ Z.to_N (k - 1) <= s)%N).
    { apply N2Z.inj_le. rewrite N2Z.inj_pow, Z2N.id by lia. exact Hl. }
    apply N.log2_le_pow2 in Hn; lia.
  - lia.
  - now rewrite Z2Nat.id by lia.
  - destruct Hge as [-> | Hge]; [now left | right]. now rewrite Z2Nat.id by lia.
Qed.

Lemma hasDigits_exists (s : N) : exists k, hasDigits s k.
Proof.
  assert (H : forall (f : nat) (s : N), (N.to_nat s <= f)%nat -> exists k, hasDigits s k).
  { induction f as [| f IH]; intros s' Hs.
    - exists 1. assert (s' = 0%N) by lia. subst. unfold hasDigits. cbn. lia.
    - destruct (N.ltb_spec s' 10) as [L | G].
      + exists 1. unfold hasDigits. change (10 ^ 1) with 10. lia.
      + destruct (IH (s' / 10)%N) as (k & Hk & Hlt & Hge).
        { assert (s' / 10 < s')%N by (apply N.div_lt; lia). lia. }
        rewrite N2Z.inj_div in Hlt, Hge. change (Z.of_N 10) with 10 in Hlt, Hge.
        exists (k + 1). unfold hasDigits.
        replace (k + 1 - 1) with k by lia.
        rewrite Z.pow_add_r, Z.pow_1_r by lia.
        assert (0 < 10 ^ k) by (apply Z.pow_pos_nonneg; lia).
        split; [lia | split; [ | right]].
        * Z.div_mod_to_equations. nia.
        * destruct Hge as [-> | Hge]; [cbn; lia | ].
          replace k with (Z.succ (k - 1)) at 1 by lia.
          rewrite Z.pow_succ_r by lia. Z.div_mod_to_equations. nia. }
  exact (H (N.to_nat s) s (le_n _)).
Qed.

End DigitFacts.

Module ParseFacts.

Import TextFacts DigitFacts.

Local Open Scope string_scope.
Local Open Scope Z_scope.

Lemma binary_round_aux_sign (neg : bool) (m e : Z) (l : location) :
  binary_round_aux JS.prec JS.emax neg m e l
  = withSign neg (binary_round_aux JS.prec JS.emax false m e l).
Proof.
  unfold binary_round_aux.
  destruct (shr_fexp JS.prec JS.emax m e l) as [mrs e'].
  destruct (shr_fexp JS.prec JS.emax _ e' loc_Exact) as [mrs' e''].
  destruct (shr_m mrs'); trivial.
  now destruct (e'' <=? JS.emax - JS.prec).
Qed.

Lemma ofDecimal_sign (neg : bool) (n : N) (e10 : Z) :
  JS.ofDecimal neg n e10 = withSign neg (JS.ofDecimal false n e10).
Proof.
  unfold JS.ofDecimal. destruct n as [| p]; [reflexivity | ].
  destruct (0 <=? e10).
  - unfold binary_round.
    destruct (shl_align _ _ _) as [mz ez]. apply binary_round_aux_sign.
  - destruct (SFdiv_core_binary _ _ _ _ _ _) as [[q e] l]. apply binary_round_aux_sign.
Qed.

Lemma ofDecimal_shift (neg : bool) (s : N) (j : Z) :
  0 <= j -> JS.ofDecimal neg (Z.to_N (Z.of_N s * 10 ^ j)) 0 = JS.ofDecimal neg s j.
Proof.
  intros Hj. destruct s as [| p]; [reflexivity | ].
  assert (Hp : 0 < 10 ^ j) by (apply Z.pow_pos_nonneg; lia).
  unfold JS.ofDecimal.
  destruct (Z.to_N (Z.of_N (N.pos p) * 10 ^ j)) as [| p'] eqn:E; [lia | ].
  destruct (Z.leb_spec 0 j); [ | lia]. cbn [Z.leb Z.compare Z.pow Z.to_pos].
  f_equal. apply Pos2Z.inj. rewrite !Pos2Z.inj_mul, Z2Pos.id by exact Hp.
  change (Z.pos 1) with 1. lia.
Qed.

Lemma padded_mod (w : nat) (n m : Z) :
  n mod 10 ^ Z.of_nat w = m mod 10 ^ Z.of_nat w -> padded w n = padded w m.
Proof.
  revert n m. induction w as [| w IH]; intros n m H; [reflexivity | ].
  cbn [padded]. rewrite Nat2Z.inj_succ, Z.pow_succ_r in H by lia.
  assert (Hp : 0 < 10 ^ Z.of_nat w) by (apply Z.pow_pos_nonneg; lia).
  rewrite !(Z.rem_mul_r _ 10 (10 ^ Z.of_nat w)) in H by lia.
  assert (n mod 10 = m mod 10 /\ (n / 10) mod 10 ^ Z.of_nat w = (m / 10) mod 10 ^ Z.of_nat w)
    as [E1 E2].
  { pose proof (Z.mod_pos_bound n 10). pose proof (Z.mod_pos_bound m 10).
    pose proof (Z.mod_pos_bound (n / 10) _ Hp). pose proof (Z.mod_pos_bound (m / 10) _ Hp).
    nia. }
  now rewrite E1, (IH _ _ E2).
Qed.

Lemma prefix_Infinity (q : Z) (r : string) :
  0 <= q <= 9 -> String.prefix "Infinity" (String (digitOf q) r) = false.
Proof.
  intros H. cbn [String.prefix].
  destruct (ascii_dec "I" (digitOf q)) as [E | N]; [ | reflexivity].
  apply (f_equal N_of_ascii) in E. rewrite (digitOf_value q H) in E.
  change (N_of_ascii "I") with 73%N in E. lia.
Qed.

Lemma padded_first (a : nat) (x : Z) :
  (1 <= a)%nat -> exists q r, 0 <= q <= 9 /\ padded a x = String (digitOf q) r.
Proof.
  intros H. destruct a as [| a]; [lia | ]. rewrite padded_head.
  eexists _, _. split; [ | reflexivity].
  pose proof (Z.mod_pos_bound (x / 10 ^ Z.of_nat a) 10). lia.
Qed.

Lemma readExponent_text (tail : string) (ex : Z) :
  exponentPart tail ex -> JS.readExponent tail = ex.
Proof.
  intros [[-> ->] | ->]; [reflexivity | ].
  destruct (hasDigits_exists (Z.abs_N ex)) as [k Hk].
  pose proof Hk as (Hk1 & Hk2 & _).
  unfold NumberText.exponentText. rewrite (decimal_padded _ _ Hk).
  assert (R : JS.readDigits (padded (Z.to_nat k) (Z.of_N (Z.abs_N ex))) 0 0
              = (Z.abs_N ex, N.of_nat (Z.to_nat k), "")).
  { rewrite <- (append_nil_r (padded _ _)), readDigits_number;
      [now rewrite N2Z.id | | exact I].
    rewrite Z2Nat.id by lia. lia. }
  assert (L : (N.of_nat (Z.to_nat k) =? 0)%N = false) by (apply N.eqb_neq; lia).
  destruct (Z.ltb_spec ex 0); cbn [append JS.readExponent Ascii.eqb Bool.eqb orb];
    rewrite R, L; lia.
Qed.

Lemma exponentPart_stops (tail : string) (ex : Z) :
  exponentPart tail ex -> stops tail /\ match tail with String "." _ => False | _ => True end.
Proof. intros [[-> _] | ->]; cbn; auto. Qed.

Lemma parseUnsigned_plain (neg : bool) (a : nat) (x : Z) (tail : string) (ex : Z) :
  (1 <= a)%nat -> 0 <= x < 10 ^ Z.of_nat a -> exponentPart tail ex ->
  JS.parseUnsigned neg (padded a x ++ tail) = JS.ofDecimal neg (Z.to_N x) ex.
Proof.
  intros Ha Hx Ht. unfold JS.parseUnsigned.
  destruct (padded_first a x Ha) as (q & r & Hq & E).
  rewrite E at 1. cbn [append]. rewrite (prefix_Infinity q _ Hq).
  destruct (exponentPart_stops _ _ Ht) as [St Np].
  rewrite (readDigits_number a x tail Hx St).
  assert (L : (N.of_nat a + 0 =? 0)%N = false) by (apply N.eqb_neq; lia).
  rewrite <- (readExponent_text _ _ Ht).
  destruct tail as [| c t]; [rewrite L; f_equal; lia | ].
  destruct Ht as [[Ht _] | Ht]; [discriminate | ].
  injection Ht as -> ->. cbn [append]. rewrite L. f_equal. lia.
Qed.

Lemma parseUnsigned_point (neg : bool) (a b : nat) (x y : Z) (tail : string) (ex : Z) :
  (1 <= a)%nat -> 0 <= x < 10 ^ Z.of_nat a -> 0 <= y < 10 ^ Z.of_nat b ->
  exponentPart tail ex ->
  JS.parseUnsigned neg (padded a x ++ "." ++ padded b y ++ tail)
  = JS.ofDecimal neg (Z.to_N (x * 10 ^ Z.of_nat b + y)) (ex - Z.of_nat b).
Proof.
  intros Ha Hx Hy Ht. unfold JS.parseUnsigned.
  destruct (padded_first a x Ha) as (q & r & Hq & E).
  rewrite E at 1. cbn [append]. rewrite (prefix_Infinity q _ Hq).
  destruct (exponentPart_stops _ _ Ht) as [St _].
  rewrite (readDigits_number a x _ Hx) by reflexivity.
  rewrite readDigits_padded, (readDigits_stops _ _ _ St).
  rewrite Z2N.id, (Z.mod_small y) by lia.
  assert (L : (N.of_nat a + (0 + N.of_nat b) =? 0)%N = false) by (apply N.eqb_neq; lia).
  rewrite L, (readExponent_text _ _ Ht). f_equal. lia.
Qed.


Lemma substring_padded_head (a b : nat) (x : Z) :
  substring 0 a (padded (a + b) x) = padded a (x / 10 ^ Z.of_nat b).
Proof.
  rewrite padded_split.
  pose proof (substring_head (padded a (x / 10 ^ Z.of_nat b)) (padded b x)) as H.
  now rewrite length_padded in H.
Qed.

Lemma substring_padded_tail (a b : nat) (x : Z) :
  substring a b (padded (a + b) x) = padded b x.
Proof.
  rewrite padded_split.
  pose proof (substring_tail (padded a (x / 10 ^ Z.of_nat b)) (padded b x)) as H.
  now rewrite !length_padded in H.
Qed.

Lemma exponent_layout (neg : bool) (s : N) (k n : Z) :
  1 <= k -> 10 ^ (k - 1) <= Z.of_N s < 10 ^ k ->
  JS.parseUnsigned neg
    (if k =? 1
     then padded (Z.to_nat k) (Z.of_N s) ++ "e" ++ NumberText.exponentText (n - 1)
     else substring 0 1 (padded (Z.to_nat k) (Z.of_N s)) ++ "." ++
          substring 1 (Z.to_nat (k - 1)) (padded (Z.to_nat k) (Z.of_N s)) ++
          "e" ++ NumberText.exponentText (n - 1))
  = JS.ofDecimal neg s (n - k).
Proof.
  intros Hk Hs. set (z := Z.of_N s) in *.
  assert (Ek : Z.of_nat (Z.to_nat k) = k) by lia.
  destruct (Z.eqb_spec k 1) as [-> | N1].
  - rewrite (parseUnsigned_plain neg _ _ _ (n - 1)); [ | lia | cbn in *; lia | now right].
    unfold z. now rewrite N2Z.id.
  - replace (Z.to_nat k) with (1 + Z.to_nat (k - 1))%nat by lia.
    rewrite substring_padded_head, substring_padded_tail.
    assert (Eb : Z.of_nat (Z.to_nat (k - 1)) = k - 1) by lia.
    assert (Hb : 0 < 10 ^ (k - 1)) by (apply Z.pow_pos_nonneg; lia).
    rewrite Eb.
    replace (padded (Z.to_nat (k - 1)) z) with (padded (Z.to_nat (k - 1)) (z mod 10 ^ (k - 1)))
      by (apply padded_mod; rewrite Eb, Z.mod_mod by lia; reflexivity).
    rewrite (parseUnsigned_point neg _ _ _ _ _ (n - 1)); [ | lia | | | now right].
    + rewrite Eb. f_equal; [ | lia].
      rewrite <- (N2Z.id s). fold z. f_equal.
      pose proof (Z.div_mod z (10 ^ (k - 1))). lia.
    + change (Z.of_nat 1) with 1. change (10 ^ 1) with 10.
      split; [apply Z.div_pos; lia | ].
      apply Z.div_lt_upper_bound; [lia | ].
      replace k with (Z.succ (k - 1)) in Hs at 2 by lia.
      rewrite Z.pow_succ_r in Hs by lia. lia.
    + rewrite Eb. apply Z.mod_pos_bound. lia.
Qed.

(** [parseFloat] reads each layout of digits back as the decimal it
    writes. *)
Lemma parseUnsigned_layout (neg : bool) (s : N) (k n : Z) :
  1 <= k -> 10 ^ (k - 1) <= Z.of_N s < 10 ^ k ->
  JS.parseUnsigned neg (NumberText.layout s k n) = JS.ofDecimal neg s (n - k).
Proof.
  intros Hk Hs.
  assert (Hd : hasDigits s k) by (unfold hasDigits; lia).
  assert (Hp : 0 < 10 ^ (k - 1)) by (apply Z.pow_pos_nonneg; lia).
  unfold NumberText.layout. rewrite (decimal_padded s k Hd).
  set (z := Z.of_N s) in *.
  assert (Ek : Z.of_nat (Z.to_nat k) = k) by lia.
  destruct (Z.leb_spec k n) as [L1 | L1]; [destruct (Z.leb_spec n 21) as [L2 | L2] | ];
    cbn [andb].
  - (* digits followed by zeros *)
    rewrite zeros_padded.
    assert (Ej : Z.of_nat (Z.to_nat (n - k)) = n - k) by lia.
    assert (Hj : 0 < 10 ^ (n - k)) by (apply Z.pow_pos_nonneg; lia).
    assert (E : padded (Z.to_nat k) z ++ padded (Z.to_nat (n - k)) 0
                = padded (Z.to_nat k + Z.to_nat (n - k)) (z * 10 ^ (n - k))).
    { rewrite padded_split, Ej, Z.div_mul by lia. f_equal.
      apply padded_mod. rewrite Ej, Z.mod_mul, Z.mod_0_l by lia. reflexivity. }
    rewrite E.
    rewrite <- (append_nil_r (padded _ _)).
    rewrite (parseUnsigned_plain neg _ _ "" 0); [ | lia | | now left].
    + apply ofDecimal_shift. lia.
    + rewrite Nat2Z.inj_add, Ek, Ej, Z.pow_add_r by lia. nia.
  - (* exponent notation, above 21 *)
    rewrite andb_false_r. destruct (Z.leb_spec n 0); [lia | ].
    rewrite andb_false_r. apply exponent_layout; assumption.
  - destruct (Z.ltb_spec 0 n) as [L3 | L3]; [destruct (Z.leb_spec n 21) as [L4 | L4] | ];
      cbn [andb].
    + (* digits around a point *)
      replace (Z.to_nat k) with (Z.to_nat n + Z.to_nat (k - n))%nat by lia.
      rewrite substring_padded_head, substring_padded_tail.
      assert (Eb : Z.of_nat (Z.to_nat (k - n)) = k - n) by lia.
      assert (En : Z.of_nat (Z.to_nat n) = n) by lia.
      assert (Hb : 0 < 10 ^ (k - n)) by (apply Z.pow_pos_nonneg; lia).
      rewrite Eb.
      replace (padded (Z.to_nat (k - n)) z) with (padded (Z.to_nat (k - n)) (z mod 10 ^ (k - n)))
        by (apply padded_mod; rewrite Eb, Z.mod_mod by lia; reflexivity).
      rewrite <- (append_nil_r (padded (Z.to_nat (k - n)) _)).
      rewrite (parseUnsigned_point neg _ _ _ _ "" 0); [ | lia | | | now left].
      * rewrite Eb. f_equal; [ | lia].
        rewrite <- (N2Z.id s). fold z. f_equal.
        pose proof (Z.div_mod z (10 ^ (k - n))). lia.
      * rewrite En. split; [apply Z.div_pos; lia | ].
        apply Z.div_lt_upper_bound; [lia | ].
        rewrite <- Z.pow_add_r by lia. replace (k - n + n) with k by lia. lia.
      * rewrite Eb. apply Z.mod_pos_bound. lia.
    + destruct (Z.leb_spec n 0); [lia | ].
      rewrite andb_false_r. apply exponent_layout; assumption.
    + destruct (Z.ltb_spec (-6) n) as [L5 | L5]; [destruct (Z.leb_spec n 0) as [L6 | L6] | ];
        cbn [andb]; [ | lia | apply exponent_layout; assumption].
      (* zeros after the point *)
      rewrite zeros_padded.
      assert (E : padded (Z.to_nat (- n)) 0 ++ padded (Z.to_nat k) z
                  = padded (Z.to_nat (- n) + Z.to_nat k) z).
      { rewrite padded_split, Ek, Z.div_small by lia. reflexivity. }
      rewrite E.
      change "0." with (padded 1 0 ++ ".").
      rewrite append_assoc.
      rewrite <- (append_nil_r (padded (Z.to_nat (- n) + Z.to_nat k) _)).
      rewrite (parseUnsigned_point neg 1 _ 0 z "" 0); [ | lia | cbn; lia | | now left].
      * f_equal; [ | lia]. apply N2Z.inj. rewrite Z2N.id by lia. unfold z. lia.
      * rewrite Nat2Z.inj_add, Ek, Z.pow_add_r by lia.
        assert (0 < 10 ^ Z.of_nat (Z.to_nat (- n))) by (apply Z.pow_pos_nonneg; lia).
        nia.
Qed.


Lemma parseFloat_digit (q : Z) (r : string) :
  0 <= q <= 9 ->
  JS.parseFloat (String (digitOf q) r) = JS.parseUnsigned false (String (digitOf q) r).
Proof.
  intros H.
  assert (q = 0 \/ q = 1 \/ q = 2 \/ q = 3 \/ q = 4 \/ q = 5 \/ q = 6 \/ q = 7
          \/ q = 8 \/ q = 9) as C by lia.
  repeat (destruct C as [-> | C]; [reflexivity | ]). subst q. reflexivity.
Qed.

Lemma parseFloat_minus (t : string) :
  JS.parseFloat ("-" ++ t) = JS.parseUnsigned true t.
Proof. reflexivity. Qed.

Lemma substring_first (c : ascii) (r : string) (n : nat) :
  (1 <= n)%nat -> exists r', substring 0 n (String c r) = String c r'.
Proof. intros H. destruct n as [| n]; [lia | ]. cbn. eauto. Qed.

Lemma layout_first (s : N) (k n : Z) :
  1 <= k -> 10 ^ (k - 1) <= Z.of_N s < 10 ^ k ->
  exists q r, 0 <= q <= 9 /\ NumberText.layout s k n = String (digitOf q) r.
Proof.
  intros Hk Hs.
  assert (Hd : hasDigits s k) by (unfold hasDigits; lia).
  unfold NumberText.layout. rewrite (decimal_padded s k Hd).
  destruct (padded_first (Z.to_nat k) (Z.of_N s)) as (q & r & Hq & E); [lia | ].
  rewrite E.
  destruct ((k <=? n) && (n <=? 21)); [exists q; eexists; split; [exact Hq | reflexivity] | ].
  destruct (Z.ltb_spec 0 n); cbn [andb].
  - destruct (n <=? 21).
    + destruct (substring_first (digitOf q) r (Z.to_nat n)) as [r' E']; [lia | ].
      rewrite E'. exists q. eexists. split; [exact Hq | reflexivity].
    + destruct ((-6 <? n) && (n <=? 0)); [exists 0; eexists; split; [lia | reflexivity] | ].
      destruct (k =? 1); exists q; eexists; (split; [exact Hq | reflexivity]).
  - destruct ((-6 <? n) && (n <=? 0)); [exists 0; eexists; split; [lia | reflexivity] | ].
    destruct (k =? 1); exists q; eexists; (split; [exact Hq | reflexivity]).
Qed.

Lemma parseFloat_layout (neg : bool) (s : N) (k n : Z) :
  1 <= k -> 10 ^ (k - 1) <= Z.of_N s < 10 ^ k ->
  JS.parseFloat ((if neg then "-" else "") ++ NumberText.layout s k n)
  = JS.ofDecimal neg s (n - k).
Proof.
  intros Hk Hs. destruct neg.
  - rewrite parseFloat_minus. now apply parseUnsigned_layout.
  - cbn [append]. destruct (layout_first s k n Hk Hs) as (q & r & Hq & E).
    rewrite <- (parseUnsigned_layout false s k n Hk Hs), E. now apply parseFloat_digit.
Qed.

Lemma textOf_filled (x : number) (text : string) :
  NumberText.textOf x text -> text <> "".
Proof.
  destruct x as [z | [|] | | neg m e]; cbn [NumberText.textOf];
    try (intros ->; discriminate).
  intros (s & k & n & Hs & Hk & _ & ->).
  destruct (layout_first s k n Hk Hs) as (q & r & _ & ->).
  destruct neg; discriminate.
Qed.

(** The text of a number reads back as the number, but for the sign of
    a negative zero. *)
Lemma parseFloat_textOf (x : number) (text : string) :
  NumberText.textOf x text -> x <> S754_zero true -> JS.parseFloat text = x.
Proof.
  destruct x as [[|] | [|] | | neg m e]; cbn [NumberText.textOf];
    try (intros -> _; reflexivity); try (intros _ N; congruence).
  intros (s & k & n & Hs & Hk & E & ->) _.
  rewrite (parseFloat_layout neg s k n Hk Hs), ofDecimal_sign, E. reflexivity.
Qed.

Lemma not_point (c : ascii) (rest : string) (i : N) :
  Ascii.eqb c "." = false ->
  match String c rest with
  | String "." t => JS.readDigits t i 0
  | _ => (i, 0%N, String c rest)
  end = (i, 0%N, String c rest).
Proof.
  destruct c as [[|] [|] [|] [|] [|] [|] [|] [|]]; intros H; try reflexivity;
    discriminate H.
Qed.

Lemma parseFloat_prefix (n : N) (c : ascii) (rest : string) :
  continues c = false ->
  JS.parseFloat (NumberText.decimal n ++ String c rest) = JS.ofZ (Z.of_N n).
Proof.
  unfold continues. destruct (JS.digit c) eqn:D; [discriminate | ]. intros Hc.
  apply orb_false_iff in Hc as [Hc HE]. apply orb_false_iff in Hc as [Hp He].
  destruct (hasDigits_exists n) as [k Hk]. pose proof Hk as (Hk1 & Hk2 & _).
  rewrite (decimal_padded n k Hk).
  destruct (padded_first (Z.to_nat k) (Z.of_N n)) as (q & r & Hq & E); [lia | ].
  rewrite E at 1. cbn [append]. rewrite (parseFloat_digit q _ Hq).
  unfold JS.parseUnsigned. rewrite (prefix_Infinity q _ Hq).
  change (String (digitOf q) (r ++ String c rest))
    with (String (digitOf q) r ++ String c rest).
  rewrite <- E, readDigits_number; [ | rewrite Z2Nat.id by lia; lia | exact D].
  rewrite not_point by exact Hp.
  assert (L : (N.of_nat (Z.to_nat k) + 0 =? 0)%N = false) by (apply N.eqb_neq; lia).
  rewrite L. unfold JS.readExponent. rewrite He, HE. cbn [orb].
  rewrite N2Z.id. destruct n as [| p]; [reflexivity | ].
  unfold JS.ofDecimal, JS.ofZ, binary_normalize. cbn [Z.leb Z.compare Z.sub Z.add Z.opp Z.of_N].
  cbn [Z.pow Z.to_pos]. now rewrite Pos.mul_1_r.
Qed.

End ParseFacts.

Module DisplayFacts.

Import ParseFacts.

Import TextFacts DigitFacts.

Local Open Scope string_scope.
Local Open Scope Z_scope.

Lemma currencyUnit_pos : 0 < currencyUnit.
Proof. reflexivity. Qed.

Lemma currencyUnit_maxUnits : 2 ^ 52 * currencyUnit < maxUnits.
Proof. reflexivity. Qed.

Lemma cents_layout (C : Z) :
  0 <= C ->
  let m := NumberText.decimal (Z.to_N C) in
  let k := String.length m in
  let m' := if (k <=? 2)%nat then NumberText.zeros (3 - k) ++ m else m in
  let k' := String.length m' in
  substring 0 (k' - 2) m' ++ "." ++ substring (k' - 2) 2 m' = centsText C.
Proof.
  intros HC. cbv zeta.
  destruct (hasDigits_exists (Z.to_N C)) as [k Hk].
  pose proof Hk as (Hk1 & Hk2 & Hk3). rewrite Z2N.id in Hk2, Hk3 by lia.
  rewrite (decimal_padded _ _ Hk), Z2N.id, length_padded by lia.
  unfold centsText.
  assert (H100 : 0 <= C / 100) by (apply Z.div_pos; lia).
  destruct (Nat.leb_spec (Z.to_nat k) 2) as [L | G].
  - assert (Hlt : C < 100).
    { assert (10 ^ k <= 10 ^ 2) by (apply Z.pow_le_mono_r; lia).
      change (10 ^ 2) with 100 in *. lia. }
    rewrite zeros_padded.
    assert (E : padded (3 - Z.to_nat k) 0 ++ padded (Z.to_nat k) C = padded (1 + 2) C).
    { replace (1 + 2)%nat with (3 - Z.to_nat k + Z.to_nat k)%nat by lia.
      rewrite padded_split, Z2Nat.id, Z.div_small by lia. reflexivity. }
    rewrite E, length_padded. change (1 + 2 - 2)%nat with 1%nat.
    rewrite substring_padded_head, substring_padded_tail.
    change (10 ^ Z.of_nat 2) with 100. rewrite Z.div_small by lia.
    f_equal. f_equal. apply ParseFacts.padded_mod. change (10 ^ Z.of_nat 2) with 100.
    now rewrite Z.mod_mod by lia.
  - rewrite !length_padded.
    replace (Z.to_nat k - 2)%nat with (Z.to_nat (k - 2)) by lia.
    replace (padded (Z.to_nat k) C) with (padded (Z.to_nat (k - 2) + 2) C)
      by (f_equal; lia).
    rewrite substring_padded_head, substring_padded_tail.
    change (10 ^ Z.of_nat 2) with 100.
    assert (Hd : hasDigits (Z.to_N (C / 100)) (k - 2)).
    { unfold hasDigits. rewrite Z2N.id by lia.
      destruct Hk3 as [-> | Hk3]; [lia | ].
      assert (E1 : 10 ^ k = 10 ^ (k - 2) * 100)
        by (change 100 with (10 ^ 2); rewrite <- Z.pow_add_r by lia; f_equal; lia).
      assert (E2 : 10 ^ (k - 1) = 10 ^ (k - 2 - 1) * 100 \/ k - 2 = 1).
      { destruct (Z.eq_dec (k - 2) 1); [now right | left].
        change 100 with (10 ^ 2). rewrite <- Z.pow_add_r by lia. f_equal. lia. }
      split; [lia | split].
      - apply Z.div_lt_upper_bound; lia.
      - destruct E2 as [E2 | E2]; [right | now left].
        apply Z.div_le_lower_bound; lia. }
    rewrite (decimal_padded _ _ Hd), Z2N.id by lia.
    f_equal. f_equal. apply ParseFacts.padded_mod. change (10 ^ Z.of_nat 2) with 100.
    now rewrite Z.mod_mod by lia.
Qed.

Section ToFixed.

Variable Number_toString : number -> string.

Local Abbreviation toFixed := (NumberText.toFixed Number_toString).

(** [toFixed(2)] writes the hundredths nearest to the number. *)
Lemma toFixed_cents (x : number) (C : Z) :
  finiteNumber x = true -> 0 <= C < 10 ^ 23 ->
  2 * Z.abs (100 * Z.abs (units x) - C * currencyUnit) < currencyUnit ->
  toFixed x = (if units x <? 0 then "-" else "") ++ centsText C.
Proof.
  intros Hf HC Hx. pose proof currencyUnit_pos as Hcu.
  assert (Hv : 0 <= Z.abs (units x)) by lia.
  set (v := Z.abs (units x)) in *.
  assert (E21 : (10 ^ 21 * currencyUnit <=? v) = false).
  { apply Z.leb_gt. change (10 ^ 23) with (100 * 10 ^ 21) in HC.
    set (t := 10 ^ 21) in *. clearbody t v. nia. }
  assert (En : (200 * v + currencyUnit) / (2 * currencyUnit) = C).
  { symmetry. apply Z.div_unique with (r := 200 * v + currencyUnit - 2 * currencyUnit * C).
    - left. clearbody v. lia.
    - lia. }
  assert (G : toFixed x
              = (if units x <? 0 then "-" else "") ++
                (let m := NumberText.decimal (Z.to_N C) in
                 let k := String.length m in
                 let m' := if (k <=? 2)%nat then NumberText.zeros (3 - k) ++ m else m in
                 let k' := String.length m' in
                 substring 0 (k' - 2) m' ++ "." ++ substring (k' - 2) 2 m')).
  { unfold NumberText.toFixed. fold v. rewrite E21, En.
    destruct x; try discriminate Hf; reflexivity. }
  rewrite G. f_equal. apply cents_layout. lia.
Qed.

Lemma near_sums (l : list Expense) (c : Expense -> Z) :
  Forall (fun ex => nearCents (amount ex) (c ex)) l ->
  let A := sumOf (fun ex => Z.abs (c ex)) l in
  Forall (fun ex => finiteNumber (amount ex) = true) l /\
  2 ^ 52 * Z.abs (100 * exactUnits l - sumOf c l * currencyUnit) <= A * currencyUnit /\
  2 ^ 52 * (100 * magnitude l) <= (2 ^ 52 + 1) * (A * currencyUnit) /\
  0 <= A.
Proof.
  pose proof currencyUnit_pos as Hcu.
  induction 1 as [| ex l [Hf Hn] _ (IH1 & IH2 & IH3 & IH4)]; cbv zeta.
  - repeat split; try constructor; cbn; lia.
  - cbv zeta in IH2, IH3, IH4.
    change (exactUnits (ex :: l)) with (units (amount ex) + exactUnits l).
    change (magnitude (ex :: l)) with (Z.abs (units (amount ex)) + magnitude l).
    change (sumOf c (ex :: l)) with (c ex + sumOf c l).
    change (sumOf (fun ex => Z.abs (c ex)) (ex :: l))
      with (Z.abs (c ex) + sumOf (fun ex => Z.abs (c ex)) l).
    set (A := sumOf (fun ex => Z.abs (c ex)) l) in *.
    set (u := units (amount ex)) in *. set (S := exactUnits l) in *.
    set (B := magnitude l) in *. set (C := sumOf c l) in *.
    set (cu := currencyUnit) in *. set (c0 := c ex) in *.
    assert (P52 : 2 ^ 52 = 4503599627370496) by reflexivity.
    rewrite P52 in *.
    clearbody A u S B C cu c0.
    split; [constructor; assumption | ].
    assert (Hu : 100 * Z.abs u <= Z.abs (c0 * cu) + Z.abs (100 * u - c0 * cu)) by lia.
    assert (Hc : Z.abs (c0 * cu) = Z.abs c0 * cu) by (rewrite Z.abs_mul; lia).
    repeat split; lia.
Qed.

(** The total of amounts that stand for whole hundredths is shown as
    their exact sum. *)
Lemma total_shown (l : list Expense) (c : Expense -> Z) :
  Forall (fun ex => nearCents (amount ex) (c ex)) l ->
  (4 * Z.of_nat (List.length l) + 2) * (sumOf (fun ex => Z.abs (c ex)) l + 1) < 2 ^ 52 ->
  let T := Main.total (Main.calculateTotals l) in
  let C := sumOf c l in
  toFixed T = (if units T <? 0 then "-" else "") ++ centsText (Z.abs C) /\
  (0 < C -> 0 < units T) /\ (C < 0 -> units T < 0).
Proof.
  intros Hn Hb T C.
  destruct (near_sums l c Hn) as (Hf & H1 & H2 & H3). cbv zeta in H1, H2, H3.
  fold C in H1. set (A := sumOf (fun ex => Z.abs (c ex)) l) in *.
  set (n := Z.of_nat (List.length l)) in *.
  assert (Hn0 : 0 <= n) by (unfold n; lia).
  pose proof currencyUnit_pos as Hcu. pose proof currencyUnit_maxUnits as Hmax.
  pose proof (RoundingFacts.magnitude_nonneg l) as HB.
  assert (P52 : 2 ^ 52 = 4503599627370496) by reflexivity.
  assert (P53 : 2 ^ 53 = 9007199254740992) by reflexivity.
  assert (HA : A < 2 ^ 52) by nia.
  assert (Hlen : n <= 2 ^ 52) by nia.
  assert (HAcu : A * currencyUnit <= (2 ^ 52 - 1) * currencyUnit) by nia.
  assert (HBA : 100 * magnitude l <= 2 * (A * currencyUnit)).
  { rewrite P52 in H2. set (X := A * currencyUnit) in *.
    assert (0 <= X) by (unfold X; nia). clearbody X. lia. }
  assert (HBmax : magnitude l < maxUnits).
  { rewrite P52 in *. set (X := A * currencyUnit) in *. clearbody X. lia. }
  destruct (total_error l Hf Hlen HBmax) as [Tf Te]. fold T n in Tf, Te.
  set (uT := units T) in *. set (S := exactUnits l) in *. set (B := magnitude l) in *.
  assert (HE : 2 ^ 53 * Z.abs (100 * uT - C * currencyUnit)
               <= (4 * n + 2) * (A * currencyUnit)).
  { assert (HnB : 100 * (n * B) <= n * (2 * (A * currencyUnit))) by nia.
    rewrite P52 in Te, H1. rewrite P53 in *.
    set (X := A * currencyUnit) in *. set (Y := C * currencyUnit) in *.
    set (nB := n * B) in *. set (nX := n * (2 * X)) in *.
    replace ((4 * n + 2) * X) with (2 * nX + 2 * X) by (unfold nX; ring).
    clearbody X Y nB nX uT S. lia. }
  assert (Hhalf : 2 * Z.abs (100 * uT - C * currencyUnit) < currencyUnit).
  { assert (K : (4 * n + 2) * (A * currencyUnit) <= (2 ^ 52 - 1) * currencyUnit).
    { replace ((4 * n + 2) * (A * currencyUnit)) with ((4 * n + 2) * A * currencyUnit) by ring.
      apply Z.mul_le_mono_nonneg_r; [lia | nia]. }
    rewrite P52 in K. rewrite P53 in HE.
    set (E := Z.abs (100 * uT - C * currencyUnit)) in *.
    set (cu := currencyUnit) in *.
    set (R := (4 * n + 2) * (A * cu)) in *. clearbody E cu R. lia. }
  assert (HC : Z.abs C <= A).
  { unfold C, A. clear. induction l as [| ex l IH]; [cbn; lia | ].
    change (sumOf c (ex :: l)) with (c ex + sumOf c l).
    change (sumOf (fun ex => Z.abs (c ex)) (ex :: l))
      with (Z.abs (c ex) + sumOf (fun ex => Z.abs (c ex)) l). lia. }
  assert (Hpos : 0 < C -> 0 < uT).
  { intros HCp. set (cu := currencyUnit) in *. clearbody cu uT. nia. }
  assert (Hneg : C < 0 -> uT < 0).
  { intros HCn. set (cu := currencyUnit) in *. clearbody cu uT. nia. }
  split; [ | split; assumption].
  apply toFixed_cents; [exact Tf | | ].
  - change (10 ^ 23) with 100000000000000000000000. rewrite P52 in HA. lia.
  - fold uT. set (cu := currencyUnit) in *.
    assert (Hcase : 100 * Z.abs uT - Z.abs C * cu = 100 * uT - C * cu
                    \/ 100 * Z.abs uT - Z.abs C * cu = - (100 * uT - C * cu)).
    { destruct (Z.lt_trichotomy C 0) as [L | [E | G]].
      - specialize (Hneg L). right. clearbody cu uT. nia.
      - subst C. rewrite E in *. clearbody cu uT. nia.
      - specialize (Hpos G). left. clearbody cu uT. nia. }
    clearbody cu uT. destruct Hcase as [-> | ->]; lia.
Qed.

End ToFixed.

End DisplayFacts.

(** ** Decimals with digits after the point *)

Module DivisionFacts.

Import NumberFacts RoundingFacts.

(** The place of a remainder [r] of a division by an even [D]. *)
Lemma new_location_even_spec (D r : Z) :
  Z.even D = true -> 0 <= r < D ->
  new_location D r
  = if r =? 0 then loc_Exact else loc_Inexact (2 * r ?= D).
Proof. intros He _. unfold new_location, new_location_even. now rewrite He. Qed.

(** Rounding the quotient [q] with remainder [r]: the nearest multiple. *)
Lemma round_quotient (D q r : Z) :
  Z.even D = true -> 0 < D -> 0 <= q -> 0 <= r < D ->
  let l := if r =? 0 then loc_Exact else loc_Inexact (2 * r ?= D) in
  let m1 := round_nearest_even q l in
  q <= m1 <= q + 1 /\ 2 * Z.abs (D * m1 - (D * q + r)) <= D.
Proof.
  intros He HD Hq Hr l m1. unfold m1, l.
  destruct (Z.eqb_spec r 0) as [-> | N]; cbn [round_nearest_even]; [split; lia | ].
  destruct (Z.compare_spec (2 * r) D) as [E | L | G].
  - destruct (Z.even q); split; lia.
  - split; lia.
  - split; lia.
Qed.

(** The same after one step to the right. *)
Lemma round_quotient_shifted (D q r : Z) :
  Z.even D = true -> 0 < D -> 0 <= q -> 0 <= r < D ->
  let l := if r =? 0 then loc_Exact else loc_Inexact (2 * r ?= D) in
  let mrs := shr_1 (shr_record_of_loc q l) in
  let m1 := round_nearest_even (shr_m mrs) (loc_of_shr_record mrs) in
  q / 2 <= m1 <= q / 2 + 1 /\ Z.abs (2 * D * m1 - (D * q + r)) <= D.
Proof.
  intros He HD Hq Hr l mrs m1. unfold m1, mrs, l.
  pose proof (Z.div_mod q 2 ltac:(lia)) as Dq.
  pose proof (Zmod_odd q) as Oq.
  destruct (Z.eqb_spec r 0) as [-> | N].
  - cbn [shr_record_of_loc]. rewrite shr_1_spec by lia.
    cbn [shr_m shr_r shr_s loc_of_shr_record orb].
    destruct (Z.odd q); cbn [round_nearest_even].
    + destruct (Z.even (q / 2)); split; lia.
    + split; lia.
  - destruct (Z.compare_spec (2 * r) D) as [E | L | G];
      cbn [shr_record_of_loc]; rewrite shr_1_spec by lia;
      cbn [shr_m shr_r shr_s loc_of_shr_record orb];
      destruct (Z.odd q); cbn [round_nearest_even loc_of_shr_record]; split; lia.
Qed.

Lemma loc_of_loc (m : Z) (l : location) :
  loc_of_shr_record (shr_record_of_loc m l) = l.
Proof. destruct l as [| []]; reflexivity. Qed.

Lemma shr_m_of_loc (m : Z) (l : location) : shr_m (shr_record_of_loc m l) = m.
Proof. destruct l as [| []]; reflexivity. Qed.

(** The quotient that [SFdiv_core_binary] hands to the rounding: 53 or
    54 bits of it, and the place of the remainder. *)
Lemma div_core (p dp : positive) :
  let D := Zpos dp in
  Z.even D = true -> D <= 1000 -> Zpos p < 2 ^ 53 * D ->
  exists q r e,
    SFdiv_core_binary JS.prec JS.emax (Zpos p) 0 D 0
    = (q, e, if r =? 0 then loc_Exact else loc_Inexact (2 * r ?= D)) /\
    -70 <= e <= 0 /\ Zpos p * 2 ^ (- e) = D * q + r /\ 0 <= r < D /\
    2 ^ 52 <= q < 2 ^ 54.
Proof.
  intros D He HD Hp.
  pose proof (digits_bounds p) as B1. pose proof (digits_bounds dp) as B2.
  set (d1 := Zpos (digits2_pos p)) in *. set (d2 := Zpos (digits2_pos dp)) in *.
  fold D in B2.
  assert (H1 : 1 <= d1) by (unfold d1; lia).
  assert (H2 : 1 <= d2 <= 10).
  { split; [unfold d2; lia | ].
    destruct (Z_le_gt_dec d2 10) as [L | G]; trivial. exfalso.
    assert (2 ^ 10 <= 2 ^ (d2 - 1)) by (apply Z.pow_le_mono_r; lia).
    change (2 ^ 10) with 1024 in *. lia. }
  assert (H3 : d1 <= 53 + d2).
  { destruct (Z_le_gt_dec d1 (53 + d2)) as [L | G]; trivial. exfalso.
    assert (2 ^ (53 + d2) <= 2 ^ (d1 - 1)) by (apply Z.pow_le_mono_r; lia).
    rewrite Z.pow_add_r in * by lia. nia. }
  set (s := 53 + d2 - d1).
  assert (Hs : 0 <= s <= 70) by (unfold s; lia).
  unfold SFdiv_core_binary.
  change (Zdigits2 (Zpos p)) with d1. change (Zdigits2 D) with d2. rewrite fexp_eq.
  match goal with
  | |- context [Z.min ?a ?b] => replace (Z.min a b) with (- s) by (unfold s; lia)
  end.
  replace (0 - 0 - - s) with s by lia.
  assert (Hm : match s with
               | Z0 => Zpos p
               | Zpos _ => Z.shiftl (Zpos p) s
               | Zneg _ => 0
               end = Zpos p * 2 ^ s).
  { destruct s as [| sp | sp] eqn:Es; [cbn; lia | | lia].
    now rewrite Z.shiftl_mul_pow2 by lia. }
  rewrite Hm.
  pose proof (Z_div_mod (Zpos p * 2 ^ s) D ltac:(unfold D; lia)) as DM.
  destruct (Z.div_eucl (Zpos p * 2 ^ s) D) as [q r]. destruct DM as [DM Hr].
  exists q, r, (- s).
  rewrite new_location_even_spec by assumption.
  split; [reflexivity | ]. split; [lia | ].
  rewrite Z.opp_involutive. split; [exact DM | split; [exact Hr | ]].
  assert (Lo : 2 ^ 52 * 2 ^ d2 <= Zpos p * 2 ^ s).
  { replace (2 ^ 52 * 2 ^ d2) with (2 ^ (d1 - 1) * 2 ^ s).
    - apply Z.mul_le_mono_nonneg_r; [apply Z.pow_nonneg; lia | lia].
    - rewrite <- !Z.pow_add_r by lia. f_equal. unfold s. lia. }
  assert (Hi : Zpos p * 2 ^ s < 2 ^ 54 * 2 ^ (d2 - 1)).
  { replace (2 ^ 54 * 2 ^ (d2 - 1)) with (2 ^ d1 * 2 ^ s).
    - apply Z.mul_lt_mono_pos_r; [apply Z.pow_pos_nonneg; lia | lia].
    - rewrite <- !Z.pow_add_r by lia. f_equal. unfold s. lia. }
  assert (P52 : 2 ^ 52 = 4503599627370496) by reflexivity.
  assert (P54 : 2 ^ 54 = 18014398509481984) by reflexivity.
  rewrite P52, P54 in *.
  set (V := Zpos p * 2 ^ s) in *. set (A := 2 ^ (d2 - 1)) in *.
  assert (EA : 2 ^ d2 = 2 * A).
  { unfold A. rewrite <- Z.pow_succ_r by lia. f_equal. lia. }
  rewrite EA in *. clearbody V A. clear Hm. nia.
Qed.

(** A decimal with digits after the point, short of 2^53 in its
    mantissa of 53 bits: the number that [ofDecimal] gives is finite
    and within a relative 2^-53 of the decimal. *)
Lemma round_division (p dp : positive) :
  let D := Zpos dp in
  Z.even D = true -> D <= 1000 -> Zpos p < 2 ^ 53 * D ->
  exists m' e',
    (let '(q, e, l) := SFdiv_core_binary JS.prec JS.emax (Zpos p) 0 D 0 in
     binary_round_aux JS.prec JS.emax false q e l) = S754_finite false m' e' /\
    bounded JS.prec JS.emax m' e' = true /\
    2 ^ 53 * Z.abs (D * (Zpos m' * 2 ^ (e' + 1074)) - Zpos p * currencyUnit)
    <= Zpos p * currencyUnit.
Proof.
  intros D He HD Hp.
  destruct (div_core p dp He HD Hp) as (q & r & e & E & He' & DM & Hr & Hq).
  fold D in E, DM. rewrite E.
  set (l := if r =? 0 then loc_Exact else loc_Inexact (2 * r ?= D)) in *.
  assert (P52 : 2 ^ 52 = 4503599627370496) by reflexivity.
  assert (P53 : 2 ^ 53 = 9007199254740992) by reflexivity.
  assert (P54 : 2 ^ 54 = 18014398509481984) by reflexivity.
  destruct q as [| qp | qp]; try (rewrite P52 in Hq; lia).
  (* the first stage: no step or one step to the right *)
  assert (S1 : exists m1 n,
             (n = 0 \/ n = 1) /\
             shr_fexp JS.prec JS.emax (Zpos qp) e l
             = (fst (shr_fexp JS.prec JS.emax (Zpos qp) e l), e + n) /\
             round_nearest_even
               (shr_m (fst (shr_fexp JS.prec JS.emax (Zpos qp) e l)))
               (loc_of_shr_record (fst (shr_fexp JS.prec JS.emax (Zpos qp) e l))) = m1 /\
             2 ^ 52 <= m1 <= 2 ^ 53 /\
             2 ^ 53 * Z.abs (D * m1 * 2 ^ n - (D * Zpos qp + r)) <= D * Zpos qp + r).
  { destruct (Z_lt_ge_dec (Zpos qp) (2 ^ 53)) as [L | G].
    - assert (Hd : Zpos (digits2_pos qp) = 53) by (apply digits_unique; cbn in *; lia).
      unfold shr_fexp. cbn [Zdigits2]. rewrite Hd, fexp_eq.
      replace (Z.max (53 + e - 53) (-1074) - e) with 0 by lia.
      cbn [shr fst]. rewrite loc_of_loc, shr_m_of_loc.
      destruct (round_quotient D (Zpos qp) r He ltac:(unfold D; lia) ltac:(lia) Hr)
        as [R1 R2]. fold l in R1, R2.
      eexists _, 0. split; [now left | ]. split; [f_equal; lia | ].
      split; [reflexivity | ].
      set (m1 := round_nearest_even (Zpos qp) l) in *.
      change (2 ^ 0) with 1. rewrite P52, P53 in *.
      split; [lia | ]. clearbody m1. nia.
    - assert (Hd : Zpos (digits2_pos qp) = 54) by (apply digits_unique; cbn in *; lia).
      unfold shr_fexp. cbn [Zdigits2]. rewrite Hd, fexp_eq.
      replace (Z.max (54 + e - 53) (-1074) - e) with 1 by lia.
      cbn [shr iter_pos fst].
      destruct (round_quotient_shifted D (Zpos qp) r He ltac:(unfold D; lia) ltac:(lia) Hr)
        as [R1 R2]. fold l in R1, R2.
      eexists _, 1. split; [now right | ]. split; [reflexivity | ].
      split; [reflexivity | ].
      set (m1 := round_nearest_even _ _) in *.
      change (2 ^ 1) with 2. rewrite P52, P53, P54 in *.
      pose proof (Z.div_mod (Zpos qp) 2 ltac:(lia)).
      pose proof (Z.mod_pos_bound (Zpos qp) 2 ltac:(lia)).
      split; [lia | ]. clearbody m1. nia. }
  destruct S1 as (m1 & n & Hn & E1 & E2 & Hm1 & Err).
  unfold binary_round_aux. rewrite E1, E2.
  destruct (round_renormalise false m1 (e + n) Hm1 ltac:(lia)) as (m' & e' & R1 & R2 & R3).
  exists m', e'. split; [exact R1 | split; [exact R2 | ]].
  rewrite R3.
  assert (Hpow : 2 ^ (e + n + 1074) * 2 ^ (- e) = 2 ^ n * currencyUnit).
  { unfold currencyUnit. rewrite <- !Z.pow_add_r by lia. f_equal. lia. }
  assert (Hpe : 0 < 2 ^ (- e)) by (apply Z.pow_pos_nonneg; lia).
  pose proof DisplayFacts.currencyUnit_pos as Hcu.
  (* scale both sides by 2^(-e) *)
  apply (Z.mul_le_mono_pos_r _ _ (2 ^ (- e)) Hpe).
  rewrite <- Z.mul_assoc, <- (Z.abs_eq (2 ^ (- e))) at 1 by lia.
  rewrite <- Z.abs_mul.
  replace ((D * (m1 * 2 ^ (e + n + 1074)) - Zpos p * currencyUnit) * 2 ^ (- e))
    with ((D * m1 * 2 ^ n - (D * Zpos qp + r)) * currencyUnit).
  - replace (Zpos p * currencyUnit * 2 ^ (- e)) with ((D * Zpos qp + r) * currencyUnit)
      by (rewrite <- DM; ring).
    rewrite Z.abs_mul, (Z.abs_eq currencyUnit) by lia.
    rewrite Z.mul_assoc. apply Z.mul_le_mono_nonneg_r; [lia | exact Err].
  - transitivity (D * m1 * (2 ^ (e + n + 1074) * 2 ^ (- e))
                  - Zpos p * 2 ^ (- e) * currencyUnit); [ | ring].
    rewrite Hpow, DM. ring.
Qed.

(** A decimal of at most two digits after the point stands for its
    hundredths. *)
Lemma ofDecimal_nearCents (m : N) (k : Z) :
  0 <= k <= 2 -> Z.of_N m * 10 ^ (2 - k) < 2 ^ 53 ->
  nearCents (JS.ofDecimal false m (- k)) (Z.of_N m * 10 ^ (2 - k)).
Proof.
  intros Hk Hm. pose proof DisplayFacts.currencyUnit_pos as Hcu.
  destruct m as [| p]; [split; [reflexivity | cbn; lia] | ].
  assert (P52 : 2 ^ 52 = 4503599627370496) by reflexivity.
  assert (P53 : 2 ^ 53 = 9007199254740992) by reflexivity.
  assert (Hc : k = 0 \/ k = 1 \/ k = 2) by lia.
  change (Z.of_N (N.pos p)) with (Zpos p) in *.
  destruct Hc as [-> | [-> | ->]].
  - (* no digit after the point *)
    change (10 ^ (2 - 0)) with 100 in *.
    change (JS.ofDecimal false (N.pos p) (Z.opp 0))
      with (binary_round JS.prec JS.emax false (p * 1) 0).
    rewrite Pos.mul_1_r.
    destruct (binary_round_error false p 0) as (m' & e' & E & Hb & Err); [lia | | ].
    { rewrite Z.add_0_l. fold currencyUnit.
      pose proof DisplayFacts.currencyUnit_maxUnits as M. rewrite P52, P53 in *.
      assert (Zpos p * currencyUnit <= 4503599627370496 * currencyUnit)
        by (apply Z.mul_le_mono_nonneg_r; lia).
      lia. }
    rewrite E. split; [exact Hb | ].
    cbn [units cond_Zopp]. rewrite Z.add_0_l in Err. fold currencyUnit in Err.
    rewrite P52, P53 in *.
    set (u := Zpos m' * 2 ^ (e' + 1074)) in *. set (cu := currencyUnit) in *.
    assert (Hpc : 0 < Zpos p * cu) by (unfold cu; nia).
    set (V := Zpos p * cu) in *.
    replace (100 * u - Zpos p * 100 * cu) with (100 * (u - V)) by (unfold V; ring).
    replace (Z.abs (Zpos p * 100) * cu) with (100 * V) by (unfold V; lia).
    clearbody u V. lia.
  - change (10 ^ (2 - 1)) with 10 in *.
    destruct (round_division p 10) as (m' & e' & E & Hb & Err);
      [reflexivity | lia | rewrite P53; lia | ].
    assert (E' : JS.ofDecimal false (N.pos p) (Z.opp 1) = S754_finite false m' e') by exact E.
    rewrite E'. split; [exact Hb | ].
    cbn [units cond_Zopp]. rewrite P52, P53 in *.
    set (u := Zpos m' * 2 ^ (e' + 1074)) in *. set (cu := currencyUnit) in *.
    assert (Hpc : 0 < Zpos p * cu) by (unfold cu; nia).
    set (V := Zpos p * cu) in *.
    replace (100 * u - Zpos p * 10 * cu) with (10 * (10 * u - V)) by (unfold V; ring).
    replace (Z.abs (Zpos p * 10) * cu) with (10 * V) by (unfold V; lia).
    clearbody u V. lia.
  - change (10 ^ (2 - 2)) with 1 in *.
    destruct (round_division p 100) as (m' & e' & E & Hb & Err);
      [reflexivity | lia | rewrite P53; lia | ].
    assert (E' : JS.ofDecimal false (N.pos p) (Z.opp 2) = S754_finite false m' e') by exact E.
    rewrite E'. split; [exact Hb | ].
    cbn [units cond_Zopp]. rewrite P52, P53 in *.
    set (u := Zpos m' * 2 ^ (e' + 1074)) in *. set (cu := currencyUnit) in *.
    assert (Hpc : 0 < Zpos p * cu) by (unfold cu; nia).
    set (V := Zpos p * cu) in *.
    replace (100 * u - Zpos p * 1 * cu) with (100 * u - V) by (unfold V; ring).
    replace (Z.abs (Zpos p * 1) * cu) with V by (unfold V; lia).
    clearbody u V. lia.
Qed.

End DivisionFacts.

Module PriceFacts.

Import TextFacts DigitFacts ParseFacts DisplayFacts.

Lemma parseFloat_decimal_text (a : nat) (x : Z) (r : string) :
  (1 <= a)%nat ->
  JS.parseFloat (padded a x ++ r) = JS.parseUnsigned false (padded a x ++ r).
Proof.
  intros Ha. destruct (padded_first a x Ha) as (q & t & Hq & E).
  rewrite E. cbn [append]. now apply parseFloat_digit.
Qed.

Lemma parseFloat_amountText (m : N) (k : nat) :
  JS.parseFloat (amountText m k) = JS.ofDecimal false m (- Z.of_nat k).
Proof.
  unfold amountText. destruct k as [| k].
  - destruct (hasDigits_exists m) as [d Hd]. pose proof Hd as (Hd1 & Hd2 & _).
    rewrite (decimal_padded m d Hd), <- (append_nil_r (padded _ _)).
    rewrite parseFloat_decimal_text by lia.
    rewrite (parseUnsigned_plain false _ _ "" 0); [ | lia | | now left].
    + now rewrite N2Z.id.
    + rewrite Z2Nat.id by lia. lia.
  - set (k' := S k). set (P := (10 ^ N.of_nat k')%N).
    assert (HP : Z.of_N P = 10 ^ Z.of_nat k').
    { unfold P. rewrite N2Z.inj_pow, nat_N_Z. reflexivity. }
    assert (Hpos : 0 < 10 ^ Z.of_nat k') by (apply Z.pow_pos_nonneg; lia).
    destruct (hasDigits_exists (m / P)) as [d Hd]. pose proof Hd as (Hd1 & Hd2 & _).
    rewrite (decimal_padded _ d Hd).
    replace (padded k' (Z.of_N m)) with (padded k' (Z.of_N m mod 10 ^ Z.of_nat k'))
      by (apply padded_mod; now rewrite Z.mod_mod by lia).
    rewrite <- (append_nil_r (padded k' _)).
    rewrite parseFloat_decimal_text by lia.
    rewrite (parseUnsigned_point false _ _ _ _ "" 0); [ | lia | | | now left].
    + f_equal; try lia. apply N2Z.inj. rewrite Z2N.id.
      * rewrite N2Z.inj_div, HP. pose proof (Z.div_mod (Z.of_N m) (10 ^ Z.of_nat k')). lia.
      * rewrite N2Z.inj_div, HP.
        pose proof (Z.mod_pos_bound (Z.of_N m) _ Hpos).
        assert (0 <= Z.of_N m / 10 ^ Z.of_nat k') by (apply Z.div_pos; lia). nia.
    + rewrite Z2Nat.id by lia. split; [apply N2Z.is_nonneg | exact Hd2].
    + apply Z.mod_pos_bound. lia.
Qed.

Section Shown.

Variable Number_toString : number -> string.

Local Abbreviation toFixed := (NumberText.toFixed Number_toString).

Lemma units_nearCents (a : number) (c : Z) :
  nearCents a c -> 0 <= c -> 0 <= units a.
Proof.
  intros [_ H] Hc. pose proof currencyUnit_pos as Hcu.
  destruct (Z_le_gt_dec 0 (units a)) as [L | G]; trivial. exfalso.
  assert (P52 : 2 ^ 52 = 4503599627370496) by reflexivity. rewrite P52 in H.
  set (u := units a) in *. set (cu := currencyUnit) in *.
  assert (0 <= c * cu) by nia.
  assert (Z.abs c * cu = c * cu) by (rewrite Z.abs_eq; lia).
  set (X := c * cu) in *. clearbody u X. lia.
Qed.

(** An amount that stands for [c] hundredths is shown as [c]. *)
Lemma amount_shown (a : number) (c : Z) :
  nearCents a c -> 0 <= c < 2 ^ 51 -> toFixed a = centsText c.
Proof.
  intros Hn Hc. pose proof (units_nearCents a c Hn ltac:(lia)) as Hu.
  destruct Hn as [Hf H]. pose proof currencyUnit_pos as Hcu.
  assert (P51 : 2 ^ 51 = 2251799813685248) by reflexivity.
  assert (P52 : 2 ^ 52 = 4503599627370496) by reflexivity. rewrite P51, P52 in *.
  rewrite (toFixed_cents Number_toString a c Hf).
  - destruct (Z.ltb_spec (units a) 0); [lia | reflexivity].
  - change (10 ^ 23) with 100000000000000000000000. lia.
  - rewrite (Z.abs_eq (units a)) by exact Hu.
    set (u := units a) in *. set (cu := currencyUnit) in *.
    assert (Z.abs c * cu = c * cu) by (rewrite Z.abs_eq; lia).
    assert (c * cu <= 2251799813685247 * cu) by (apply Z.mul_le_mono_nonneg_r; lia).
    set (X := c * cu) in *. clearbody u X cu. lia.
Qed.

(** What is typed with at most two digits after the point is shown
    with two. *)
Lemma typed_amount_shown (m : N) (k : nat) :
  (k <= 2)%nat -> Z.of_N m * 10 ^ (2 - Z.of_nat k) < 2 ^ 51 ->
  let a := JS.parseFloat (amountText m k) in
  let c := Z.of_N m * 10 ^ (2 - Z.of_nat k) in
  nearCents a c /\ toFixed a = centsText c.
Proof.
  intros Hk Hm a c.
  assert (Hp : 0 < 10 ^ (2 - Z.of_nat k)) by (apply Z.pow_pos_nonneg; lia).
  assert (P51 : 2 ^ 51 = 2251799813685248) by reflexivity.
  assert (P53 : 2 ^ 53 = 9007199254740992) by reflexivity.
  assert (Hn : nearCents a c).
  { unfold a. rewrite parseFloat_amountText.
    apply DivisionFacts.ofDecimal_nearCents; [lia | rewrite P51, P53 in *; lia]. }
  split; [exact Hn | ]. apply amount_shown; [exact Hn | ]. unfold c. nia.
Qed.

Lemma prices_sums (c : Expense -> Z) (l : list Expense) :
  prices c l ->
  Forall (fun ex => nearCents (amount ex) (c ex)) l /\
  sumOf (fun ex => Z.abs (c ex)) l = sumOf c l /\ 0 <= sumOf c l /\
  exactUnits l = magnitude l.
Proof.
  induction 1 as [| ex l [Hn Hc] _ (IH1 & IH2 & IH3 & IH4)].
  - repeat split; try constructor; cbn; lia.
  - pose proof (units_nearCents _ _ Hn Hc) as Hu.
    change (sumOf (fun ex => Z.abs (c ex)) (ex :: l))
      with (Z.abs (c ex) + sumOf (fun ex => Z.abs (c ex)) l).
    change (sumOf c (ex :: l)) with (c ex + sumOf c l).
    change (exactUnits (ex :: l)) with (units (amount ex) + exactUnits l).
    change (magnitude (ex :: l)) with (Z.abs (units (amount ex)) + magnitude l).
    split; [constructor; assumption | ]. lia.
Qed.

Lemma prices_withCategory (c : Expense -> Z) (l : list Expense) (k : string) :
  prices c l ->
  prices c (withCategory k l) /\
  (List.length (withCategory k l) <= List.length l)%nat /\
  sumOf c (withCategory k l) <= sumOf c l.
Proof.
  unfold withCategory.
  induction 1 as [| ex l [Hn Hc] Hl (IH1 & IH2 & IH3)]; [repeat split; [constructor | | ]; cbn; lia | ].
  cbn [List.filter]. change (sumOf c (ex :: l)) with (c ex + sumOf c l).
  destruct (category ex =? k)%string.
  - change (sumOf c (ex :: ?r)) with (c ex + sumOf c r). cbn [List.length].
    split; [constructor; [split; assumption | exact IH1] | lia].
  - cbn [List.length]. split; [exact IH1 | lia].
Qed.

(** The total of prices is shown as their exact sum. *)
Lemma prices_total_shown (c : Expense -> Z) (l : list Expense) :
  prices c l ->
  (4 * Z.of_nat (List.length l) + 2) * (sumOf c l + 1) < 2 ^ 52 ->
  toFixed (Main.total (Main.calculateTotals l)) = centsText (sumOf c l).
Proof.
  intros Hp Hb. destruct (prices_sums c l Hp) as (Hn & EA & HC & ES).
  rewrite <- EA in Hb.
  destruct (total_shown Number_toString l c Hn Hb) as (E & Hpos & _).
  cbv zeta in E, Hpos. rewrite E, (Z.abs_eq _ HC).
  assert (Hu : 0 <= units (Main.total (Main.calculateTotals l))).
  { destruct (Z.eq_dec (sumOf c l) 0) as [E0 | N0]; [ | lia].
    destruct (near_sums l c Hn) as (Hf & _ & H2 & _). cbv zeta in H2.
    rewrite EA, E0 in H2. pose proof (RoundingFacts.magnitude_nonneg l) as HB.
    assert (P52 : 2 ^ 52 = 4503599627370496) by reflexivity.
    assert (B0 : magnitude l = 0) by (rewrite P52 in H2; lia).
    assert (Hlen : Z.of_nat (List.length l) <= 2 ^ 52) by (rewrite EA, E0 in Hb; lia).
    destruct (total_error l Hf Hlen) as [_ Te].
    { rewrite B0. reflexivity. }
    cbv zeta in Te. rewrite ES, B0, P52 in Te. lia. }
  destruct (Z.ltb_spec (units (Main.total (Main.calculateTotals l))) 0); [lia | reflexivity].
Qed.

(** The whole summary of prices, none under a label that
    [Object.prototype] knows: every text is exact. *)
Lemma prices_summary (c : Expense -> Z) (l : list Expense) :
  prices c l ->
  existsb (fun ex => textLabel (category ex)) l = false ->
  (4 * Z.of_nat (List.length l) + 2) * (sumOf c l + 1) < 2 ^ 52 ->
  Screen.summarySection Number_toString (Main.calculateTotals l)
  = Screen.Normal
      (("Total Spending: $" ++ centsText (sumOf c l))%string
       :: map (fun k => (k ++ ": $" ++ centsText (sumOf c (withCategory k l)))%string)
              (JS.keys (Main.byCategory (Main.calculateTotals l)))).
Proof.
  intros Hp Ht Hb.
  rewrite summary_text, Ht. cbv zeta. rewrite (prices_total_shown c l Hp Hb).
  f_equal. f_equal. apply map_ext. intros k. unfold Screen.statText. do 2 f_equal.
  destruct (prices_sums c l Hp) as (Hn & EA & HC & ES).
  destruct (near_sums l c Hn) as (Hf & _ & H2 & _). cbv zeta in H2. rewrite EA in H2.
  pose proof (RoundingFacts.magnitude_nonneg l) as HB.
  pose proof currencyUnit_pos as Hcu. pose proof currencyUnit_maxUnits as Hmax.
  assert (P52 : 2 ^ 52 = 4503599627370496) by reflexivity.
  assert (Hlen : Z.of_nat (List.length l) <= 2 ^ 52) by nia.
  assert (HBmax : magnitude l < maxUnits).
  { assert (HA : sumOf c l < 2 ^ 52) by nia.
    assert (sumOf c l * currencyUnit <= (2 ^ 52 - 1) * currencyUnit)
      by (apply Z.mul_le_mono_nonneg_r; lia).
    rewrite P52 in *. set (X := sumOf c l * currencyUnit) in *. clearbody X. lia. }
  rewrite (categoryTotal_finite k l Hf Hlen HBmax).
  destruct (prices_withCategory c l k Hp) as (Hpk & Hlk & Hsk).
  apply prices_total_shown; [exact Hpk | ].
  destruct (prices_sums c _ Hpk) as (_ & _ & HCk & _).
  nia.
Qed.

End Shown.

End PriceFacts.

(** ** The worlds of the screen *)

Lemma saveExpense_edit (s : Main.State) (t : Main.Table) (now i : Z) :
  Main.st_amount s <> ""%string -> Main.st_category s <> ""%string ->
  Main.editing (Main.st_editingId s) = Some i ->
  let t' := Main.sqlUpdate (JS.parseFloat (Main.st_amount s)) (Main.st_category s)
                           (Main.st_note s) i t in
  Main.saveExpense s t now
  = Main.Fulfilled
      (Main.mkState (Main.sqlSelectAll t') "" "" "" (Main.st_filter s) None, t').
Proof.
  intros Ha Hc He. cbv zeta. unfold Main.saveExpense.
  rewrite (nonEmpty_true _ Ha), (nonEmpty_true _ Hc), He. reflexivity.
Qed.

Lemma saveExpense_guard (s : Main.State) (t : Main.Table) (now : Z) :
  Main.st_amount s = ""%string \/ Main.st_category s = ""%string ->
  Main.saveExpense s t now = Main.Fulfilled (s, t).
Proof.
  intros [H | H]; unfold Main.saveExpense; rewrite H; cbn [Main.nonEmpty negb orb];
    [reflexivity | now rewrite orb_true_r].
Qed.

Module ScreenFacts.

Section Component.

Variable LocalTZA : Z -> bool -> Z.
Variable Date_parse : string -> option Z.
Variable Number_toString : number -> string.

Local Abbreviation handle := (Screen.handle Number_toString).
Local Abbreviation offered := (Screen.offered LocalTZA Date_parse Number_toString).
Local Abbreviation reachable := (Screen.reachable LocalTZA Date_parse Number_toString).
Local Abbreviation visibleExpenses := (Screen.visibleExpenses LocalTZA Date_parse).

Lemma visible_listed (s : Main.State) (now : Z) (item : Expense) :
  In item (visibleExpenses s now) -> In item (Main.st_expenses s).
Proof.
  unfold Screen.visibleExpenses, Main.getFilteredExpenses.
  destruct (Main.st_filter s =? "All")%string; trivial.
  intros H. now apply filter_In in H.
Qed.

Lemma sqlUpdate_ids (a : number) (c n : string) (i : Z) (t : Main.Table) :
  map id (Main.rows (Main.sqlUpdate a c n i t)) = map id (Main.rows t).
Proof.
  unfold Main.sqlUpdate. cbn [Main.rows]. rewrite map_map. apply map_ext.
  intros r. now destruct (id r =? i).
Qed.

Lemma consistent_start : Screen.consistent (Main.setup Main.initialState None).
Proof. constructor; cbn; auto; try constructor. lia. Qed.

Lemma consistent_mount (t : Main.Table) (s : Main.State) :
  Screen.consistent (s, t) ->
  Screen.consistent (Main.setup Main.initialState (Some t)).
Proof.
  intros [H1 H2 H3 H4 H5 H6 H7 H8]. cbn [fst snd] in *.
  constructor; cbn [Main.setup fst snd Main.loadExpenses Main.st_filter
    Main.st_expenses Main.st_editingId Main.initialState]; auto.
  now left.
Qed.

Lemma consistent_save (s : Main.State) (t : Main.Table) (now : Z) :
  Z.abs now <= maxTime ->
  Screen.consistent (s, t) ->
  Screen.consistent (handle (s, t) (Screen.PressSave now)).
Proof.
  intros Hnow C. pose proof C as [H1 H2 H3 H4 H5 H6 H7 H8]. cbn [fst snd] in *.
  cbn [Screen.handle].
  destruct (string_dec (Main.st_amount s) "") as [Ea | Ha];
    [rewrite saveExpense_guard by (now left); exact C | ].
  destruct (string_dec (Main.st_category s) "") as [Ec | Hc];
    [rewrite saveExpense_guard by (now right); exact C | ].
  destruct (Main.editing (Main.st_editingId s)) as [i |] eqn:He.
  - rewrite (saveExpense_edit s t now i Ha Hc He).
    constructor; cbn [fst snd Main.st_filter Main.st_expenses Main.st_editingId]; auto.
    + now rewrite sqlUpdate_ids.
    + unfold Main.sqlUpdate. cbn [Main.rows Main.lastId]. rewrite Forall_map.
      eapply Forall_impl; [ | exact H5]. intros r Hr.
      now destruct (id r =? i).
    + unfold Main.sqlUpdate. cbn [Main.rows]. rewrite Forall_map.
      eapply Forall_impl; [ | exact H6]. intros r Hr.
      now destruct (id r =? i).
    + unfold Main.sqlUpdate. cbn [Main.rows]. rewrite Forall_map.
      eapply Forall_impl; [ | exact H7]. intros r Hr.
      now destruct (id r =? i).
  - rewrite (saveExpense_add s t now Ha Hc He).
    destruct (TableFacts.sqlInsert_spec (JS.parseFloat (Main.st_amount s))
                (Main.st_category s) (Main.st_note s) (toISOString now) t)
      as (R1 & R2 & R3).
    set (t' := Main.sqlInsert _ _ _ _ t) in *.
    constructor; cbn [fst snd Main.st_filter Main.st_expenses Main.st_editingId]; auto.
    + rewrite R1, map_app. cbn [map id].
      apply NoDup_app; [exact H3 | repeat constructor; intros [] | ].
      intros x Hx [<- | []]. apply in_map_iff in Hx as (r & E & Hr).
      rewrite Forall_forall in R3. specialize (R3 r Hr). lia.
    + lia.
    + rewrite R1. apply Forall_app. split.
      * eapply Forall_impl; [ | exact H5]. cbn beta. intros; lia.
      * repeat constructor; cbn [id]; lia.
    + rewrite R1. apply Forall_app. split; [exact H6 | ].
      repeat constructor. exact Hc.
    + rewrite R1. apply Forall_app. split; [exact H7 | ].
      repeat constructor. exists now. split; [exact Hnow | reflexivity].
    + destruct (Main.st_editingId s) as [i |]; trivial.
      assert (i = 0) by (destruct i; cbn in He; congruence). subst i.
      apply in_map_iff in H8 as (r & E & Hr).
      rewrite Forall_forall in H5. specialize (H5 r Hr). lia.
Qed.

Lemma consistent_step (w : Screen.World) (e : Screen.Event) :
  Screen.consistent w -> offered w e -> Screen.consistent (handle w e).
Proof.
  destruct w as [s t]. intros C Ho.
  destruct e as [text | text | text | now | f | item |].
  - destruct C. constructor; auto.
  - destruct C. constructor; auto.
  - destruct C. constructor; auto.
  - now apply consistent_save.
  - destruct C. constructor; auto.
  - destruct C as [H1 H2 H3 H4 H5 H6 H7 H8]. cbn [fst snd] in *.
    cbn [Screen.handle]. unfold Main.handleEdit.
    destruct Ho as [[now Hin] _]. apply visible_listed in Hin. cbn [fst] in Hin.
    rewrite H2 in Hin. apply TableFacts.sqlSelectAll_In in Hin.
    destruct (item_amount item);
      (constructor; cbn [fst snd Main.st_filter Main.st_expenses Main.st_editingId];
       auto; now apply in_map).
  - cbn [Screen.handle]. eapply consistent_mount. exact C.
Qed.

Lemma reachable_consistent (w : Screen.World) : reachable w -> Screen.consistent w.
Proof.
  induction 1 as [| w e _ IH Ho]; [apply consistent_start | now apply consistent_step].
Qed.

(** An [UPDATE ... WHERE id = ?] on ids that are distinct rewrites the
    one row of that id. *)
Lemma update_one_row (a : option number) (c n : string) (i : Z) (rows : list Expense) :
  NoDup (map id rows) -> In i (map id rows) ->
  exists before r after,
    rows = before ++ r :: after /\ id r = i /\
    map (fun r => if id r =? i then mkRow (id r) a c n (date r) else r) rows
    = before ++ mkRow i a c n (date r) :: after.
Proof.
  intros Hnd Hin. apply in_map_iff in Hin as (r & Hr & Hin).
  apply in_split in Hin as (before & after & ->).
  exists before, r, after. split; [reflexivity | split; [exact Hr | ]].
  rewrite map_app in Hnd. cbn [map] in Hnd.
  pose proof (NoDup_remove_2 _ _ _ Hnd) as Hout. rewrite Hr in Hout.
  assert (Hsame : forall l, ~ In i (map id l) ->
            map (fun r => if id r =? i then mkRow (id r) a c n (date r) else r) l = l).
  { induction l as [| x l IH]; intros Hx; [reflexivity | ].
    cbn [map] in *. destruct (Z.eqb_spec (id x) i) as [E | N].
    - exfalso. apply Hx. now left.
    - f_equal. apply IH. intros H. apply Hx. now right. }
  rewrite map_app. cbn [map]. rewrite Hr, Z.eqb_refl.
  rewrite !Hsame; [reflexivity | | ]; intros H; apply Hout, in_or_app; auto.
Qed.

(** Saving an edit in a consistent world. *)
Lemma save_edit_one_row (s : Main.State) (t : Main.Table) (now i : Z) :
  Screen.consistent (s, t) ->
  Main.st_editingId s = Some i ->
  Main.st_amount s <> ""%string -> Main.st_category s <> ""%string ->
  exists before r after,
    Main.rows t = before ++ r :: after /\ id r = i /\
    let '(s', t') := handle (s, t) (Screen.PressSave now) in
    Main.rows t'
    = before ++ mkRow i (Main.realColumn (JS.parseFloat (Main.st_amount s)))
                      (Main.st_category s) (Main.st_note s) (date r) :: after /\
    Main.lastId t' = Main.lastId t /\
    Main.st_editingId s' = None.
Proof.
  intros [H1 H2 H3 H4 H5 H6 H7 H8] He Ha Hc. cbn [fst snd] in *. rewrite He in H8.
  assert (Hi : Main.editing (Main.st_editingId s) = Some i).
  { rewrite He. apply in_map_iff in H8 as (r & E & Hr).
    rewrite Forall_forall in H5. specialize (H5 r Hr).
    destruct i; cbn; trivial. lia. }
  destruct (update_one_row (Main.realColumn (JS.parseFloat (Main.st_amount s)))
              (Main.st_category s) (Main.st_note s) i (Main.rows t) H3 H8)
    as (before & r & after & E1 & E2 & E3).
  exists before, r, after. split; [exact E1 | split; [exact E2 | ]].
  cbn [Screen.handle]. rewrite (saveExpense_edit s t now i Ha Hc Hi).
  cbn [Main.sqlUpdate Main.rows Main.lastId Main.st_editingId].
  split; [exact E3 | split; reflexivity].
Qed.

(** No event takes a row away, or changes the id or the date of one. *)
Lemma rows_kept (w : Screen.World) (e : Screen.Event) :
  let rows := Main.rows (snd w) in
  let rows' := Main.rows (snd (handle w e)) in
  (List.length rows <= List.length rows')%nat /\
  Forall (fun r => exists r', In r' rows' /\ id r' = id r /\ date r' = date r) rows.
Proof.
  destruct w as [s t]. cbv zeta. cbn [snd].
  assert (Same : (List.length (Main.rows t) <= List.length (Main.rows t))%nat /\
                 Forall (fun r => exists r', In r' (Main.rows t) /\ id r' = id r /\
                                             date r' = date r) (Main.rows t)).
  { split; [apply le_n | ]. apply Forall_forall. intros r Hr. exists r. auto. }
  destruct e as [text | text | text | now | f | item |]; try exact Same.
  cbn [Screen.handle]. unfold Main.saveExpense.
  destruct (negb (Main.nonEmpty (Main.st_amount s)) || negb (Main.nonEmpty (Main.st_category s)));
    [exact Same | ].
  destruct (Main.editing (Main.st_editingId s)) as [i |]; cbn [snd].
  - unfold Main.sqlUpdate. cbn [Main.rows]. rewrite length_map. split; [apply le_n | ].
    apply Forall_forall. intros r Hr.
    exists (if id r =? i
            then mkRow (id r) (Main.realColumn (JS.parseFloat (Main.st_amount s)))
                       (Main.st_category s) (Main.st_note s) (date r)
            else r).
    split; [ | destruct (id r =? i); cbn; auto].
    apply in_map_iff. exists r. auto.
  - unfold Main.sqlInsert. cbn [Main.rows]. rewrite length_app. cbn [List.length].
    split; [lia | ]. apply Forall_forall. intros r Hr. exists r.
    split; [apply in_or_app; now left | auto].
Qed.

(** Edit, then save with the form as it was filled: the table is as
    before. *)
Lemma edit_then_save (w : Screen.World) (item : Expense) (now : Z) :
  Screen.consistent w -> Forall (fun r => held (item_amount r)) (Main.rows (snd w)) ->
  offered w (Screen.PressEdit item) ->
  NumberText.textOf (amount item) (Number_toString (amount item)) ->
  let w' := handle (handle w (Screen.PressEdit item)) (Screen.PressSave now) in
  snd w' = snd w /\
  Main.st_expenses (fst w') = Main.st_expenses (fst w) /\
  Main.st_editingId (fst w') = None.
Proof.
  destruct w as [s t]. intros C Hh [[now' Hin] [card Hcard]] Ht. cbv zeta.
  pose proof C as [H1 H2 H3 H4 H5 H6 H7 H8]. cbn [fst snd] in *.
  apply visible_listed in Hin. rewrite H2 in Hin. apply TableFacts.sqlSelectAll_In in Hin.
  assert (Hid : 1 <= id item) by (rewrite Forall_forall in H5; apply (H5 _ Hin)).
  assert (Hcat : category item <> ""%string) by (rewrite Forall_forall in H6; apply (H6 _ Hin)).
  assert (Hheld : held (item_amount item)) by (rewrite Forall_forall in Hh; apply (Hh _ Hin)).
  unfold Screen.renderItem in Hcard. unfold amount in Ht.
  destruct (item_amount item) as [a |] eqn:Ea; [ | discriminate Hcard]. clear Hcard.
  cbn [held] in Hheld.
  assert (Hz : a <> S754_zero true) by (intros ->; discriminate Hheld).
  cbn [Screen.handle]. unfold Main.handleEdit. rewrite Ea. cbn [fst].
  set (s1 := Main.mkState _ (Number_toString a) _ _ _ _).
  assert (Ha : Main.st_amount s1 <> ""%string)
    by (exact (ParseFacts.textOf_filled _ _ Ht)).
  assert (Hi : Main.editing (Main.st_editingId s1) = Some (id item)).
  { cbn. destruct (id item); trivial; lia. }
  rewrite (saveExpense_edit s1 t now (id item) Ha Hcat Hi).
  cbn [fst snd Main.st_expenses Main.st_editingId].
  assert (Et : Main.sqlUpdate (JS.parseFloat (Main.st_amount s1)) (Main.st_category s1)
                 (Main.st_note s1) (id item) t = t).
  { destruct (update_one_row (Main.realColumn (JS.parseFloat (Main.st_amount s1)))
                (Main.st_category s1) (Main.st_note s1) (id item) (Main.rows t) H3
                (in_map id _ _ Hin))
      as (before & r & after & E1 & E2 & E3).
    unfold Main.sqlUpdate. rewrite E3.
    assert (r = item).
    { rewrite E1 in H3, Hin. rewrite map_app in H3. cbn [map] in H3.
      apply in_app_or in Hin as [Hb | [Hr | Ha']]; trivial; exfalso.
      - apply (NoDup_remove_2 _ _ _ H3). apply in_or_app. left.
        rewrite E2. now apply in_map.
      - apply (NoDup_remove_2 _ _ _ H3). apply in_or_app. right.
        rewrite E2. now apply in_map. }
    subst r. cbn [Main.st_amount Main.st_category Main.st_note s1].
    rewrite (ParseFacts.parseFloat_textOf _ _ Ht Hz), Hheld, <- Ea.
    replace (mkRow (id item) (item_amount item) (category item) (note item) (date item))
      with item by (now destruct item).
    rewrite <- E1. now destruct t. }
  rewrite Et. repeat split. symmetry. exact H2.
Qed.

(** The amounts of the rows are those a REAL column gives back. *)
Lemma realColumn_held (a : number) : held (Main.realColumn a).
Proof. now destruct a. Qed.

Lemma held_step (w : Screen.World) (e : Screen.Event) :
  Forall (fun r => held (item_amount r)) (Main.rows (snd w)) ->
  Forall (fun r => held (item_amount r)) (Main.rows (snd (handle w e))).
Proof.
  destruct w as [s t]. cbn [snd]. intros H.
  destruct e as [text | text | text | now | f | item |]; try exact H.
  cbn [Screen.handle]. unfold Main.saveExpense.
  destruct (negb (Main.nonEmpty (Main.st_amount s)) || negb (Main.nonEmpty (Main.st_category s)));
    [exact H | ].
  destruct (Main.editing (Main.st_editingId s)) as [i |]; cbn [snd].
  - unfold Main.sqlUpdate. cbn [Main.rows]. rewrite Forall_map.
    eapply Forall_impl; [ | exact H]. intros r Hr.
    destruct (id r =? i); [apply realColumn_held | exact Hr].
  - unfold Main.sqlInsert. cbn [Main.rows]. apply Forall_app. split; [exact H | ].
    repeat constructor. apply realColumn_held.
Qed.

Lemma reachable_held (w : Screen.World) :
  reachable w -> Forall (fun r => held (item_amount r)) (Main.rows (snd w)).
Proof.
  induction 1 as [| w e _ IH _]; [constructor | now apply held_step].
Qed.

End Component.

End ScreenFacts.

Section ScreenProperties.

Variable LocalTZA : Z -> bool -> Z.
Variable Date_parse : string -> option Z.
Variable Number_toString : number -> string.

Local Abbreviation handle := (Screen.handle Number_toString).
Local Abbreviation offered := (Screen.offered LocalTZA Date_parse Number_toString).
Local Abbreviation reachable := (Screen.reachable LocalTZA Date_parse Number_toString).

(** X11. In every world the screen gets to, the filter is one of All,
    Week and Month, the list of the state is the table as loaded, the
    ids of the rows are distinct and between 1 and the last id given,
    no row has an empty category, the date of every row is the ISO text
    of an instant, and an edit that is going on is the edit of a row of
    the table. *)
Theorem X11_reachable_worlds_consistent (w : Screen.World) :
  reachable w -> Screen.consistent w.
Proof. apply ScreenFacts.reachable_consistent. Qed.

(** X13. No event takes a row away from the table, or changes the id or
    the date of a row. *)
Theorem X13_no_event_loses_a_row (w : Screen.World) (e : Screen.Event) :
  let rows := Main.rows (snd w) in
  let rows' := Main.rows (snd (handle w e)) in
  (List.length rows <= List.length rows')%nat /\
  Forall (fun r => exists r', In r' rows' /\ id r' = id r /\ date r' = date r) rows.
Proof. apply ScreenFacts.rows_kept. Qed.

(** X14. In a world the screen gets to, saving an edit rewrites exactly
    the row being edited: that row gets the category and the note of
    the form and, for its amount, what the REAL column holds for the
    number that [parseFloat] reads in the form (NULL for NaN, [+0] for a
    zero, the number itself otherwise), and keeps its id and date; the
    rows before and after it stay as they are, and the edit is over. *)
Theorem X14_edit_rewrites_one_row (s : Main.State) (t : Main.Table) (now i : Z) :
  reachable (s, t) ->
  Main.st_editingId s = Some i ->
  Main.st_amount s <> ""%string -> Main.st_category s <> ""%string ->
  exists before r after,
    Main.rows t = before ++ r :: after /\ id r = i /\
    let '(s', t') := handle (s, t) (Screen.PressSave now) in
    Main.rows t'
    = before ++ mkRow i (Main.realColumn (JS.parseFloat (Main.st_amount s)))
                      (Main.st_category s) (Main.st_note s) (date r) :: after /\
    Main.lastId t' = Main.lastId t /\
    Main.st_editingId s' = None.
Proof.
  intros Hr. apply ScreenFacts.save_edit_one_row.
  exact (ScreenFacts.reachable_consistent _ _ _ _ Hr).
Qed.

(** X6. In a world the screen gets to, Edit on a card followed by the
    button of the form, with nothing typed in between, leaves the table
    and the list as they were and ends the edit: the text the engine
    gives for the amount reads back as the amount, which the column
    holds as it is. *)
Theorem X6_edit_then_save_changes_nothing (w : Screen.World) (item : Expense) (now : Z) :
  reachable w -> offered w (Screen.PressEdit item) ->
  NumberText.textOf (amount item) (Number_toString (amount item)) ->
  let w' := handle (handle w (Screen.PressEdit item)) (Screen.PressSave now) in
  snd w' = snd w /\
  Main.st_expenses (fst w') = Main.st_expenses (fst w) /\
  Main.st_editingId (fst w') = None.
Proof.
  intros Hr. apply ScreenFacts.edit_then_save.
  - exact (ScreenFacts.reachable_consistent _ _ _ _ Hr).
  - exact (ScreenFacts.reachable_held _ _ _ _ Hr).
Qed.

(** X21. The table never holds an amount that is NaN or the negative
    zero: in every world the screen gets to, the amount of each row is
    [null] or a number that a REAL column gives back as it is, and so
    are the amounts of the list of the state. *)
Theorem X21_amounts_as_the_column_holds_them (w : Screen.World) :
  reachable w ->
  Forall (fun r => held (item_amount r)) (Main.rows (snd w)) /\
  Forall (fun r => held (item_amount r)) (Main.st_expenses (fst w)) /\
  Forall (fun r => amount r <> JS.NaN /\ amount r <> S754_zero true)
         (Main.st_expenses (fst w)).
Proof.
  intros Hr. pose proof (ScreenFacts.reachable_held _ _ _ _ Hr) as H.
  destruct (ScreenFacts.reachable_consistent _ _ _ _ Hr) as [_ Hl _ _ _ _ _ _].
  assert (H' : Forall (fun r => held (item_amount r)) (Main.st_expenses (fst w))).
  { rewrite Hl. rewrite Forall_forall in H |- *. intros r Hin.
    apply H. now apply TableFacts.sqlSelectAll_In. }
  split; [exact H | split; [exact H' | ]].
  eapply Forall_impl; [ | exact H']. intros r. unfold held, amount.
  destruct (item_amount r) as [[[] | | | ] |]; cbn; intros E;
    split; first [discriminate | discriminate E].
Qed.

(** X22. An amount that is no number is saved all the same, and its
    record cannot be shown: with a filled form whose amount [parseFloat]
    reads as NaN and no edit going on, the save adds a row whose amount
    is [null]; it heads the list, [renderItem] throws a TypeError on it
    ([null] has no [toFixed]), as would [handleEdit], and the totals
    count it as zero. *)
Theorem X22_unreadable_amount_is_saved_as_null
    (s : Main.State) (t : Main.Table) (now : Z) :
  Main.st_amount s <> ""%string -> Main.st_category s <> ""%string ->
  Main.editing (Main.st_editingId s) = None ->
  JS.parseFloat (Main.st_amount s) = JS.NaN ->
  let w' := handle (s, t) (Screen.PressSave now) in
  exists r,
    Main.st_expenses (fst w') = r :: Main.sqlSelectAll t /\
    Main.rows (snd w') = Main.rows t ++ [r] /\
    item_amount r = None /\
    Screen.renderItem Number_toString r = Screen.Throw "TypeError" /\
    snd (Main.handleEdit Number_toString (fst w') r) = Some "TypeError"%string /\
    Main.total (Main.calculateTotals (r :: Main.sqlSelectAll t))
    = Main.total (Main.calculateTotals (Main.sqlSelectAll t)).
Proof.
  intros Ha Hc He Hnan w'. unfold w'. cbn [Screen.handle].
  rewrite (saveExpense_add s t now Ha Hc He), Hnan. cbn [fst snd Main.st_expenses].
  rewrite TableFacts.sqlSelectAll_insert.
  destruct (TableFacts.sqlInsert_spec JS.NaN (Main.st_category s) (Main.st_note s)
              (toISOString now) t) as (R1 & _ & _).
  set (t' := Main.sqlInsert _ _ _ _ t) in *. cbn [Main.realColumn] in *.
  eexists. split; [reflexivity | split; [exact R1 | ]].
  split; [reflexivity | split; [reflexivity | split; [reflexivity | ]]].
  cbn [Main.calculateTotals Main.total fold_left]. f_equal.
Qed.

End ScreenProperties.

(** ** Timestamps *)

(** X4. The date a save writes reads back as the instant of the save:
    for a time value of the range of Date in a year from 0 to 9999, the
    ISO reading of [toISOString] is the time value. *)
Theorem X4_stamp_reads_back (t : Z) :
  Z.abs t <= maxTime -> 0 <= YearFromTime t <= 9999 ->
  parseISO (toISOString t) = Some t.
Proof. apply StampFacts.stamp_reads_back. Qed.

Lemma X4_witness :
  (Z.abs wednesdayNoon <= maxTime /\ 0 <= YearFromTime wednesdayNoon <= 9999) /\
  parseISO (toISOString wednesdayNoon) = Some wednesdayNoon.
Proof.
  assert (H1 : Z.abs wednesdayNoon <= maxTime) by (vm_compute; discriminate).
  assert (H2 : 0 <= YearFromTime wednesdayNoon <= 9999)
    by (split; vm_compute; discriminate).
  split; [split; assumption | ].
  exact (X4_stamp_reads_back wednesdayNoon H1 H2).
Defined.

(** ** Amounts as text *)

(** X7. The text the language gives for a number reads back as the
    number: [parseFloat] of a text of [x] as Number::toString lays it
    out is [x], for every number but the negative zero (whose text is
    that of zero). *)
Theorem X7_number_text_reads_back (x : number) (text : string) :
  NumberText.textOf x text -> x <> S754_zero true -> JS.parseFloat text = x.
Proof. apply ParseFacts.parseFloat_textOf. Qed.

Lemma X7_witness :
  let x := S754_finite false 6192449487634432 (-50) in
  (NumberText.textOf x "5.5" /\ x <> S754_zero true) /\ JS.parseFloat "5.5" = x.
Proof.
  intros x.
  assert (H1 : NumberText.textOf x "5.5").
  { exists 55%N, 2, 1. repeat split; try reflexivity; cbn; lia. }
  assert (H2 : x <> S754_zero true) by discriminate.
  split; [split; assumption | ].
  exact (X7_number_text_reads_back x "5.5" H1 H2).
Defined.

(** X15. What follows the digits of an amount is dropped without
    notice: for a text that begins with the decimal digits of [n] and
    goes on with a character that is no digit, point or exponent mark
    (a comma, a space, a letter), [parseFloat] gives [n]. *)
Theorem X15_text_after_digits_dropped (n : N) (c : ascii) (rest : string) :
  continues c = false ->
  JS.parseFloat (NumberText.decimal n ++ String c rest) = JS.ofZ (Z.of_N n).
Proof. apply ParseFacts.parseFloat_prefix. Qed.

Lemma X15_witness :
  continues "," = false /\ JS.parseFloat "12,50" = JS.ofZ 12.
Proof.
  split; [reflexivity | ].
  exact (X15_text_after_digits_dropped 12 "," "50" eq_refl).
Defined.

(** ** The total as shown *)

Lemma total_NaN (l : list Expense) (acc : number) :
  acc = JS.NaN \/ Exists (fun ex => amount ex = JS.NaN) l ->
  fold_left (fun sum item => JS.add sum (amount item)) l acc = JS.NaN.
Proof.
  revert acc. induction l as [| x l IH]; intros acc [H | H].
  - exact H.
  - inversion H.
  - cbn [fold_left]. apply IH. left. now rewrite H.
  - cbn [fold_left]. apply IH. inversion H as [? ? Hx | ? ? Hl]; subst.
    + left. rewrite Hx. now destruct acc.
    + now right.
Qed.

Section Display.

Variable Number_toString : number -> string.

Local Abbreviation toFixed := (NumberText.toFixed Number_toString).

(** X9. The total is shown to the cent.  When every amount stands for a
    whole number of hundredths (it is within a relative 2^-52 of it, as
    the number nearest to a price is) and the list is short of
    [(4 n + 2) (A + 1) < 2^52] for [n] records of [A] hundredths in
    all, [total.toFixed(2)] is the exact sum of the hundredths, written
    with its point, after a minus sign when the total is negative. *)
Theorem X9_total_shown_to_the_cent (l : list Expense) (c : Expense -> Z) :
  Forall (fun ex => nearCents (amount ex) (c ex)) l ->
  (4 * Z.of_nat (List.length l) + 2) * (sumOf (fun ex => Z.abs (c ex)) l + 1) < 2 ^ 52 ->
  let T := Main.total (Main.calculateTotals l) in
  let C := sumOf c l in
  toFixed T = ((if (units T <? 0)%Z then "-" else "") ++ centsText (Z.abs C))%string /\
  (0 < C -> 0 < units T) /\ (C < 0 -> units T < 0).
Proof. apply DisplayFacts.total_shown. Qed.

(** X16. One amount that is no number makes the total no number: with a
    NaN among the amounts, [total] is NaN, and the summary shows the
    text of NaN for it. *)
Theorem X16_total_of_a_NaN (l : list Expense) :
  Exists (fun ex => amount ex = JS.NaN) l ->
  Main.total (Main.calculateTotals l) = JS.NaN /\
  toFixed (Main.total (Main.calculateTotals l)) = Number_toString JS.NaN.
Proof.
  intros H.
  assert (E : Main.total (Main.calculateTotals l) = JS.NaN)
    by (apply total_NaN; now right).
  split; [exact E | now rewrite E].
Qed.

End Display.

Lemma X9_witness :
  let l := [mkExpense 1 (JS.parseFloat "10.00") "Food" "" "";
            mkExpense 2 (JS.parseFloat "5.50") "Food" "" "";
            mkExpense 3 (JS.parseFloat "20.00") "Rent" "" ""] in
  let c := fun ex => match id ex with 1 => 1000 | 2 => 550 | _ => 2000 end in
  let show := NumberText.toFixed (fun _ => "NaN"%string) in
  (Forall (fun ex => nearCents (amount ex) (c ex)) l /\
   (4 * Z.of_nat (List.length l) + 2) * (sumOf (fun ex => Z.abs (c ex)) l + 1) < 2 ^ 52) /\
  show (Main.total (Main.calculateTotals l)) = "35.50"%string.
Proof.
  intros l c show.
  assert (H1 : Forall (fun ex => nearCents (amount ex) (c ex)) l).
  { repeat constructor; vm_compute; discriminate. }
  assert (H2 : (4 * Z.of_nat (List.length l) + 2)
               * (sumOf (fun ex => Z.abs (c ex)) l + 1) < 2 ^ 52) by reflexivity.
  split; [split; assumption | ].
  exact (proj1 (X9_total_shown_to_the_cent (fun _ => "NaN"%string) l c H1 H2)).
Defined.

Lemma X16_witness :
  let l := [expense (JS.ofZ 10) "Food"; expense (JS.parseFloat "abc") "Food"] in
  Exists (fun ex => amount ex = JS.NaN) l /\
  Main.total (Main.calculateTotals l) = JS.NaN.
Proof.
  intros l.
  assert (H : Exists (fun ex => amount ex = JS.NaN) l)
    by (apply Exists_cons_tl, Exists_cons_hd; reflexivity).
  split; [exact H | ].
  exact (proj1 (X16_total_of_a_NaN (fun _ => "NaN"%string) l H)).
Defined.

(** ** Worlds of the screen *)

Lemma savedWorld_reachable :
  Screen.reachable zonePlus5 parseISO sampleText savedWorld.
Proof.
  unfold savedWorld. repeat apply Screen.reachable_step;
    try apply Screen.reachable_start; try exact I.
  vm_compute. discriminate.
Qed.

Lemma savedItem_offered :
  Screen.offered zonePlus5 parseISO sampleText savedWorld (Screen.PressEdit savedItem).
Proof. split; [exists 0; left; reflexivity | eexists; reflexivity]. Qed.

Lemma editingWorld_reachable :
  Screen.reachable zonePlus5 parseISO sampleText editingWorld.
Proof.
  apply Screen.reachable_step; [apply savedWorld_reachable | apply savedItem_offered].
Qed.

Lemma X11_witness :
  Screen.reachable zonePlus5 parseISO sampleText editingWorld /\
  Screen.consistent editingWorld.
Proof.
  split; [apply editingWorld_reachable | ].
  exact (X11_reachable_worlds_consistent zonePlus5 parseISO sampleText editingWorld
           editingWorld_reachable).
Defined.

Lemma threeWorld_reachable :
  Screen.reachable zonePlus5 parseISO sampleText threeWorld.
Proof.
  unfold threeWorld. cbn [fold_left].
  do 7 (apply Screen.reachable_step; [ | first [exact I | vm_compute; discriminate]]).
  apply savedWorld_reachable.
Qed.

Lemma weekWorld_reachable :
  Screen.reachable zonePlus5 parseISO sampleText weekWorld.
Proof.
  apply Screen.reachable_step; [apply threeWorld_reachable | ].
  right. left. reflexivity.
Qed.

Lemma threeEditing_reachable :
  Screen.reachable zonePlus5 parseISO sampleText threeEditing.
Proof.
  unfold threeEditing. cbn [fold_left].
  apply Screen.reachable_step; [ | exact I].
  apply Screen.reachable_step; [apply threeWorld_reachable | ].
  split; [exists 0; lazy; right; left; reflexivity | lazy; eexists; reflexivity].
Qed.

Lemma X14_witness :
  let s := fst threeEditing in
  let t := snd threeEditing in
  (Screen.reachable zonePlus5 parseISO sampleText (s, t) /\
   Main.st_editingId s = Some 2 /\
   Main.st_amount s <> ""%string /\ Main.st_category s <> ""%string) /\
  exists before r after,
    Main.rows t = before ++ r :: after /\ id r = 2 /\
    let '(s', t') := Screen.handle sampleText (s, t) (Screen.PressSave wednesdayNoon) in
    Main.rows t'
    = before ++ mkRow 2 (Main.realColumn (JS.parseFloat (Main.st_amount s)))
                      (Main.st_category s) (Main.st_note s) (date r) :: after /\
    Main.lastId t' = Main.lastId t /\
    Main.st_editingId s' = None.
Proof.
  intros s t.
  assert (H1 : Screen.reachable zonePlus5 parseISO sampleText (s, t))
    by (unfold s, t; rewrite <- surjective_pairing; exact threeEditing_reachable).
  assert (H2 : Main.st_editingId s = Some 2) by (lazy; reflexivity).
  assert (H3 : Main.st_amount s <> ""%string) by (lazy; discriminate).
  assert (H4 : Main.st_category s <> ""%string) by (lazy; discriminate).
  split; [repeat split; assumption | ].
  exact (X14_edit_rewrites_one_row zonePlus5 parseISO sampleText s t wednesdayNoon 2
           H1 H2 H3 H4).
Defined.

Lemma X6_witness :
  let w' := Screen.handle sampleText
              (Screen.handle sampleText savedWorld (Screen.PressEdit savedItem))
              (Screen.PressSave 0) in
  (Screen.reachable zonePlus5 parseISO sampleText savedWorld /\
   Screen.offered zonePlus5 parseISO sampleText savedWorld (Screen.PressEdit savedItem) /\
   NumberText.textOf (amount savedItem) (sampleText (amount savedItem))) /\
  snd w' = snd savedWorld /\
  Main.st_expenses (fst w') = Main.st_expenses (fst savedWorld) /\
  Main.st_editingId (fst w') = None.
Proof.
  intros w'.
  assert (H3 : NumberText.textOf (amount savedItem) (sampleText (amount savedItem))).
  { exists 5%N, 1, 1. repeat split; try reflexivity; cbn; lia. }
  split; [split; [apply savedWorld_reachable
                  | split; [apply savedItem_offered | exact H3]] | ].
  exact (X6_edit_then_save_changes_nothing zonePlus5 parseISO sampleText savedWorld
           savedItem 0 savedWorld_reachable savedItem_offered H3).
Defined.

Lemma unreadableWorld_reachable :
  Screen.reachable zonePlus5 parseISO sampleText unreadableWorld.
Proof.
  unfold unreadableWorld. cbn [fold_left].
  do 3 (apply Screen.reachable_step; [ | first [exact I | vm_compute; discriminate]]).
  apply threeWorld_reachable.
Qed.

Lemma X21_witness :
  let w := unreadableWorld in
  Screen.reachable zonePlus5 parseISO sampleText w /\
  Forall (fun r => held (item_amount r)) (Main.rows (snd w)) /\
  Forall (fun r => held (item_amount r)) (Main.st_expenses (fst w)) /\
  Forall (fun r => amount r <> JS.NaN /\ amount r <> S754_zero true)
         (Main.st_expenses (fst w)).
Proof.
  intros w. split; [apply unreadableWorld_reachable | ].
  exact (X21_amounts_as_the_column_holds_them zonePlus5 parseISO sampleText w
           unreadableWorld_reachable).
Defined.

Lemma X22_witness :
  let s := Main.mkState (Main.st_expenses (fst savedWorld)) "abc" "Misc" "" "All" None in
  let t := snd savedWorld in
  let w' := Screen.handle sampleText (s, t) (Screen.PressSave (wednesdayNoon + msPerDay)) in
  (Main.st_amount s <> ""%string /\ Main.st_category s <> ""%string /\
   Main.editing (Main.st_editingId s) = None /\
   JS.parseFloat (Main.st_amount s) = JS.NaN) /\
  exists r,
    Main.st_expenses (fst w') = r :: Main.sqlSelectAll t /\
    Main.rows (snd w') = Main.rows t ++ [r] /\
    item_amount r = None /\
    Screen.renderItem sampleText r = Screen.Throw "TypeError" /\
    snd (Main.handleEdit sampleText (fst w') r) = Some "TypeError"%string /\
    Main.total (Main.calculateTotals (r :: Main.sqlSelectAll t))
    = Main.total (Main.calculateTotals (Main.sqlSelectAll t)).
Proof.
  intros s t w'.
  assert (H1 : Main.st_amount s <> ""%string) by discriminate.
  assert (H2 : Main.st_category s <> ""%string) by discriminate.
  assert (H3 : Main.editing (Main.st_editingId s) = None) by reflexivity.
  assert (H4 : JS.parseFloat (Main.st_amount s) = JS.NaN) by reflexivity.
  split; [repeat split; assumption | ].
  exact (X22_unreadable_amount_is_saved_as_null sampleText s t (wednesdayNoon + msPerDay)
           H1 H2 H3 H4).
Defined.

(** ** Prices *)

Section Prices.

Variable Number_toString : number -> string.

Local Abbreviation toFixed := (NumberText.toFixed Number_toString).

(** X17. What is typed with at most two digits after the point is kept
    and shown as that price: for digits [m] with [k <= 2] of them after
    the point, [parseFloat] gives a number that stands for the
    hundredths [c = m * 10^(2 - k)] (short of 2^51), and
    [amount.toFixed(2)] on a card is [c] written with two digits after
    the point. *)
Theorem X17_typed_amount_shown (m : N) (k : nat) :
  (k <= 2)%nat -> Z.of_N m * 10 ^ (2 - Z.of_nat k) < 2 ^ 51 ->
  let a := JS.parseFloat (amountText m k) in
  let c := Z.of_N m * 10 ^ (2 - Z.of_nat k) in
  nearCents a c /\ toFixed a = centsText c.
Proof. apply PriceFacts.typed_amount_shown. Qed.

(** X18. The summary of prices is exact.  When every amount stands for
    a whole number of hundredths, none negative, no category names a
    property of [Object.prototype], and [(4 n + 2) (C + 1) < 2^52] for
    [n] records of [C] hundredths in all, the summary section is the
    exact sum of all the hundredths, then for each key of [byCategory]
    the exact sum of the hundredths of its records, each written with
    two digits after the point. *)
Theorem X18_summary_of_prices (c : Expense -> Z) (l : list Expense) :
  prices c l ->
  existsb (fun ex => textLabel (category ex)) l = false ->
  (4 * Z.of_nat (List.length l) + 2) * (sumOf c l + 1) < 2 ^ 52 ->
  Screen.summarySection Number_toString (Main.calculateTotals l)
  = Screen.Normal
      (("Total Spending: $" ++ centsText (sumOf c l))%string
       :: map (fun k => (k ++ ": $" ++ centsText (sumOf c (withCategory k l)))%string)
              (JS.keys (Main.byCategory (Main.calculateTotals l)))).
Proof. apply PriceFacts.prices_summary. Qed.

(** A number that [parseFloat] reads without a sign is no negative
    zero. *)
Lemma ofDecimal_unsigned (n : N) (e10 : Z) :
  JS.ofDecimal false n e10 <> S754_zero true.
Proof.
  rewrite ParseFacts.ofDecimal_sign. now destruct (JS.ofDecimal false n e10).
Qed.

(** X23. A price typed into the form is the price on the card of the
    record saved: with the digits of [m], [k <= 2] of them after the
    point, for the amount, a category and no edit going on, the save
    adds a record that heads the list, holds the number that
    [parseFloat] reads, and whose card shows the category, the
    hundredths [c = m * 10^(2 - k)] (short of 2^51) written with two
    digits after the point, and the note. *)
Theorem X23_typed_price_on_the_card
    (s : Main.State) (t : Main.Table) (now : Z) (m : N) (k : nat) :
  Main.st_amount s = amountText m k -> Main.st_category s <> ""%string ->
  Main.editing (Main.st_editingId s) = None ->
  (k <= 2)%nat -> Z.of_N m * 10 ^ (2 - Z.of_nat k) < 2 ^ 51 ->
  let c := Z.of_N m * 10 ^ (2 - Z.of_nat k) in
  let w' := Screen.handle Number_toString (s, t) (Screen.PressSave now) in
  exists r,
    Main.st_expenses (fst w') = r :: Main.sqlSelectAll t /\
    item_amount r = Some (JS.parseFloat (amountText m k)) /\
    Screen.renderItem Number_toString r
    = Screen.Normal (Main.st_category s, ("$" ++ centsText c)%string, Main.st_note s).
Proof.
  intros Ea Hc He Hk Hm c w'.
  destruct (PriceFacts.typed_amount_shown Number_toString m k Hk Hm) as [Hn Ht].
  cbv zeta in Hn, Ht. fold c in Hn, Ht.
  set (a := JS.parseFloat (amountText m k)) in *.
  assert (Hfin : finiteNumber a = true) by exact (proj1 Hn).
  assert (Ha : Main.st_amount s <> ""%string).
  { intros E. rewrite E in Ea. unfold a in Hfin. rewrite <- Ea in Hfin. discriminate Hfin. }
  assert (Hr : Main.realColumn a = Some a).
  { pose proof (ofDecimal_unsigned m (- Z.of_nat k)) as Hz.
    rewrite <- PriceFacts.parseFloat_amountText in Hz. fold a in Hz.
    destruct a as [[] | | | ]; try reflexivity; try discriminate Hfin. now elim Hz. }
  unfold w'. cbn [Screen.handle]. rewrite (saveExpense_add s t now Ha Hc He).
  cbn [fst Main.st_expenses]. rewrite TableFacts.sqlSelectAll_insert.
  rewrite Ea. fold a. rewrite Hr.
  eexists. split; [reflexivity | split; [reflexivity | ]].
  unfold Screen.renderItem. cbn [item_amount JS.ofColumn Screen.callToFixed category note].
  now rewrite Ht.
Qed.

End Prices.

Lemma X17_witness :
  ((1 <= 2)%nat /\ Z.of_N 55 * 10 ^ (2 - Z.of_nat 1) < 2 ^ 51) /\
  nearCents (JS.parseFloat "5.5") 550 /\
  NumberText.toFixed sampleText (JS.parseFloat "5.5") = "5.50"%string.
Proof.
  assert (H1 : (1 <= 2)%nat) by (apply le_S, le_n).
  assert (H2 : Z.of_N 55 * 10 ^ (2 - Z.of_nat 1) < 2 ^ 51) by reflexivity.
  split; [split; assumption | ].
  exact (X17_typed_amount_shown sampleText 55 1 H1 H2).
Defined.

Lemma X18_witness :
  let l := [mkExpense 1 (JS.parseFloat "10.00") "Food" "" "";
            mkExpense 2 (JS.parseFloat "5.50") "Food" "" "";
            mkExpense 3 (JS.parseFloat "20.00") "Rent" "" ""] in
  let c := fun ex => match id ex with 1 => 1000 | 2 => 550 | _ => 2000 end in
  (prices c l /\
   existsb (fun ex => textLabel (category ex)) l = false /\
   (4 * Z.of_nat (List.length l) + 2) * (sumOf c l + 1) < 2 ^ 52) /\
  Screen.summarySection sampleText (Main.calculateTotals l)
  = Screen.Normal ["Total Spending: $35.50"; "Food: $15.50"; "Rent: $20.00"]%string.
Proof.
  intros l c.
  assert (H1 : prices c l).
  { repeat constructor; vm_compute; discriminate. }
  assert (H2 : existsb (fun ex => textLabel (category ex)) l = false) by reflexivity.
  assert (H3 : (4 * Z.of_nat (List.length l) + 2) * (sumOf c l + 1) < 2 ^ 52)
    by reflexivity.
  split; [repeat split; assumption | ].
  exact (X18_summary_of_prices sampleText c l H1 H2 H3).
Defined.

Lemma X23_witness :
  let s := form "5.50" "Food" "lunch" None in
  let t := snd savedWorld in
  let w' := Screen.handle sampleText (s, t) (Screen.PressSave (wednesdayNoon + msPerDay)) in
  (Main.st_amount s = amountText 550 2 /\ Main.st_category s <> ""%string /\
   Main.editing (Main.st_editingId s) = None /\
   (2 <= 2)%nat /\ Z.of_N 550 * 10 ^ (2 - Z.of_nat 2) < 2 ^ 51) /\
  exists r,
    Main.st_expenses (fst w') = r :: Main.sqlSelectAll t /\
    item_amount r = Some (JS.parseFloat (amountText 550 2)) /\
    Screen.renderItem sampleText r = Screen.Normal ("Food", "$5.50", "lunch")%string.
Proof.
  intros s t w'.
  assert (H1 : Main.st_amount s = amountText 550 2) by reflexivity.
  assert (H2 : Main.st_category s <> ""%string) by discriminate.
  assert (H3 : Main.editing (Main.st_editingId s) = None) by reflexivity.
  assert (H4 : (2 <= 2)%nat) by apply le_n.
  assert (H5 : Z.of_N 550 * 10 ^ (2 - Z.of_nat 2) < 2 ^ 51) by reflexivity.
  split; [repeat split; assumption | ].
  exact (X23_typed_price_on_the_card sampleText s t (wednesdayNoon + msPerDay) 550 2
           H1 H2 H3 H4 H5).
Defined.

(** ** A saved record on the screen *)

Section Shown.

Variable LocalTZA : Z -> bool -> Z.
Variable Date_parse : string -> option Z.
Variable Number_toString : number -> string.

Local Abbreviation LocalTime := (Main.LocalTime LocalTZA).
Local Abbreviation UTC := (Main.UTC LocalTZA).
Local Abbreviation handle := (Screen.handle Number_toString).
Local Abbreviation visibleExpenses := (Screen.visibleExpenses LocalTZA Date_parse).

(** X5. A record is on the screen as soon as it is saved, whatever the
    filter is: with the clock 40 days inside the range of Date, zone
    offsets below a day, the local Sunday read back on its own day, a
    local year outside 0 to 99, a host that reads the ISO text of now
    as now, and local times up to that of now being instants up to now,
    the record that [saveExpense] adds at the instant [now] heads the
    reloaded list, and a rendering at that instant shows it first,
    before the records of the table that the filter lets through. *)
Theorem X5_saved_record_is_shown (s : Main.State) (t : Main.Table) (now : Z) :
  Main.st_amount s <> ""%string -> Main.st_category s <> ""%string ->
  Main.editing (Main.st_editingId s) = None ->
  clock_in_range now -> zone_bounded LocalTZA ->
  same_local_day LocalTZA
    (MakeDate (Day (LocalTime now) - WeekDay (LocalTime now))
              (TimeWithinDay (LocalTime now))) ->
  ~ (0 <= YearFromTime (LocalTime now) <= 99) ->
  Date_parse (toISOString now) = Some now ->
  (forall l, l <= LocalTime now -> UTC l <= now) ->
  let s' := fst (handle (s, t) (Screen.PressSave now)) in
  exists r,
    date r = toISOString now /\ category r = Main.st_category s /\
    Main.st_expenses s' = r :: Main.sqlSelectAll t /\
    visibleExpenses s' now
    = r :: Main.getFilteredExpenses LocalTZA Date_parse (Main.st_filter s)
             (Main.sqlSelectAll t) now.
Proof.
  intros Ha Hc He Hn Hz Hd Hy Hp Hm s'.
  unfold s'. cbn [Screen.handle]. rewrite (saveExpense_add s t now Ha Hc He).
  cbn [fst]. rewrite TableFacts.sqlSelectAll_insert.
  set (t' := Main.sqlInsert _ _ _ _ t).
  set (r := mkRow (Main.lastId t') _ _ _ _).
  exists r.
  split; [reflexivity | split; [reflexivity | split; [reflexivity | ]]].
  unfold Screen.visibleExpenses, Main.getFilteredExpenses.
  cbn [Main.st_filter Main.st_expenses].
  destruct (Main.st_filter s =? "All")%string; [reflexivity | ].
  cbn [List.filter].
  replace (Date_parse (date r)) with (Some now) by (symmetry; exact Hp).
  assert (W : Main.Date_ge (Some now) (Main.startOfWeek LocalTZA now) = true).
  { rewrite (startOfWeek_eq LocalTZA now Hn Hz Hd). cbn [Main.Date_ge].
    apply negb_true_iff, Z.ltb_ge, Hm.
    apply (DateFacts.first_of_week (LocalTime now)). }
  assert (M : Main.Date_ge (Some now) (Main.startOfMonth LocalTZA now) = true).
  { rewrite (startOfMonth_eq LocalTZA now Hn Hz Hy). cbn [Main.Date_ge].
    apply negb_true_iff, Z.ltb_ge, Hm.
    apply (DateFacts.first_of_month (LocalTime now)). }
  rewrite W, M.
  destruct (Main.st_filter s =? "Week")%string; [reflexivity | ].
  destruct (Main.st_filter s =? "Month")%string; reflexivity.
Qed.

End Shown.

Lemma X5_witness :
  let s := Main.mkState [] "5.50" "Food" "lunch" "Week" None in
  let t := Main.mkTable [] 0 in
  let now := wednesdayNoon in
  let s' := fst (Screen.handle sampleText (s, t) (Screen.PressSave now)) in
  exists r,
    date r = toISOString now /\ category r = Main.st_category s /\
    Main.st_expenses s' = r :: Main.sqlSelectAll t /\
    Screen.visibleExpenses zonePlus5 parseISO s' now
    = r :: Main.getFilteredExpenses zonePlus5 parseISO (Main.st_filter s)
             (Main.sqlSelectAll t) now.
Proof.
  intros s t now.
  refine (X5_saved_record_is_shown zonePlus5 parseISO sampleText s t now _ _ _ _ _ _ _ _ _).
  - discriminate.
  - discriminate.
  - reflexivity.
  - unfold clock_in_range, now, wednesdayNoon, maxTime, msPerDay. lia.
  - intros x b. unfold zonePlus5, msPerHour, msPerDay. lia.
  - reflexivity.
  - intros [_ H]. vm_compute in H. apply H. reflexivity.
  - reflexivity.
  - intros l H. unfold Main.UTC, Main.LocalTime, zonePlus5 in *. lia.
Defined.

(** ** The order of the cards *)

Lemma sorted_filter {A : Type} (R : A -> A -> Prop) (f : A -> bool) (l : list A) :
  StronglySorted R l -> StronglySorted R (List.filter f l).
Proof.
  induction 1 as [| x l Hs IH Hall]; [constructor | ].
  cbn [List.filter]. destruct (f x); [ | exact IH].
  constructor; [exact IH | ].
  rewrite Forall_forall in Hall |- *. intros y Hy. apply Hall.
  now apply filter_In in Hy.
Qed.

Lemma sorted_strictly (l : list Expense) :
  StronglySorted descending l -> NoDup (map id l) ->
  StronglySorted (fun a b => id b < id a) l.
Proof.
  induction 1 as [| x l Hs IH Hall]; intros Hn; [constructor | ].
  cbn [map] in Hn. inversion Hn as [| ? ? Hx Hl]; subst.
  constructor; [now apply IH | ].
  rewrite Forall_forall in Hall |- *. intros y Hy.
  specialize (Hall y Hy). unfold descending in Hall.
  assert (id y <> id x) by (intros E; apply Hx; rewrite <- E; now apply in_map).
  lia.
Qed.

Section Cards.

Variable LocalTZA : Z -> bool -> Z.
Variable Date_parse : string -> option Z.
Variable Number_toString : number -> string.

(** X19. The cards are in the order of their ids, the newest first, and
    no two of them have the same id: in every world the screen gets to
    and at every instant of a rendering, the visible records are in
    strictly descending order of id, under every filter. *)
Theorem X19_cards_newest_first (w : Screen.World) (now : Z) :
  Screen.reachable LocalTZA Date_parse Number_toString w ->
  StronglySorted (fun a b => id b < id a)
                 (Screen.visibleExpenses LocalTZA Date_parse (fst w) now).
Proof.
  intros Hr.
  destruct (ScreenFacts.reachable_consistent _ _ _ _ Hr) as [_ Hl Hd _ _ _ _ _].
  assert (S : StronglySorted (fun a b => id b < id a) (Main.st_expenses (fst w))).
  { rewrite Hl. apply sorted_strictly; [apply TableFacts.sqlSelectAll_sorted | ].
    eapply Permutation_NoDup; [ | exact Hd].
    apply Permutation_map. symmetry. apply TableFacts.sqlSelectAll_perm. }
  unfold Screen.visibleExpenses, Main.getFilteredExpenses.
  destruct (Main.st_filter (fst w) =? "All")%string; [exact S | ].
  now apply sorted_filter.
Qed.

End Cards.

Lemma X19_witness :
  Screen.reachable zonePlus5 parseISO sampleText weekWorld /\
  StronglySorted (fun a b => id b < id a)
                 (Screen.visibleExpenses zonePlus5 parseISO (fst weekWorld)
                    (wednesdayNoon + 2 * msPerDay)).
Proof.
  split; [apply weekWorld_reachable | ].
  exact (X19_cards_newest_first zonePlus5 parseISO sampleText weekWorld
           (wednesdayNoon + 2 * msPerDay) weekWorld_reachable).
Defined.

(** ** An edit and the view *)




Section EditView.

Variable LocalTZA : Z -> bool -> Z.
Variable Date_parse : string -> option Z.
Variable Number_toString : number -> string.

Local Abbreviation handle := (Screen.handle Number_toString).
Local Abbreviation visibleExpenses := (Screen.visibleExpenses LocalTZA Date_parse).


End EditView.

